(** * FlagHub: the signed-URL caching gateway

    A shallow embedding of the flag gateway of the FlagHub repository and
    the properties of its specification.

    The repository holds several revisions of the gateway.  Each one is
    embedded in a module of its own:

    - [Worker]      src/backend/serverCloudwareWorker.ts, first document
                    (Cloudflare worker, key = IP and User-Agent, SHA-256
                    digest signature, background refresh on a cache hit);
    - [Worker0]     src/unnamed/part_003 (key = IP, SHA-256 digest put
                    through btoa, background refresh on a cache hit);
    - [CorsWorker]  src/unnamed/part_002, first document (cross-origin
                    headers, HMAC-SHA-1 signature, verification request to
                    the origin);
    - [NameWorker]  src/unnamed/part_004 (as [CorsWorker], key = IP,
                    country names resolved by a lookup service, no
                    console line for a flag the origin does not hold);
    - [Server]      src/backend/serverCloudwareWorker.ts, third document
                    (express server with the ongoingFetches table);
    - [Server1]     src/backend/serverCloudwareWorker.ts, second document
                    (express server without that table);
    - [DigestWorker] src/unnamed/part_002, second document (SHA-1 digest
                    of the sorted parameters and the secret).

    The clients of the gateway are embedded as well:

    - [FlagHtml]    src/unnamed/part_006 (getFlagHtml: escaping, a cache of
                    one minute, three attempts);
    - [FlagCdn]     src/clients/country-flag-html-cdn/src/flag-cdn.js
                    (retries with backoff, a table of pending requests);
    - [CountryName] src/CountryFlag.jsx and src/src/utils/countryLookup.ts
                    (country names put in title case for the lookup).

    Conventions.  A JavaScript string is a [string]: a sequence of code
    units below 256.  Upper-casing leaves that range for two characters,
    the micro sign and y with diaeresis: where the upper-case form is
    sent on, as in the address of the country-name lookup, it is kept as
    a list of code units ([JS.toUpperCaseUnits]); where it is used as a
    key or a file path, the statements are about strings without the two
    characters ([JS.upper_fits]).  A JavaScript number is an integer [Z]
    (the values that occur, counters and Unix times, are far below 2^53)
    or NaN.  Date.now() is the argument [now], in milliseconds; one
    handler run reads one clock value.  A promise that is awaited is run
    to its result at the place of the await.  The KV namespace answers
    every get and put; crypto.subtle digests and signs whatever it is
    given, and importKey refuses a key of length zero. *)

From stdpp Require Import base strings list gmap sorting pretty.
From Stdlib Require Import ZArith Ascii.

Open Scope string_scope.
Open Scope list_scope.
Open Scope Z_scope.

(** ** The JavaScript values and built-ins the gateway uses *)

Module JS.

Definition code (c : ascii) : Z := Z.of_N (N_of_ascii c).
Definition chr (n : Z) : ascii := ascii_of_N (Z.to_N n).

Definition between (lo hi n : Z) : bool := (lo <=? n) && (n <=? hi).

(** A non-empty string is truthy, the empty string and null are falsy. *)
Definition truthy (s : string) : bool :=
match s with EmptyString => false | String _ _ => true end.

(** [a || b] on a value that is a string or null. *)
Definition or_else (a : option string) (b : string) : string :=
match a with
| Some s => if truthy s then s else b
| None => b
end.

(** String.prototype.toUpperCase on code units below 256: a-z and the
    accented letters 224-254 (but the division sign 247) move down by 32,
    the sharp s (223) becomes SS.  The micro sign (181) and y with
    diaeresis (255) have upper-case forms above 255, U+039C and U+0178,
    which a [string] cannot hold: [upper_char] keeps the two characters,
    and [toUpperCase] is the JavaScript value only on a string with
    neither of them ([upper_fits] below).  On any other string the result
    is, like the JavaScript value, outside A-Z, which is all that the
    tests of the country parameter read of it; [toUpperCaseUnits] gives
    the code units of the JavaScript value for every string. *)
Definition upper_char (c : ascii) : string :=
let n := code c in
if between 97 122 n then String (chr (n - 32)) EmptyString
else if n =? 223 then "SS"
else if between 224 254 n && negb (n =? 247) then String (chr (n - 32)) EmptyString
else String c EmptyString.

Fixpoint toUpperCase (s : string) : string :=
match s with
| EmptyString => EmptyString
| String c s' => upper_char c +:+ toUpperCase s'
end.

(** The code units of a string. *)
Fixpoint units (s : string) : list Z :=
match s with
| EmptyString => []
| String c s' => code c :: units s'
end.

(** The code units of c.toUpperCase(), for every code unit below 256. *)
Definition upper_units (c : ascii) : list Z :=
let n := code c in
if n =? 181 then [924]
else if n =? 255 then [376]
else units (upper_char c).

Fixpoint toUpperCaseUnits (s : string) : list Z :=
match s with
| EmptyString => []
| String c s' => upper_units c ++ toUpperCaseUnits s'
end.

(** Whether a string holds neither the micro sign nor y with diaeresis:
    its upper-case form then stays below 256. *)
Fixpoint upper_fits (s : string) : bool :=
match s with
| EmptyString => true
| String c s' => negb ((code c =? 181) || (code c =? 255)) && upper_fits s'
end.

(** ASCII lower-casing, for header names (byte-case-insensitive). *)
Definition lower_char (c : ascii) : ascii :=
let n := code c in if between 65 90 n then chr (n + 32) else c.

Fixpoint toLowerAscii (s : string) : string :=
match s with
| EmptyString => EmptyString
| String c s' => String (lower_char c) (toLowerAscii s')
end.

(** White space below 256: tab, line feed, vertical tab, form feed,
    carriage return, space, no-break space. *)
Definition is_white (c : ascii) : bool :=
let n := code c in between 9 13 n || (n =? 32) || (n =? 160).

Fixpoint trimStart (s : string) : string :=
match s with
| String c s' => if is_white c then trimStart s' else s
| EmptyString => EmptyString
end.

Definition trim (s : string) : string :=
String.rev (trimStart (String.rev (trimStart s))).

(** The regular expression /^[A-Z]{2}$/ (no flags): exactly two code
    units, both in A-Z. *)
Definition is_AZ (c : ascii) : bool := between 65 90 (code c).

Definition test_two_upper (s : string) : bool :=
match s with
| String a (String b EmptyString) => is_AZ a && is_AZ b
| _ => false
end.

(** Numbers: an integer or NaN. *)
Inductive Number := Num (z : Z) | NaN.

Definition digit_val (radix : Z) (c : ascii) : option Z :=
let n := code c in
let v := if between 48 57 n then Some (n - 48)
         else if between 97 122 n then Some (n - 87)
         else if between 65 90 n then Some (n - 55)
         else None in
match v with
| Some d => if d <? radix then Some d else None
| None => None
end.

Fixpoint parse_digits (radix : Z) (s : string) (acc : option Z) : option Z :=
match s with
| String c s' =>
    match digit_val radix c with
    | Some d => parse_digits radix s' (Some (radix * default 0 acc + d))
    | None => acc
    end
| EmptyString => acc
end.

Definition strip_0x (s : string) : option string :=
match s with
| String z (String x rest) =>
    if (code z =? 48) && ((code x =? 120) || (code x =? 88)) then Some rest else None
| _ => None
end.

(** parseInt(s) with no radix: leading white space, a sign, then 0x and
    hexadecimal digits or decimal digits; the longest prefix of digits
    counts, and none at all gives NaN. *)
Definition parseInt (s : string) : Number :=
let s := trimStart s in
let '(sign, s) :=
  match s with
  | String c r => if code c =? 45 then (-1, r) else if code c =? 43 then (1, r) else (1, s)
  | EmptyString => (1, s)
  end in
let r := match strip_0x s with
         | Some rest => parse_digits 16 rest None
         | None => parse_digits 10 s None
         end in
match r with
| Some v => Num (sign * v)
| None => NaN
end.

(** Number.prototype.toString() on an integer, and on NaN. *)
Definition toString (n : Number) : string :=
match n with
| Num z => pretty z
| NaN => "NaN"
end.

(** [count >= max] and [count + 1]; every comparison with NaN is false. *)
Definition ge (n : Number) (m : Z) : bool :=
match n with
| Num z => m <=? z
| NaN => false
end.

Definition succ (n : Number) : Number :=
match n with
| Num z => Num (z + 1)
| NaN => NaN
end.

(** new TextEncoder().encode(s): UTF-8, one byte below 128 and two bytes
    for the code units 128-255. *)
Definition encode_char (c : ascii) : list Z :=
let n := code c in
if n <? 128 then [n] else [Z.lor 192 (Z.shiftr n 6); Z.lor 128 (Z.land n 63)].

Fixpoint encode (s : string) : list Z :=
match s with
| EmptyString => []
| String c s' => encode_char c ++ encode s'
end.

(** The same on code units below 2048, which take one or two bytes. *)
Definition encode_unit (n : Z) : list Z :=
if n <? 128 then [n] else [Z.lor 192 (Z.shiftr n 6); Z.lor 128 (Z.land n 63)].

Definition encode_units (l : list Z) : list Z := flat_map encode_unit l.

Definition hex_digit (n : Z) : ascii := if n <? 10 then chr (48 + n) else chr (87 + n).

(** b.toString(16).padStart(2, "0") on a byte. *)
Definition byte_hex (b : Z) : string :=
String (hex_digit (b / 16)) (String (hex_digit (b mod 16)) EmptyString).

(** bytes.map(b => b.toString(16).padStart(2, "0")).join("") *)
Fixpoint hex (bs : list Z) : string :=
match bs with
| [] => EmptyString
| b :: bs' => byte_hex b +:+ hex bs'
end.

Definition b64_char (n : Z) : ascii :=
if n <? 26 then chr (65 + n)
else if n <? 52 then chr (71 + n)
else if n <? 62 then chr (n - 4)
else if n =? 62 then chr 43 else chr 47.

(** btoa(String.fromCharCode(...bytes)): base64 with padding. *)
Fixpoint btoa (bs : list Z) : string :=
match bs with
| [] => EmptyString
| [a] =>
    String (b64_char (Z.shiftr a 2))
   (String (b64_char (Z.shiftl (Z.land a 3) 4)) "==")
| [a; b] =>
    String (b64_char (Z.shiftr a 2))
   (String (b64_char (Z.lor (Z.shiftl (Z.land a 3) 4) (Z.shiftr b 4)))
   (String (b64_char (Z.shiftl (Z.land b 15) 2)) "="))
| a :: b :: c :: rest =>
    String (b64_char (Z.shiftr a 2))
   (String (b64_char (Z.lor (Z.shiftl (Z.land a 3) 4) (Z.shiftr b 4)))
   (String (b64_char (Z.lor (Z.shiftl (Z.land b 15) 2) (Z.shiftr c 6)))
   (String (b64_char (Z.land c 63)) (btoa rest))))
end.

(** One of the characters 0-9 and a-f. *)
Definition is_lower_hex (c : ascii) : bool :=
between 48 57 (code c) || between 97 102 (code c).

(** Whether every code unit of a string passes a test. *)
Fixpoint every (p : ascii -> bool) (s : string) : bool :=
match s with
| EmptyString => true
| String c s' => p c && every p s'
end.

(** Whether a code unit occurs in a string. *)
Fixpoint occurs (c : ascii) (s : string) : bool :=
match s with
| EmptyString => false
| String c' s' => if Ascii.eqb c c' then true else occurs c s'
end.

(** Array.prototype.join *)
Fixpoint join (sep : string) (l : list string) : string :=
match l with
| [] => EmptyString
| [x] => x
| x :: l' => x +:+ sep +:+ join sep l'
end.

(** Array.prototype.sort() with no comparator, on strings: ascending in
    the order of the code units. *)
Definition sort (l : list string) : list string := merge_sort String.le l.

(** A record of strings: the keys in insertion order, no key twice. *)
Definition Record_ := list (string * string).

Definition keys (o : Record_) : list string := o.*1.

Fixpoint get_field (o : Record_) (k : string) : string :=
match o with
| [] => "undefined"
| (k', v) :: o' => if String.eqb k' k then v else get_field o' k
end.

End JS.

(** ** crypto.subtle: SHA-1, SHA-256 and HMAC on byte sequences

    Words are 32-bit integers in [Z], every sum reduced modulo 2^32. *)

Module WebCrypto.

Definition w32 (x : Z) : Z := x mod 2^32.
Definition add32 (x y : Z) : Z := w32 (x + y).
Definition rotr (n x : Z) : Z := Z.lor (Z.shiftr x n) (w32 (Z.shiftl x (32 - n))).
Definition rotl (n x : Z) : Z := Z.lor (w32 (Z.shiftl x n)) (Z.shiftr x (32 - n)).
Definition not32 (x : Z) : Z := Z.lxor x (2^32 - 1).

Definition be32 (x : Z) : list Z :=
[Z.shiftr x 24 mod 256; Z.shiftr x 16 mod 256; Z.shiftr x 8 mod 256; x mod 256].

Definition be64 (x : Z) : list Z := be32 (Z.shiftr x 32 mod 2^32) ++ be32 (x mod 2^32).

Fixpoint words_of_bytes (bs : list Z) : list Z :=
match bs with
| b0 :: b1 :: b2 :: b3 :: rest =>
    Z.lor (Z.shiftl b0 24) (Z.lor (Z.shiftl b1 16) (Z.lor (Z.shiftl b2 8) b3))
      :: words_of_bytes rest
| _ => []
end.

(** Padding: a 1 bit, zeros up to 56 modulo 64 bytes, the bit length. *)
Definition pad (msg : list Z) : list Z :=
let len := Z.of_nat (length msg) in
msg ++ [128] ++ replicate (Z.to_nat ((55 - len) mod 64)) 0 ++ be64 (8 * len).

Fixpoint blocks (fuel : nat) (bs : list Z) : list (list Z) :=
match fuel, bs with
| S f, _ :: _ => take 64 bs :: blocks f (drop 64 bs)
| _, _ => []
end.

(** The message schedule is built newest word first. *)
Fixpoint extend (n : nat) (next : list Z -> Z) (rev_ws : list Z) : list Z :=
match n with
| O => rev_ws
| S n' => extend n' next (next rev_ws :: rev_ws)
end.

Fixpoint add_state (s t : list Z) : list Z :=
match s, t with
| x :: s', y :: t' => add32 x y :: add_state s' t'
| _, _ => []
end.

(** The constants of SHA-256 are the first 32 bits of the fractional
    parts of the cube roots (round constants) and of the square roots
    (initial state) of the first primes. *)
Definition is_prime (n : Z) : bool :=
forallb (fun d => negb (n mod d =? 0)) (List.filter (fun d => d * d <=? n) (Z.of_nat <$> seq 2 20)).

Definition primes : list Z := List.filter is_prime (Z.of_nat <$> seq 2 310).

Fixpoint cube_root (fuel : nat) (lo hi n : Z) : Z :=
match fuel with
| O => lo
| S f =>
    if hi - lo <=? 1 then lo
    else let mid := (lo + hi) / 2 in
         if mid * mid * mid <=? n then cube_root f mid hi n else cube_root f lo mid n
end.

Definition K256 : list Z :=
Eval vm_compute in (fun p => cube_root 64 0 (2^44) (p * 2^96) mod 2^32) <$> primes.

Definition H256 : list Z :=
Eval vm_compute in (fun p => Z.sqrt (p * 2^64) mod 2^32) <$> take 8 primes.

Definition ssig0 (x : Z) : Z := Z.lxor (rotr 7 x) (Z.lxor (rotr 18 x) (Z.shiftr x 3)).
Definition ssig1 (x : Z) : Z := Z.lxor (rotr 17 x) (Z.lxor (rotr 19 x) (Z.shiftr x 10)).
Definition bsig0 (x : Z) : Z := Z.lxor (rotr 2 x) (Z.lxor (rotr 13 x) (rotr 22 x)).
Definition bsig1 (x : Z) : Z := Z.lxor (rotr 6 x) (Z.lxor (rotr 11 x) (rotr 25 x)).
Definition ch (x y z : Z) : Z := Z.lxor (Z.land x y) (Z.land (not32 x) z).
Definition maj (x y z : Z) : Z := Z.lxor (Z.land x y) (Z.lxor (Z.land x z) (Z.land y z)).

Definition next256 (r : list Z) : Z :=
add32 (add32 (ssig1 (nth 1 r 0)) (nth 6 r 0)) (add32 (ssig0 (nth 14 r 0)) (nth 15 r 0)).

Definition schedule256 (block : list Z) : list Z :=
rev (extend 48 next256 (rev (words_of_bytes block))).

Definition round256 (st : list Z) (kw : Z * Z) : list Z :=
match st with
| [a; b; c; d; e; f; g; h] =>
    let t1 := add32 (add32 (add32 h (bsig1 e)) (add32 (ch e f g) kw.1)) kw.2 in
    let t2 := add32 (bsig0 a) (maj a b c) in
    [add32 t1 t2; a; b; c; add32 d t1; e; f; g]
| _ => st
end.

Definition compress256 (st block : list Z) : list Z :=
add_state st (fold_left round256 (zip K256 (schedule256 block)) st).

Definition sha256 (msg : list Z) : list Z :=
let p := pad msg in
flat_map be32 (fold_left compress256 (blocks (length p) p) H256).

Definition H1 : list Z := [0x67452301; 0xefcdab89; 0x98badcfe; 0x10325476; 0xc3d2e1f0].

Definition next1 (r : list Z) : Z :=
rotl 1 (Z.lxor (nth 2 r 0) (Z.lxor (nth 7 r 0) (Z.lxor (nth 13 r 0) (nth 15 r 0)))).

Definition schedule1 (block : list Z) : list Z :=
rev (extend 64 next1 (rev (words_of_bytes block))).

Definition f1 (t : nat) (b c d : Z) : Z :=
if (t <? 20)%nat then Z.lor (Z.land b c) (Z.land (not32 b) d)
else if (t <? 40)%nat then Z.lxor b (Z.lxor c d)
else if (t <? 60)%nat then Z.lor (Z.land b c) (Z.lor (Z.land b d) (Z.land c d))
else Z.lxor b (Z.lxor c d).

Definition k1 (t : nat) : Z :=
if (t <? 20)%nat then 0x5a827999
else if (t <? 40)%nat then 0x6ed9eba1
else if (t <? 60)%nat then 0x8f1bbcdc
else 0xca62c1d6.

Definition round1 (st : list Z) (tw : nat * Z) : list Z :=
match st with
| [a; b; c; d; e] =>
    let tmp := add32 (add32 (rotl 5 a) (f1 tw.1 b c d)) (add32 (add32 e (k1 tw.1)) tw.2) in
    [tmp; a; rotl 30 b; c; d]
| _ => st
end.

Definition compress1 (st block : list Z) : list Z :=
add_state st (fold_left round1 (zip (seq 0 80) (schedule1 block)) st).

Definition sha1 (msg : list Z) : list Z :=
let p := pad msg in
flat_map be32 (fold_left compress1 (blocks (length p) p) H1).

(** crypto.subtle.digest(name, data) *)
Inductive HashName := SHA_1 | SHA_256.

Definition digest (h : HashName) (data : list Z) : list Z :=
match h with
| SHA_1 => sha1 data
| SHA_256 => sha256 data
end.

(** crypto.subtle.importKey("raw", key, {name: "HMAC", hash}, ...) followed
    by crypto.subtle.sign("HMAC", key, data): HMAC with a 64-byte block. *)
Definition hmac_sign (h : HashName) (key data : list Z) : list Z :=
let k0 := if 64 <? Z.of_nat (length key) then digest h key else key in
let k := k0 ++ replicate (64 - length k0) 0 in
digest h (map (Z.lxor 0x5c) k ++ digest h (map (Z.lxor 0x36) k ++ data)).

End WebCrypto.

(** ** Workers KV: a namespace of string values with expiry *)

Module KV.

Record Entry := { value : string; expiration : Z }.

(** get(key): the value, or null when the key is absent or expired. *)
Definition get (kv : gmap string Entry) (now : Z) (key : string) : option string :=
match kv !! key with
| Some e => if bool_decide (now < expiration e) then Some (value e) else None
| None => None
end.

(** put(key, value, {expirationTtl}): the key expires [ttl] seconds from now. *)
Definition put (kv : gmap string Entry) (now : Z) (key v : string) (ttl : Z)
  : gmap string Entry :=
<[key := {| value := v; expiration := now + 1000 * ttl |}]> kv.

End KV.

(** ** Requests, responses and URLs *)

Module Http.

Record Request := {
  method : string;
  pathname : string;                       (* new URL(req.url).pathname *)
  searchParams : list (string * string);   (* new URL(req.url).searchParams *)
  headers : list (string * string)
}.

Inductive JsonValue := JBool (b : bool) | JString (s : string).

Record Response := {
  status : Z;
  res_headers : list (string * string);
  body : option (list (string * JsonValue))  (* the object put through JSON.stringify, or null *)
}.

(** Headers.get(name): names compare without case, the values of a name
    that occurs several times are joined. *)
Definition header_values (name : string) (hs : list (string * string)) : list string :=
(filter (fun h => JS.toLowerAscii h.1 = JS.toLowerAscii name) hs).*2.

Definition headers_get (name : string) (hs : list (string * string)) : option string :=
match header_values name hs with
| [] => None
| vs => Some (JS.join ", " vs)
end.

(** URLSearchParams.get(name): the first value of the name, or null. *)
Fixpoint params_get (name : string) (ps : list (string * string)) : option string :=
match ps with
| [] => None
| (n, v) :: ps' => if String.eqb n name then Some v else params_get name ps'
end.

(** URLSearchParams.set(name, value): replaces the first pair of the name
    and drops the others, or appends. *)
Fixpoint params_set (name v : string) (ps : list (string * string)) : list (string * string) :=
match ps with
| [] => [(name, v)]
| (n, v') :: ps' =>
    if String.eqb n name
    then (name, v) :: filter (fun p => p.1 ≠ name) ps'
    else (n, v') :: params_set name v ps'
end.

Definition HEX_DIGIT (n : Z) : ascii := if n <? 10 then JS.chr (48 + n) else JS.chr (55 + n).

(** The application/x-www-form-urlencoded byte serializer. *)
Definition form_byte (b : Z) : string :=
if JS.between 48 57 b || JS.between 65 90 b || JS.between 97 122 b
   || (b =? 42) || (b =? 45) || (b =? 46) || (b =? 95)
then String (JS.chr b) EmptyString
else if b =? 32 then "+"
else String (JS.chr 37) (String (HEX_DIGIT (b / 16)) (String (HEX_DIGIT (b mod 16)) EmptyString)).

Definition form_encode (s : string) : string :=
JS.join "" (form_byte <$> JS.encode s).

Definition params_toString (ps : list (string * string)) : string :=
JS.join "&" ((fun p => form_encode p.1 +:+ "=" +:+ form_encode p.2) <$> ps).

(** A URL object: the part up to the query, as the gateway wrote it (the
    cloud name and the file path are taken to need no escaping), and the
    query parameters. *)
Record URL := { base : string; query : list (string * string) }.

Definition URL_new (href : string) : URL := {| base := href; query := [] |}.

Definition URL_set (name v : string) (u : URL) : URL :=
{| base := base u; query := params_set name v (query u) |}.

Definition URL_toString (u : URL) : string :=
match query u with
| [] => base u
| ps => base u +:+ "?" +:+ params_toString ps
end.

End Http.

(** ** The state the workers act on *)

(** What a run leaves behind besides the KV namespace: the calls of the
    origin fetcher (fetchFromCloudinary, fetchSignedCloudinaryUrl), the
    requests sent over the network and the console.error lines.  A line
    that quotes an upper-cased parameter is kept as code units, which may
    lie above 255. *)
Inductive Event :=
| OriginFetcherCall (country : string)
| NetworkFetch (url : string)
| ConsoleError (text : string)
| ConsoleErrorUnits (line : list Z).

Record World := { FLAG_CACHE : gmap string KV.Entry; events : list Event }.

Definition kv_put (key v : string) (ttl now : Z) (w : World) : World :=
{| FLAG_CACHE := KV.put (FLAG_CACHE w) now key v ttl; events := events w |}.

Definition emit (e : Event) (w : World) : World :=
{| FLAG_CACHE := FLAG_CACHE w; events := events w ++ [e] |}.

(** The bindings of the worker other than the KV namespace. *)
Record Env := {
  CLOUDINARY_CLOUD_NAME : string;
  CLOUDINARY_API_KEY : string;
  CLOUDINARY_API_SECRET : string
}.

(** The answer of the network to fetch(url): a response with a status,
    or a rejected promise. *)
Inductive FetchResult := HttpStatus (code : Z) | NetworkFailure (text : string).

(** How a call ends: with a value, or with a thrown error. *)
Inductive Completion (A : Type) := Return (a : A) | Throw (text : string).
Arguments Return {A} a.
Arguments Throw {A} text.

(** crypto.subtle.importKey("raw", keyData, { name: "HMAC", hash }, false,
    ["sign"]): the key is the bytes given.  Key data of length zero is
    refused with a DataError (the wording after the name of the error is
    the platform's). *)
Definition importKey (keyData : list Z) : Completion (list Z) :=
match keyData with
| [] => Throw "DataError: Zero-length key is not supported"
| _ :: _ => Return keyData
end.

(** Response.ok *)
Definition response_ok (code : Z) : bool := JS.between 200 299 code.

(** The origin did not confirm the flag: it answered with a status that is
    not ok, or the request itself failed. *)
Definition resolution_failed (r : FetchResult) : bool :=
match r with
| HttpStatus code => negb (response_ok code)
| NetworkFailure _ => true
end.

Definition failure (message : string) : list (string * Http.JsonValue) :=
[("success", Http.JBool false); ("message", Http.JString message)].

Definition success (secureUrl : string) : list (string * Http.JsonValue) :=
[("success", Http.JBool true); ("secureUrl", Http.JString secureUrl)].

(** ** src/backend/serverCloudwareWorker.ts, first document *)

Module Worker.

Definition TTL_SECONDS : Z := 12 * 60 * 60.
Definition RATE_LIMIT_KEY_PREFIX : string := "rl_".
Definition RATE_LIMIT_MAX : Z := 100.
Definition RATE_LIMIT_WINDOW_SEC : Z := 900.

Definition createJsonResponse (data : list (string * Http.JsonValue)) (statusCode : Z)
  : Http.Response :=
{| Http.status := statusCode;
   Http.res_headers := [("Content-Type", "application/json")];
   Http.body := Some data |}.

Definition rateLimitKey (req : Http.Request) : string :=
let ip := JS.or_else (Http.headers_get "CF-Connecting-IP" (Http.headers req)) "unknown" in
let ua := JS.or_else (Http.headers_get "User-Agent" (Http.headers req)) "unknown" in
RATE_LIMIT_KEY_PREFIX +:+ ip +:+ "_" +:+ ua.

Definition isRateLimited (req : Http.Request) (now : Z) (w : World) : bool * World :=
let key := rateLimitKey req in
let requestCount := KV.get (FLAG_CACHE w) now key in
let count :=
  match requestCount with
  | Some s => if JS.truthy s then JS.parseInt s else JS.Num 0
  | None => JS.Num 0
  end in
if JS.ge count RATE_LIMIT_MAX then (true, w)
else (false, kv_put key (JS.toString (JS.succ count)) RATE_LIMIT_WINDOW_SEC now w).

Definition country_param (req : Http.Request) : option string :=
JS.toUpperCase <$> Http.params_get "country" (Http.searchParams req).

Definition validateQueryParams (req : Http.Request) : option string :=
match country_param req with
| Some country =>
    if JS.truthy country && JS.test_two_upper country then None
    else Some "Invalid country parameter. Must be a 2-letter uppercase country code."
| None => Some "Invalid country parameter. Must be a 2-letter uppercase country code."
end.

Definition expiresAt (now : Z) : Z := now / 1000 + TTL_SECONDS.

Definition stringToSign (env : Env) (now : Z) : string :=
"timestamp=" +:+ pretty (expiresAt now) +:+ CLOUDINARY_API_SECRET env.

Definition signatureHex (env : Env) (now : Z) : string :=
JS.hex (WebCrypto.digest WebCrypto.SHA_256 (JS.encode (stringToSign env now))).

Definition cloudinaryUrl (country : string) (env : Env) (now : Z) : Http.URL :=
let filePath := "flags/" +:+ country +:+ ".svg" in
let u := Http.URL_new ("https://res.cloudinary.com/" +:+ CLOUDINARY_CLOUD_NAME env
                        +:+ "/image/upload/" +:+ filePath) in
let u := Http.URL_set "api_key" (CLOUDINARY_API_KEY env) u in
let u := Http.URL_set "timestamp" (pretty (expiresAt now)) u in
Http.URL_set "signature" (signatureHex env now) u.

Definition fetchFromCloudinary (country : string) (env : Env) (now : Z) (w : World)
  : string * World :=
(Http.URL_toString (cloudinaryUrl country env now), emit (OriginFetcherCall country) w).

(** Nothing in the try block throws in this revision: the catch branch,
    which also returns the empty string, is never entered. *)
Definition fetchAndCacheFlag (country : string) (env : Env) (now : Z) (w : World)
  : string * World :=
let '(secureUrl, w) := fetchFromCloudinary country env now w in
if negb (JS.truthy secureUrl) then ("", w)
else (secureUrl, kv_put ("flag_" +:+ country) secureUrl TTL_SECONDS now w).

(** The detached block of the cache-hit branch: resolve again, and store
    what came back once more. *)
Definition backgroundRefresh (country cacheKey : string) (env : Env) (now : Z) (w : World)
  : World :=
let '(refreshedUrl, w) := fetchAndCacheFlag country env now w in
if JS.truthy refreshedUrl then kv_put cacheKey refreshedUrl TTL_SECONDS now w else w.

(** The response, and the world once the detached block of the cache-hit
    branch has run as well; the response does not wait for that block and
    does not depend on it. *)
Definition handleGetFlag (req : Http.Request) (env : Env) (now : Z) (w : World)
  : Http.Response * World :=
let '(limited, w) := isRateLimited req now w in
if limited then (createJsonResponse (failure "Rate limit exceeded.") 429, w)
else
  match validateQueryParams req with
  | Some errorMessage => (createJsonResponse (failure errorMessage) 400, w)
  | None =>
      let country := default "" (country_param req) in
      let cacheKey := "flag_" +:+ country in
      let cachedUrl := default "" (KV.get (FLAG_CACHE w) now cacheKey) in
      if JS.truthy cachedUrl
      then (createJsonResponse (success cachedUrl) 200,
            backgroundRefresh country cacheKey env now w)
      else
        let '(secureUrl, w) := fetchAndCacheFlag country env now w in
        if negb (JS.truthy secureUrl)
        then (createJsonResponse (failure "Cloudinary fetch error") 500, w)
        else (createJsonResponse (success secureUrl) 200, w)
  end.

Definition fetch (req : Http.Request) (env : Env) (now : Z) (w : World)
  : Http.Response * World :=
if String.eqb (Http.pathname req) "/api/getFlag" then handleGetFlag req env now w
else (createJsonResponse (failure "Not Found") 404, w).

End Worker.

(** ** src/unnamed/part_003 *)

Module Worker0.

Definition TTL_SECONDS : Z := 12 * 60 * 60.
Definition RATE_LIMIT_KEY_PREFIX : string := "rl_".
Definition RATE_LIMIT_MAX : Z := 100.
Definition RATE_LIMIT_WINDOW_SEC : Z := 900.

Definition createJsonResponse (data : list (string * Http.JsonValue)) (statusCode : Z)
  : Http.Response :=
{| Http.status := statusCode;
   Http.res_headers := [("Content-Type", "application/json")];
   Http.body := Some data |}.

Definition rateLimitKey (req : Http.Request) : string :=
let ip := JS.or_else (Http.headers_get "CF-Connecting-IP" (Http.headers req)) "unknown" in
RATE_LIMIT_KEY_PREFIX +:+ ip.

Definition isRateLimited (req : Http.Request) (now : Z) (w : World) : bool * World :=
let key := rateLimitKey req in
let requestCount := KV.get (FLAG_CACHE w) now key in
let count :=
  match requestCount with
  | Some s => if JS.truthy s then JS.parseInt s else JS.Num 0
  | None => JS.Num 0
  end in
if JS.ge count RATE_LIMIT_MAX then (true, w)
else (false, kv_put key (JS.toString (JS.succ count)) RATE_LIMIT_WINDOW_SEC now w).

(** validateQueryParams has the text of the first document. *)
Definition validateQueryParams : Http.Request -> option string := Worker.validateQueryParams.

Definition expiresAt (now : Z) : Z := now / 1000 + TTL_SECONDS.

Definition stringToSign (env : Env) (now : Z) : string :=
"timestamp=" +:+ pretty (expiresAt now) +:+ CLOUDINARY_API_SECRET env.

Definition signature (env : Env) (now : Z) : string :=
JS.btoa (WebCrypto.digest WebCrypto.SHA_256 (JS.encode (stringToSign env now))).

Definition cloudinaryUrl (country : string) (env : Env) (now : Z) : Http.URL :=
let filePath := "flags/" +:+ country +:+ ".svg" in
let u := Http.URL_new ("https://res.cloudinary.com/" +:+ CLOUDINARY_CLOUD_NAME env
                        +:+ "/image/upload/" +:+ filePath) in
let u := Http.URL_set "api_key" (CLOUDINARY_API_KEY env) u in
let u := Http.URL_set "timestamp" (pretty (expiresAt now)) u in
Http.URL_set "signature" (signature env now) u.

Definition fetchFromCloudinary (country : string) (env : Env) (now : Z) (w : World)
  : string * World :=
(Http.URL_toString (cloudinaryUrl country env now), emit (OriginFetcherCall country) w).

Definition fetchAndCacheFlag (country : string) (env : Env) (now : Z) (w : World)
  : string * World :=
let '(secureUrl, w) := fetchFromCloudinary country env now w in
(secureUrl, kv_put ("flag_" +:+ country) secureUrl TTL_SECONDS now w).

Definition handleGetFlag (req : Http.Request) (env : Env) (now : Z) (w : World)
  : Http.Response * World :=
let '(limited, w) := isRateLimited req now w in
if limited then (createJsonResponse (failure "Rate limit exceeded.") 429, w)
else
  match validateQueryParams req with
  | Some errorMessage => (createJsonResponse (failure errorMessage) 400, w)
  | None =>
      let country := default "" (Worker.country_param req) in
      let cacheKey := "flag_" +:+ country in
      let cachedUrl := default "" (KV.get (FLAG_CACHE w) now cacheKey) in
      if JS.truthy cachedUrl
      then (createJsonResponse (success cachedUrl) 200,
            (fetchAndCacheFlag country env now w).2)
      else
        let '(secureUrl, w) := fetchAndCacheFlag country env now w in
        if String.eqb secureUrl ""
        then (createJsonResponse (failure "Failed to fetch flag") 500, w)
        else (createJsonResponse (success secureUrl) 200, w)
  end.

End Worker0.

(** ** src/unnamed/part_002, first document *)

Module CorsWorker.

Definition TTL_SECONDS : Z := 12 * 60 * 60.
Definition RATE_LIMIT_KEY_PREFIX : string := "rl_".
Definition RATE_LIMIT_MAX : Z := 100.
Definition RATE_LIMIT_WINDOW_SEC : Z := 900.

Definition corsHeaders : list (string * string) :=
[("Access-Control-Allow-Origin", "*");
 ("Access-Control-Allow-Methods", "GET, OPTIONS");
 ("Access-Control-Allow-Headers", "Content-Type")].

Definition preflight : Http.Response :=
{| Http.status := 204; Http.res_headers := corsHeaders; Http.body := None |}.

Definition createJsonResponse (data : list (string * Http.JsonValue)) (statusCode : Z)
  : Http.Response :=
{| Http.status := statusCode;
   Http.res_headers := ("Content-Type", "application/json") :: corsHeaders;
   Http.body := Some data |}.

Definition getRateLimitKey (req : Http.Request) : string :=
let ip := JS.or_else (Http.headers_get "CF-Connecting-IP" (Http.headers req)) "unknown_ip" in
let ua := JS.or_else (Http.headers_get "User-Agent" (Http.headers req)) "unknown_ua" in
RATE_LIMIT_KEY_PREFIX +:+ ip +:+ "_" +:+ ua.

Definition isRateLimited (req : Http.Request) (now : Z) (w : World) : bool * World :=
let key := getRateLimitKey req in
let requestCount := KV.get (FLAG_CACHE w) now key in
let count :=
  match requestCount with
  | Some s => if JS.truthy s then JS.parseInt s else JS.Num 0
  | None => JS.Num 0
  end in
if JS.ge count RATE_LIMIT_MAX then (true, w)
else (false, kv_put key (JS.toString (JS.succ count)) RATE_LIMIT_WINDOW_SEC now w).

Definition validateQueryParams : Http.Request -> option string := Worker.validateQueryParams.

Definition queryString (params : JS.Record_) : string :=
JS.join "&" ((fun key => key +:+ "=" +:+ JS.get_field params key) <$> JS.sort (JS.keys params)).

(** The signature is made in two awaited steps: importKey, which throws
    on an empty secret, and sign. *)
Definition generateCloudinarySignature (params : JS.Record_) (env : Env) : Completion string :=
let queryString := queryString params in
match importKey (JS.encode (CLOUDINARY_API_SECRET env)) with
| Throw text => Throw text
| Return key =>
    Return (JS.hex (WebCrypto.hmac_sign WebCrypto.SHA_1 key (JS.encode queryString)))
end.

(** The URL object of fetchSignedCloudinaryUrl with its three parameters
    set. *)
Definition cloudinaryUrl (filePath : string) (env : Env) (timestamp signature : string)
  : Http.URL :=
let u := Http.URL_new ("https://res.cloudinary.com/" +:+ CLOUDINARY_CLOUD_NAME env
                        +:+ "/image/upload/" +:+ filePath) in
let u := Http.URL_set "api_key" (CLOUDINARY_API_KEY env) u in
let u := Http.URL_set "timestamp" timestamp u in
Http.URL_set "signature" signature u.

(** The URL fetchSignedCloudinaryUrl builds at the time [now] for a secret
    that importKey takes: the signature is the HMAC-SHA-1 of the parameter
    string under the secret, in hexadecimal. *)
Definition signedUrl (country : string) (env : Env) (now : Z) : Http.URL :=
let filePath := "flags/" +:+ country +:+ ".svg" in
let expiresAt := now / 1000 + TTL_SECONDS in
let params := [("timestamp", pretty expiresAt); ("public_id", filePath)] in
cloudinaryUrl filePath env (pretty expiresAt)
  (JS.hex (WebCrypto.hmac_sign WebCrypto.SHA_1
             (JS.encode (CLOUDINARY_API_SECRET env)) (JS.encode (queryString params)))).

Section Origin.

(** The network: what fetch(url) comes back with. *)
Variable net : string -> FetchResult.

(** When the signature cannot be made the function throws before the URL
    is built, and no request is sent. *)
Definition fetchSignedCloudinaryUrl (country : string) (env : Env) (now : Z) (w : World)
  : Completion (option string) * World :=
let filePath := "flags/" +:+ country +:+ ".svg" in
let expiresAt := now / 1000 + TTL_SECONDS in
let params := [("timestamp", pretty expiresAt); ("public_id", filePath)] in
let w := emit (OriginFetcherCall country) w in
match generateCloudinarySignature params env with
| Throw text => (Throw text, w)
| Return signature =>
    let href := Http.URL_toString (cloudinaryUrl filePath env (pretty expiresAt) signature) in
    let w := emit (NetworkFetch href) w in
    match net href with
    | NetworkFailure text => (Throw text, w)
    | HttpStatus code =>
        if negb (response_ok code)
        then (Return None, emit (ConsoleError ("Flag not found on Cloudinary: " +:+ filePath)) w)
        else (Return (Some href), w)
    end
end.

Definition fetchAndCacheFlag (country : string) (env : Env) (now : Z) (w : World)
  : string * World :=
match fetchSignedCloudinaryUrl country env now w with
| (Return secureUrl, w) =>
    if negb (JS.truthy (default "" secureUrl)) then ("", w)
    else (default "" secureUrl,
          kv_put ("flag_" +:+ country) (default "" secureUrl) TTL_SECONDS now w)
| (Throw text, w) =>
    ("", emit (ConsoleError ("Error fetching flag for " +:+ country +:+ ": " +:+ text)) w)
end.

(** fetchAndCacheFlag catches whatever is thrown: the catch branch of the
    handler is never entered. *)
Definition handleGetFlag (req : Http.Request) (env : Env) (now : Z) (w : World)
  : Http.Response * World :=
let '(limited, w) := isRateLimited req now w in
if limited then (createJsonResponse (failure "Rate limit exceeded.") 429, w)
else
  match validateQueryParams req with
  | Some errorMessage => (createJsonResponse (failure errorMessage) 400, w)
  | None =>
      let country := default "" (Worker.country_param req) in
      let cacheKey := "flag_" +:+ country in
      let cachedUrl := default "" (KV.get (FLAG_CACHE w) now cacheKey) in
      if JS.truthy cachedUrl
      then (createJsonResponse (success cachedUrl) 200, w)
      else
        let '(secureUrl, w) := fetchAndCacheFlag country env now w in
        if negb (JS.truthy secureUrl)
        then (createJsonResponse (failure "Cloudinary fetch error") 500, w)
        else (createJsonResponse (success secureUrl) 200, w)
  end.

Definition fetch (req : Http.Request) (env : Env) (now : Z) (w : World)
  : Http.Response * World :=
if String.eqb (Http.method req) "OPTIONS" then (preflight, w)
else if String.eqb (Http.pathname req) "/api/getFlag" then handleGetFlag req env now w
else (createJsonResponse (failure "Not Found") 404, w).

End Origin.

End CorsWorker.

(** ** src/unnamed/part_004 *)

Module NameWorker.

Definition TTL_SECONDS : Z := 12 * 60 * 60.
Definition RATE_LIMIT_KEY_PREFIX : string := "rl_".
Definition RATE_LIMIT_MAX : Z := 100.
Definition RATE_LIMIT_WINDOW_SEC : Z := 900.

Definition corsHeaders : list (string * string) :=
[("Access-Control-Allow-Origin", "*");
 ("Access-Control-Allow-Methods", "GET, OPTIONS");
 ("Access-Control-Allow-Headers", "Content-Type")].

Definition createJsonResponse (data : list (string * Http.JsonValue)) (statusCode : Z)
  : Http.Response :=
{| Http.status := statusCode;
   Http.res_headers := ("Content-Type", "application/json") :: corsHeaders;
   Http.body := Some data |}.

Definition getRateLimitKey (req : Http.Request) : string :=
let ip := JS.or_else (Http.headers_get "CF-Connecting-IP" (Http.headers req)) "unknown_ip" in
RATE_LIMIT_KEY_PREFIX +:+ ip.

Definition isRateLimited (req : Http.Request) (now : Z) (w : World) : bool * World :=
let key := getRateLimitKey req in
let requestCount := KV.get (FLAG_CACHE w) now key in
let count :=
  match requestCount with
  | Some s => if JS.truthy s then JS.parseInt s else JS.Num 0
  | None => JS.Num 0
  end in
if JS.ge count RATE_LIMIT_MAX then (true, w)
else (false, kv_put key (JS.toString (JS.succ count)) RATE_LIMIT_WINDOW_SEC now w).

Definition failed (label message : string) : list (string * Http.JsonValue) :=
[("success", Http.JBool false); ("status", Http.JString label); ("message", Http.JString message)].

Definition succeeded (secureUrl : string) : list (string * Http.JsonValue) :=
[("success", Http.JBool true); ("status", Http.JString "Success");
 ("secureUrl", Http.JString secureUrl)].

(** encodeURIComponent: every byte of the UTF-8 form that is not
    unreserved is written as a percent sign and two hexadecimal digits. *)
Definition uri_byte (b : Z) : string :=
if JS.between 48 57 b || JS.between 65 90 b || JS.between 97 122 b
   || (b =? 45) || (b =? 95) || (b =? 46) || (b =? 33) || (b =? 126)
   || (b =? 42) || (b =? 39) || (b =? 40) || (b =? 41)
then String (JS.chr b) EmptyString
else String (JS.chr 37)
       (String (Http.HEX_DIGIT (b / 16)) (String (Http.HEX_DIGIT (b mod 16)) EmptyString)).

Definition encodeURIComponent (s : string) : string := JS.join "" (uri_byte <$> JS.encode s).

(** The same on a string given by its code units, all below 2048. *)
Definition encodeURIComponentUnits (l : list Z) : string :=
JS.join "" (uri_byte <$> JS.encode_units l).

(** The answer of the country-name service, as far as atomMiddleware reads
    it: the cca2 field of the first element of a non-empty array (a
    string of code units below 256), an answer of any other shape, or a
    failed request or parse. *)
Inductive LookupResult := Cca2 (code : string) | NoMatch | LookupFailure (text : string).

Section Origin.

Variable net : string -> FetchResult.
Variable names : string -> LookupResult.

(** The upper-cased parameter is read in two ways.  The test against
    A-Z, and the value returned when the test passes, use [JS.toUpperCase]:
    a string that passes is two letters A-Z, and a string with a
    character whose upper-case form lies above 255 fails the test in
    JavaScript as it does here.  The address of the lookup and the
    console line use the code units of the JavaScript value.  The code
    the service answers with is upper-cased by [JS.toUpperCase], which is
    the JavaScript value when the code passes [JS.upper_fits]. *)
Definition atomMiddleware (countryParam : string) (w : World) : option string * World :=
let normalizedInput := JS.toUpperCase (JS.trim countryParam) in
if JS.test_two_upper normalizedInput then (Some normalizedInput, w)
else
  let href := "https://restcountries.com/v3.1/name/"
                +:+ encodeURIComponentUnits (JS.toUpperCaseUnits (JS.trim countryParam)) in
  let w := emit (NetworkFetch href) w in
  match names href with
  | Cca2 code => if JS.truthy code then (Some (JS.toUpperCase code), w) else (None, w)
  | NoMatch => (None, w)
  | LookupFailure text =>
      (None, emit (ConsoleErrorUnits
                     (JS.units "AtomMiddleware: Failed to convert country '"
                        ++ JS.toUpperCaseUnits (JS.trim countryParam)
                        ++ JS.units ("' - " +:+ text))) w)
  end.

(** generateCloudinarySignature has the text of part_002. *)
Definition generateCloudinarySignature : JS.Record_ -> Env -> Completion string :=
CorsWorker.generateCloudinarySignature.

(** A status that is not ok gives null, and nothing is written to the
    console here. *)
Definition fetchSignedCloudinaryUrl (country : string) (env : Env) (now : Z) (w : World)
  : Completion (option string) * World :=
let filePath := "flags/" +:+ country +:+ ".svg" in
let expiresAt := now / 1000 + TTL_SECONDS in
let params := [("timestamp", pretty expiresAt); ("public_id", filePath)] in
let w := emit (OriginFetcherCall country) w in
match generateCloudinarySignature params env with
| Throw text => (Throw text, w)
| Return signature =>
    let href :=
      Http.URL_toString (CorsWorker.cloudinaryUrl filePath env (pretty expiresAt) signature) in
    let w := emit (NetworkFetch href) w in
    match net href with
    | NetworkFailure text => (Throw text, w)
    | HttpStatus code => if response_ok code then (Return (Some href), w) else (Return None, w)
    end
end.

(** console.error is given the label and the error; the console writes
    them with a space between. *)
Definition fetchAndCacheFlag (country : string) (env : Env) (now : Z) (w : World)
  : string * World :=
match fetchSignedCloudinaryUrl country env now w with
| (Return secureUrl, w) =>
    if negb (JS.truthy (default "" secureUrl)) then ("", w)
    else (default "" secureUrl,
          kv_put ("flag_" +:+ country) (default "" secureUrl) TTL_SECONDS now w)
| (Throw text, w) =>
    ("", emit (ConsoleError ("Error fetching flag for " +:+ country +:+ ": " +:+ text)) w)
end.

Definition handleGetFlag (req : Http.Request) (env : Env) (now : Z) (w : World)
  : Http.Response * World :=
let '(limited, w) := isRateLimited req now w in
if limited then (createJsonResponse (failed "Rate limited" "Rate limit exceeded.") 429, w)
else
  let countryParam := default "" (Http.params_get "country" (Http.searchParams req)) in
  if negb (JS.truthy countryParam)
  then (createJsonResponse (failed "User error" "Country parameter is required.") 400, w)
  else
    let '(country, w) := atomMiddleware countryParam w in
    if negb (JS.truthy (default "" country))
    then (createJsonResponse (failed "User error" "Invalid country name or code.") 400, w)
    else
      let country := default "" country in
      let cacheKey := "flag_" +:+ country in
      let cachedUrl := default "" (KV.get (FLAG_CACHE w) now cacheKey) in
      if JS.truthy cachedUrl
      then (createJsonResponse (succeeded cachedUrl) 200, w)
      else
        let '(secureUrl, w) := fetchAndCacheFlag country env now w in
        if negb (JS.truthy secureUrl)
        then (createJsonResponse (failed "Service error" "Cloudinary fetch error") 500, w)
        else (createJsonResponse (succeeded secureUrl) 200, w).

Definition handleRequest (req : Http.Request) (env : Env) (now : Z) (w : World)
  : Http.Response * World :=
if String.eqb (Http.method req) "OPTIONS"
then ({| Http.status := 204; Http.res_headers := corsHeaders; Http.body := None |}, w)
else if String.eqb (Http.pathname req) "/api/getFlag" then handleGetFlag req env now w
else (createJsonResponse (failed "Service unavailable" "Not Found") 404, w).

End Origin.

End NameWorker.

(** ** src/backend/serverCloudwareWorker.ts, third document: the express
       server with the table of ongoing fetches

    The rate-limit and validation middlewares run before the handler and
    are not part of this module.  The capacity bound of the LRU cache is
    left out: it only removes entries. *)

Module Server.

Definition CACHE_TTL : Z := 12 * 60 * 60 * 1000 - 5 * 60 * 1000.

Record CacheItem := { url : string; expiresAt : Z }.

(** An entry of the LRU cache: the item and the time it was set. *)
Record CacheSlot := { item : CacheItem; start : Z }.

(** A promise of a string, once it is settled. *)
Inductive Promise := Fulfilled (v : string) | Rejected (text : string).

Record State := {
  cache : gmap string CacheSlot;
  ongoingFetches : gmap string Promise;
  signed : list string;        (* the calls of cloudinary.v2.url, by file path *)
  logged : list string         (* logger.error *)
}.

(** cache.get(key) with allowStale false: an entry older than the ttl is
    dropped and undefined comes back. *)
Definition cache_get (key : string) (now : Z) (st : State) : option CacheItem * State :=
match cache st !! key with
| Some slot =>
    if bool_decide (now - start slot <= CACHE_TTL) then (Some (item slot), st)
    else (None, {| cache := delete key (cache st); ongoingFetches := ongoingFetches st;
                   signed := signed st; logged := logged st |})
| None => (None, st)
end.

Definition cache_set (key : string) (it : CacheItem) (now : Z) (st : State) : State :=
{| cache := <[key := {| item := it; start := now |}]> (cache st);
   ongoingFetches := ongoingFetches st; signed := signed st; logged := logged st |}.

Definition fetches_delete (key : string) (st : State) : State :=
{| cache := cache st; ongoingFetches := delete key (ongoingFetches st);
   signed := signed st; logged := logged st |}.

Definition fetches_set (key : string) (p : Promise) (st : State) : State :=
{| cache := cache st; ongoingFetches := <[key := p]> (ongoingFetches st);
   signed := signed st; logged := logged st |}.

Definition note_signed (filePath : string) (st : State) : State :=
{| cache := cache st; ongoingFetches := ongoingFetches st;
   signed := signed st ++ [filePath]; logged := logged st |}.

Definition logger_error (text : string) (st : State) : State :=
{| cache := cache st; ongoingFetches := ongoingFetches st;
   signed := signed st; logged := logged st ++ [text] |}.

Definition successResponse (secureUrl : string) : Http.Response :=
{| Http.status := 200; Http.res_headers := [];
   Http.body := Some [("success", Http.JBool true); ("message", Http.JString "Success");
                      ("secureUrl", Http.JString secureUrl)] |}.

(** catchErrorResponse logs the message and sends it. *)
Definition catchErrorResponse (message : string) (statusCode : Z) (st : State)
  : Http.Response * State :=
({| Http.status := statusCode; Http.res_headers := [];
    Http.body := Some [("success", Http.JBool false); ("message", Http.JString message)] |},
 logger_error ("Error: " +:+ message) st).

Section Cloudinary.

(** cloudinary.v2.url(filePath, {sign_url, expires_at, format}): the
    signed URL, or a thrown error. *)
Variable sign_url : string -> Z -> Completion string.

(** The async arrow function behind fetchPromise.  Its body holds no
    await: called, it runs to its end, the finally block included, and
    hands back a promise that is settled already. *)
Definition fetchPromise_body (country cacheKey : string) (now : Z) (st : State)
  : Promise * State :=
let filePath := "flags/" +:+ country +:+ ".svg" in
let expiresInSeconds := 12 * 60 * 60 in
let '(p, st) :=
  match sign_url filePath (now / 1000 + expiresInSeconds) with
  | Return signedUrl =>
      (Fulfilled signedUrl,
       cache_set cacheKey {| url := signedUrl; expiresAt := now + expiresInSeconds * 1000 |}
         now (note_signed filePath st))
  | Throw text =>
      (Rejected "Failed to generate flag URL",
       logger_error ("Failed to fetch flag for " +:+ country) (note_signed filePath st))
  end in
(p, fetches_delete cacheKey st).

(** What a call of fetchAndCacheFlag comes to: the response sent on [res]
    when there is one (none when [res] is left out), or the error the
    returned promise is rejected with. *)
Definition fetchAndCacheFlag (country cacheKey : string) (res : bool) (now : Z) (st : State)
  : Completion (option Http.Response) * State :=
match ongoingFetches st !! cacheKey with
| Some existingFetch =>
    match existingFetch with
    | Fulfilled v => (Return (if res then Some (successResponse v) else None), st)
    | Rejected text => (Throw text, st)
    end
| None =>
    let '(fetchPromise, st) := fetchPromise_body country cacheKey now st in
    let st := fetches_set cacheKey fetchPromise st in
    match fetchPromise with
    | Fulfilled signedUrl => (Return (if res then Some (successResponse signedUrl) else None), st)
    | Rejected _ =>
        if res
        then let '(r, st) := catchErrorResponse "Failed to generate flag URL" 500 st in
             (Return (Some r), st)
        else (Return None, st)
    end
end.

(** getFlagHandler, with the error handler that next(error) reaches.  The
    result is the response sent, if one is. *)
Definition getFlagHandler (country : string) (now : Z) (st : State)
  : option Http.Response * State :=
let cacheKey := "flag_" +:+ country in
match cache_get cacheKey now st with
| (Some cachedData, st) =>
    (Some (successResponse (url cachedData)),
     if bool_decide (expiresAt cachedData <= now)
     then (fetchAndCacheFlag country cacheKey false now st).2 else st)
| (None, st) =>
    match fetchAndCacheFlag country cacheKey true now st with
    | (Return r, st) => (r, st)
    | (Throw text, st) =>
        let st := logger_error ("Unhandled error: " +:+ text) st in
        let '(r, st) :=
          catchErrorResponse (if JS.truthy text then text else "Unhandled error") 500 st in
        (Some r, st)
    end
end.

End Cloudinary.

End Server.

(** ** src/unnamed/part_002, second document: the signature is the SHA-1
       digest of the sorted parameters followed by the secret *)

Module DigestWorker.

Definition TTL_SECONDS : Z := 12 * 60 * 60.

Definition sortedParams (params : JS.Record_) : string :=
JS.join "&" ((fun key => key +:+ "=" +:+ JS.get_field params key) <$> JS.sort (JS.keys params)).

Definition generateCloudinarySignature (params : JS.Record_) (env : Env) : string :=
let stringToSign := sortedParams params +:+ CLOUDINARY_API_SECRET env in
JS.hex (WebCrypto.digest WebCrypto.SHA_1 (JS.encode stringToSign)).

Definition signedUrl (country : string) (env : Env) (now : Z) : Http.URL :=
let filePath := "flags/" +:+ country +:+ ".svg" in
let expiresAt := now / 1000 + TTL_SECONDS in
let params := [("timestamp", pretty expiresAt); ("public_id", filePath)] in
let signature := generateCloudinarySignature params env in
let u := Http.URL_new ("https://res.cloudinary.com/" +:+ CLOUDINARY_CLOUD_NAME env
                        +:+ "/image/upload/" +:+ filePath) in
let u := Http.URL_set "api_key" (CLOUDINARY_API_KEY env) u in
let u := Http.URL_set "timestamp" (pretty expiresAt) u in
Http.URL_set "signature" signature u.

(** No request is sent to the origin in this document. *)
Definition fetchSignedCloudinaryUrl (country : string) (env : Env) (now : Z) : string :=
Http.URL_toString (signedUrl country env now).

End DigestWorker.

(** ** src/backend/serverCloudwareWorker.ts, second document: the express
       server without the table of ongoing fetches

    As for the third document, the rate-limit and validation middlewares
    and the capacity bound of the LRU cache are left out. *)

Module Server1.

Definition CACHE_TTL : Z := 12 * 60 * 60 * 1000.

Record State := {
  cache : gmap string Server.CacheSlot;
  signed : list string;        (* the calls of cloudinary.v2.url, by file path *)
  logged : list string         (* console.error *)
}.

Definition cache_get (key : string) (now : Z) (st : State) : option Server.CacheItem * State :=
match cache st !! key with
| Some slot =>
    if bool_decide (now - Server.start slot <= CACHE_TTL) then (Some (Server.item slot), st)
    else (None, {| cache := delete key (cache st); signed := signed st; logged := logged st |})
| None => (None, st)
end.

Definition cache_set (key : string) (it : Server.CacheItem) (now : Z) (st : State) : State :=
{| cache := <[key := {| Server.item := it; Server.start := now |}]> (cache st);
   signed := signed st; logged := logged st |}.

Definition note_signed (filePath : string) (st : State) : State :=
{| cache := cache st; signed := signed st ++ [filePath]; logged := logged st |}.

Definition console_error (text : string) (st : State) : State :=
{| cache := cache st; signed := signed st; logged := logged st ++ [text] |}.

Definition successResponse (secureUrl : string) : Http.Response :=
{| Http.status := 200; Http.res_headers := [];
   Http.body := Some [("success", Http.JBool true); ("message", Http.JString "Success");
                      ("secureUrl", Http.JString secureUrl)] |}.

Definition catchErrorResponse (error message : string) (statusCode : Z) (st : State)
  : Http.Response * State :=
({| Http.status := statusCode; Http.res_headers := [];
    Http.body := Some [("success", Http.JBool false); ("message", Http.JString message)] |},
 console_error ("Error: " +:+ error) st).

Section Cloudinary.

Variable sign_url : string -> Z -> Completion string.

(** getFlagHandler, with the global error handler that next(error)
    reaches.  [country] is the query parameter the validation has let
    through; the key and the file path are those of the code for a
    country whose upper-case form stays below 256 ([JS.upper_fits]). *)
Definition getFlagHandler (country : string) (now : Z) (st : State) : Http.Response * State :=
let cacheKey := "flag_" +:+ JS.toUpperCase country in
let '(cachedData, st) := cache_get cacheKey now st in
let fresh :=
  match cachedData with
  | Some d => if bool_decide (now < Server.expiresAt d) then Some d else None
  | None => None
  end in
match fresh with
| Some d => (successResponse (Server.url d), st)
| None =>
    let filePath := "flags/" +:+ JS.toUpperCase country +:+ ".svg" in
    let expiresInSeconds := 12 * 60 * 60 in
    match sign_url filePath (now / 1000 + expiresInSeconds) with
    | Return signedUrl =>
        (successResponse signedUrl,
         cache_set cacheKey {| Server.url := signedUrl;
                               Server.expiresAt := now + expiresInSeconds * 1000 |}
           now (note_signed filePath st))
    | Throw text =>
        catchErrorResponse text "Unhandled error" 400
          (console_error ("Unhandled error: " +:+ text) (note_signed filePath st))
    end
end.

End Cloudinary.

End Server1.

(** ** src/unnamed/part_006: the client that renders a flag as HTML *)

Module FlagHtml.

Definition API_URL : string :=
"https://cloudflare-worker.ranjitsuryawanshi952.workers.dev/api/getFlag".
Definition CACHE_TTL : Z := 60000.
Definition maxAttempts : nat := 3.

Record CacheEntry := { html : string; timestamp : Z }.

(** What a run leaves behind: the cache, and the URLs asked of axios.get. *)
Record State := { cache : gmap string CacheEntry; requests : list string }.

(** The double quote. *)
Definition quote : string := String (JS.chr 34) EmptyString.

(** String.prototype.toLowerCase on code units below 256: A-Z and the
    accented capitals 192-222 (but the multiplication sign 215) move up
    by 32. *)
Definition lower_char (c : ascii) : ascii :=
let n := JS.code c in
if JS.between 65 90 n || (JS.between 192 222 n && negb (n =? 215)) then JS.chr (n + 32) else c.

Fixpoint toLowerCase (s : string) : string :=
match s with
| EmptyString => EmptyString
| String c s' => String (lower_char c) (toLowerCase s')
end.

(** s.replace(/c/g, by) for a pattern of one literal character. *)
Fixpoint replace_all (c : ascii) (by_ : string) (s : string) : string :=
match s with
| EmptyString => EmptyString
| String x s' => (if Ascii.eqb x c then by_ else String x EmptyString) +:+ replace_all c by_ s'
end.

Definition escapeHtml (unsafe : string) : string :=
replace_all "'" "&#039;"
  (replace_all (JS.chr 34) "&quot;"
     (replace_all ">" "&gt;"
        (replace_all "<" "&lt;"
           (replace_all "&" "&amp;" unsafe)))).

(** What axios.get comes to: a response with its data (the truth of
    data.success, data.secureUrl or the empty string, and
    JSON.stringify(data)), or an axios error with its message and the
    status of the response, if there was one. *)
Inductive ApiAnswer :=
| Data (success : bool) (secureUrl : string) (json : string)
| AxiosError (message : string) (status : option Z).

Definition request (href : string) (st : State) : State :=
{| cache := cache st; requests := requests st ++ [href] |}.

Definition cache_set (key : string) (e : CacheEntry) (st : State) : State :=
{| cache := <[key := e]> (cache st); requests := requests st |}.

Section Api.

(** The answer to the n-th attempt at a URL. *)
Variable api : string -> Z -> ApiAnswer.

(** new URL(url).protocol, or nothing when the constructor throws. *)
Variable protocol : string -> option string.

Definition isSecureUrl (url : string) : bool :=
match protocol url with
| Some p => String.eqb p "https:"
| None => false
end.

(** The for loop, from [attempt] on, with [left] attempts to go. *)
Fixpoint attempts (left : nat) (attempt : Z) (trimmedCountry cacheKey : string) (now : Z)
    (lastError : option string) (st : State) : Completion string * State :=
match left with
| O => (Throw (default "Failed to fetch flag after multiple attempts." lastError), st)
| S left' =>
    let href := API_URL +:+ "?country=" +:+ NameWorker.encodeURIComponent trimmedCountry in
    let st := request href st in
    match api href attempt with
    | Data success secureUrl json =>
        if success && JS.truthy secureUrl && isSecureUrl secureUrl
        then
          let safeCountry := escapeHtml trimmedCountry in
          let html := "<img src=" +:+ quote +:+ secureUrl +:+ quote +:+ " alt=" +:+ quote
                        +:+ "Flag of " +:+ safeCountry +:+ quote +:+ " loading=" +:+ quote
                        +:+ "lazy" +:+ quote +:+ ">" in
          (Return html, cache_set cacheKey {| html := html; timestamp := now |} st)
        else
          attempts left' (attempt + 1) trimmedCountry cacheKey now
            (Some ("Attempt " +:+ pretty attempt +:+ ": Invalid API response: " +:+ json)) st
    | AxiosError message status =>
        let shown := match status with
                     | Some code => if code =? 0 then "unknown" else pretty code
                     | None => "unknown"
                     end in
        attempts left' (attempt + 1) trimmedCountry cacheKey now
          (Some ("Attempt " +:+ pretty attempt +:+ ": " +:+ message
                   +:+ " (status: " +:+ shown +:+ ")")) st
    end
end.

Definition getFlagHtml (country : string) (now : Z) (st : State) : Completion string * State :=
let trimmedCountry := JS.trim country in
if negb (JS.truthy trimmedCountry) then (Throw "Invalid country parameter", st)
else
  let cacheKey := toLowerCase trimmedCountry in
  let cached :=
    match cache st !! cacheKey with
    | Some cachedEntry =>
        if bool_decide (now - timestamp cachedEntry < CACHE_TTL) then Some cachedEntry else None
    | None => None
    end in
  match cached with
  | Some cachedEntry => (Return (html cachedEntry), st)
  | None => attempts maxAttempts 1 trimmedCountry cacheKey now None st
  end.

End Api.

End FlagHtml.

(** ** src/clients/country-flag-html-cdn/src/flag-cdn.js: the browser
       client with retries and a table of pending requests *)

Module FlagCdn.

Definition API_URL : string :=
"https://cloudflare-worker.ranjitsuryawanshi952.workers.dev/api/getFlag".
Definition TIMEOUT : Z := 5000.
Definition RETRY_COUNT : nat := 3.
Definition RETRY_DELAY : Z := 500.
Definition CACHE_TTL : Z := 3600000.

Record CacheEntry := { url : string; expiry : Z }.

Inductive Effect :=
| Request (href : string)      (* one call of fetch *)
| Sleep (ms : Z)               (* one setTimeout that is awaited *)
| ConsoleError (text : string).

(** The JSON body of a response, as far as fetchFlag reads it: the truth
    of data.success, and data.secureUrl and data.message, the empty
    string when they are missing. *)
Record Body := { success : bool; secureUrl : string; message : string }.

(** What fetchWithTimeout comes to: a response, with what json() gives
    for it, or a rejection, by the network or by the abort after the
    timeout. *)
Inductive Fetched :=
| Response (status : Z) (statusText : string) (json : Completion Body)
| Rejected (text : string).

Record State := {
  cache : gmap string CacheEntry;
  pendingRequests : gset string;   (* the keys that hold a pending promise *)
  effects : list Effect
}.

Definition effect (e : Effect) (st : State) : State :=
{| cache := cache st; pendingRequests := pendingRequests st; effects := effects st ++ [e] |}.

Definition cache_set (key : string) (e : CacheEntry) (st : State) : State :=
{| cache := <[key := e]> (cache st); pendingRequests := pendingRequests st;
   effects := effects st |}.

Definition pending_set (key : string) (st : State) : State :=
{| cache := cache st; pendingRequests := {[key]} ∪ pendingRequests st; effects := effects st |}.

Definition pending_delete (key : string) (st : State) : State :=
{| cache := cache st; pendingRequests := pendingRequests st ∖ {[key]}; effects := effects st |}.

Section Network.

(** The answer to the attempt with a given number, counted from 0. *)
Variable net : Z -> Fetched.

(** The while loop of retryableFetch from [attempt] on, with
    [retries - attempt] = [left]. *)
Fixpoint retry_from (left : nat) (attempt : Z) (href : string) (retryDelay : Z) (st : State)
  : Completion (Z * string * Completion Body) * State :=
let st := effect (Request href) st in
match net attempt with
| Response status statusText json => (Return (status, statusText, json), st)
| Rejected text =>
    match left with
    | O => (Throw text, st)
    | S left' =>
        retry_from left' (attempt + 1) href retryDelay
          (effect (Sleep (retryDelay * 2 ^ attempt)) st)
    end
end.

Definition retryableFetch (href : string) (retries : nat) (retryDelay : Z) (st : State)
  : Completion (Z * string * Completion Body) * State :=
retry_from retries 0 href retryDelay st.

(** What a call of fetchFlag hands back at once: a promise that is
    settled already, or the promise that pendingRequests holds for the
    country. *)
Inductive Handed := Settled (v : option string) | Pending (country : string).

(** The address fetchFlag asks: url.searchParams.append on a URL with no
    query, and url.toString(). *)
Definition flag_href (country : string) : string :=
Http.URL_toString (Http.URL_set "country" country (Http.URL_new API_URL)).

(** fetchFlag up to the point where it returns.  The function behind
    fetchPromise stops at its first await, inside retryableFetch, and
    pendingRequests.set runs while it waits. *)
Definition fetchFlag (country : string) (now : Z) (st : State) : Handed * State :=
if negb (JS.truthy country)
then (Settled None, effect (ConsoleError "Country code is required.") st)
else
  let cached :=
    match cache st !! country with
    | Some c => if bool_decide (now < expiry c) then Some c else None
    | None => None
    end in
  match cached with
  | Some c => (Settled (Some (url c)), st)
  | None =>
      if bool_decide (country ∈ pendingRequests st) then (Pending country, st)
      else (Pending country, pending_set country st)
  end.

(** The function behind fetchPromise from its first await to its end:
    the retries, the reading of the response, and the finally block.
    The calls of fetch are recorded here, as they are answered; [now] is
    the clock when the response is read.  The result is the value the
    pending promise is fulfilled with. *)
Definition fetchPromise (country : string) (now : Z) (st : State) : option string * State :=
let '(r, st) :=
  match retryableFetch (flag_href country) RETRY_COUNT RETRY_DELAY st with
  | (Return (status, statusText, json), st) =>
      if negb (response_ok status)
      then (None, effect (ConsoleError ("HTTP error: " +:+ pretty status +:+ " - "
                                          +:+ statusText)) st)
      else
        match json with
        | Return data =>
            if success data && JS.truthy (secureUrl data)
            then (Some (secureUrl data),
                  cache_set country {| url := secureUrl data; expiry := now + CACHE_TTL |} st)
            else (None, effect (ConsoleError ("API error: "
                     +:+ (if JS.truthy (message data) then message data
                          else "Unknown error"))) st)
        | Throw text => (None, effect (ConsoleError ("Error fetching flag: " +:+ text)) st)
        end
  | (Throw text, st) => (None, effect (ConsoleError ("Error fetching flag: " +:+ text)) st)
  end in
(r, pending_delete country st).

End Network.

End FlagCdn.

(** ** src/CountryFlag.jsx and src/src/utils/countryLookup.ts: country
       names in title case *)

Module CountryName.

(** The class \w of a regular expression without the unicode flag: A-Z,
    a-z, 0-9 and the underscore. *)
Definition is_word (c : ascii) : bool :=
let n := JS.code c in
JS.between 65 90 n || JS.between 97 122 n || JS.between 48 57 n || (n =? 95).

(** s.replace(/\b\w/g, c => c.toUpperCase()): a word character is
    replaced when no word character stands before it.  [inside] tells
    whether the character before is a word character. *)
Fixpoint capitalize_from (inside : bool) (s : string) : string :=
match s with
| EmptyString => EmptyString
| String c s' =>
    (if is_word c && negb inside then JS.upper_char c else String c EmptyString)
      +:+ capitalize_from (is_word c) s'
end.

(** formatCountryName of CountryFlag.jsx, on a string. *)
Definition formatCountryName (name : string) : string :=
capitalize_from false (FlagHtml.toLowerCase name).

Section Lookup.

(** lookup.byCountry(name): the iso2 field of the entry found, if one is. *)
Variable byCountry : string -> option string.

Definition getCountryIso2ByName (countryName : string) : option string :=
if negb (JS.truthy countryName) then None
else
  let formattedName := capitalize_from false (FlagHtml.toLowerCase (JS.trim countryName)) in
  byCountry formattedName.

End Lookup.

End CountryName.

(** ** Runs of several requests, and the inputs of the examples *)

(** The body the revisions of isRateLimited share, with the key as an
    argument. *)
Definition rate_check (key : string) (now : Z) (w : World) : bool * World :=
let requestCount := KV.get (FLAG_CACHE w) now key in
let count :=
  match requestCount with
  | Some s => if JS.truthy s then JS.parseInt s else JS.Num 0
  | None => JS.Num 0
  end in
if JS.ge count 100 then (true, w)
else (false, kv_put key (JS.toString (JS.succ count)) 900 now w).

(** One call of [f] at each of the times, in turn: the verdicts and the
    world left behind. *)
Fixpoint serve (f : Z -> World -> bool * World) (times : list Z) (w : World)
  : list bool * World :=
match times with
| [] => ([], w)
| t :: times' =>
    let '(b, w) := f t w in
    let '(bs, w) := serve f times' w in
    (b :: bs, w)
end.

Definition is_fetcher_call (e : Event) : bool :=
match e with OriginFetcherCall _ => true | _ => false end.

Definition is_network_fetch (e : Event) : bool :=
match e with NetworkFetch _ => true | _ => false end.

(** The number of calls of the origin fetcher a world has seen. *)
Definition fetcher_calls (w : World) : nat := length (List.filter is_fetcher_call (events w)).

(** The number of requests sent over the network. *)
Definition network_fetches (w : World) : nat := length (List.filter is_network_fetch (events w)).

Definition secureUrl_of (r : Http.Response) : option string :=
match Http.body r with
| Some [("success", Http.JBool true); ("secureUrl", Http.JString u)] => Some u
| _ => None
end.

(** What the theorems on the caches and the clients are stated with. *)

(** Every flag entry of the namespace holds the URL the first document
    signs for the country of its key at some time [t0], and runs out 12
    hours after [t0]. *)
Definition signed_entries (env : Env) (w : World) : Prop :=
∀ country e, FLAG_CACHE w !! ("flag_" +:+ country) = Some e →
  ∃ t0, KV.value e = Http.URL_toString (Worker.cloudinaryUrl country env t0)
        ∧ KV.expiration e = t0 + 1000 * Worker.TTL_SECONDS.


(** Two clients are counted apart by a limiter that keeps its counters
    under [key].  Their keys differ.  Whatever requests the second client
    has sent, the counter of the first is as it was, and the requests of
    the first get the answers they would have got without them.  A first
    client that finds no live counter at [t0] and sends up to 100
    requests, all within 900 seconds of [t0], has every one of them let
    through and counted under its own key, which then holds their number
    and lives 900 seconds from the last of them, while the counter of the
    second client is not touched; once the 100 are used, its next request
    within those 900 seconds is refused and writes nothing. *)
Definition counted_apart (limiter : Http.Request → Z → World → bool * World)
    (key : Http.Request → string) (req1 req2 : Http.Request) : Prop :=
key req1 ≠ key req2
∧ ∀ (ts2 : list Z) (w : World),
    let w2 := (serve (limiter req2) ts2 w).2 in
    FLAG_CACHE w2 !! key req1 = FLAG_CACHE w !! key req1
    ∧ (∀ ts1, (serve (limiter req1) ts1 w2).1 = (serve (limiter req1) ts1 w).1)
    ∧ (∀ t0 ts1,
         KV.get (FLAG_CACHE w) t0 (key req1) = None →
         Forall (λ t, t0 ≤ t < t0 + 900000) ts1 →
         (length ts1 < 100)%nat →
         let run := serve (limiter req1) (t0 :: ts1) w2 in
         run.1 = replicate (S (length ts1)) false
         ∧ FLAG_CACHE run.2 !! key req1
           = Some {| KV.value := pretty (Z.of_nat (S (length ts1)));
                     KV.expiration := List.last ts1 t0 + 900000 |}
         ∧ FLAG_CACHE run.2 !! key req2 = FLAG_CACHE w2 !! key req2
         ∧ (length ts1 = 99%nat →
            ∀ t, t0 ≤ t < t0 + 900000 → limiter req1 t run.2 = (true, run.2))).

(** One of the letters A-Z and a-z. *)
Definition is_ascii_letter (c : ascii) : bool :=
JS.between 65 90 (JS.code c) || JS.between 97 122 (JS.code c).

(** Two letters of either case, or the sharp s alone. *)
Definition accepted_country (c : string) : bool :=
match c with
| String a EmptyString => JS.code a =? 223
| String a (String b EmptyString) => is_ascii_letter a && is_ascii_letter b
| _ => false
end.

(** The request atomMiddleware sends to the country-name service. *)
Definition lookup_href (countryParam : string) : string :=
"https://restcountries.com/v3.1/name/"
  +:+ NameWorker.encodeURIComponentUnits (JS.toUpperCaseUnits (JS.trim countryParam)).

(** Every entry of the LRU cache holds an item whose expiresAt is 12
    hours after the time the entry was set. *)
Definition slots_expire_after_12h (st : Server.State) : Prop :=
∀ key slot, Server.cache st !! key = Some slot →
  Server.expiresAt (Server.item slot) = Server.start slot + 12 * 60 * 60 * 1000.

(** Every entry of the cache of the second document holds, under the key
    of a country, the URL that was signed for that country when the entry
    was set, with an expiresAt 12 hours later. *)
Definition signed_slots (sign_url : string → Z → Completion string) (st : Server1.State) : Prop :=
∀ country slot, Server1.cache st !! ("flag_" +:+ country) = Some slot →
  sign_url ("flags/" +:+ country +:+ ".svg") (Server.start slot / 1000 + 12 * 60 * 60)
    = Return (Server.url (Server.item slot))
  ∧ Server.expiresAt (Server.item slot) = Server.start slot + 12 * 60 * 60 * 1000.

(** One of the characters that open or close a tag or an attribute value:
    less than, greater than, double quote, single quote. *)
Definition is_markup (c : ascii) : bool :=
let n := JS.code c in (n =? 60) || (n =? 62) || (n =? 34) || (n =? 39).

(** The entity escapeHtml writes for one character. *)
Definition entity (c : ascii) : string :=
let n := JS.code c in
if n =? 38 then "&amp;"
else if n =? 60 then "&lt;"
else if n =? 62 then "&gt;"
else if n =? 34 then "&quot;"
else if n =? 39 then "&#039;"
else String c EmptyString.

(** The number of calls of fetch and the time slept among some effects. *)
Definition requests_sent (es : list FlagCdn.Effect) : nat :=
length (List.filter (fun e => match e with FlagCdn.Request _ => true | _ => false end) es).

Definition time_slept (es : list FlagCdn.Effect) : Z :=
fold_right (fun e acc => match e with FlagCdn.Sleep ms => ms + acc | _ => acc end) 0 es.

(** Whether the cache of the browser client holds an entry for a country
    that is still valid at a time. *)
Definition cdn_cached (country : string) (now : Z) (st : FlagCdn.State) : bool :=
match FlagCdn.cache st !! country with
| Some c => bool_decide (now < FlagCdn.expiry c)
| None => false
end.

(** Whether a text is in title case: a letter a-z starts no word, and a
    letter A-Z stands nowhere else. *)
Fixpoint title_cased_from (inside : bool) (s : string) : bool :=
match s with
| EmptyString => true
| String c s' =>
    (if CountryName.is_word c && negb inside
     then negb (JS.between 97 122 (JS.code c))
     else negb (JS.between 65 90 (JS.code c)))
    && title_cased_from (CountryName.is_word c) s'
end.

Module Sample.

Definition env : Env :=
{| CLOUDINARY_CLOUD_NAME := "demo";
   CLOUDINARY_API_KEY := "123456789012345";
   CLOUDINARY_API_SECRET := "abcd" |}.

(** The bindings with the secret left empty. *)
Definition no_secret : Env :=
{| CLOUDINARY_CLOUD_NAME := "demo";
   CLOUDINARY_API_KEY := "123456789012345";
   CLOUDINARY_API_SECRET := "" |}.

Definition empty : World := {| FLAG_CACHE := ∅; events := [] |}.

Definition get (query : list (string * string)) : Http.Request :=
{| Http.method := "GET"; Http.pathname := "/api/getFlag"; Http.searchParams := query;
   Http.headers := [("CF-Connecting-IP", "203.0.113.7"); ("User-Agent", "curl/8.5.0")] |}.

Definition get_DE : Http.Request := get [("country", "DE")].

(** A request with no country parameter. *)
Definition get_nothing : Http.Request := get [].

(** The preflight request of a browser for the flag of DE. *)
Definition preflight_DE : Http.Request :=
{| Http.method := "OPTIONS"; Http.pathname := "/api/getFlag";
   Http.searchParams := [("country", "DE")];
   Http.headers := [("CF-Connecting-IP", "203.0.113.7"); ("User-Agent", "Mozilla/5.0");
                    ("Origin", "https://example.org");
                    ("Access-Control-Request-Method", "GET")] |}.

(** A request from the same address that carries no User-Agent. *)
Definition get_no_agent : Http.Request :=
{| Http.method := "GET"; Http.pathname := "/api/getFlag";
   Http.searchParams := [("country", "DE")];
   Http.headers := [("CF-Connecting-IP", "203.0.113.7")] |}.

Definition not_found (_ : string) : FetchResult := HttpStatus 404.
Definition unreachable (_ : string) : FetchResult := NetworkFailure "TypeError: fetch failed".
Definition reachable (_ : string) : FetchResult := HttpStatus 200.

(** cloudinary.v2.url that answers, and one that throws. *)
Definition sign_ok (filePath : string) (expires_at : Z) : Completion string :=
Return ("https://res.cloudinary.com/demo/image/upload/" +:+ filePath +:+ "?e=" +:+ pretty expires_at).

Definition sign_fails (filePath : string) (expires_at : Z) : Completion string :=
Throw "Must supply cloud_name".

Definition start : Server.State :=
{| Server.cache := ∅; Server.ongoingFetches := ∅; Server.signed := []; Server.logged := [] |}.

(** A request by name, a name service that knows the name, and one that
    cannot be reached. *)
Definition get_Germany : Http.Request := get [("country", "Germany")].

Definition names_de (_ : string) : NameWorker.LookupResult := NameWorker.Cca2 "de".
Definition names_down (_ : string) : NameWorker.LookupResult :=
NameWorker.LookupFailure "TypeError: fetch failed".

(** A namespace that holds the flag of DE until 12 hours after 0. *)
Definition cached_DE : World :=
{| FLAG_CACHE := {[ "flag_DE" := {| KV.value := "https://res.cloudinary.com/demo/DE";
                                    KV.expiration := 43200000 |} ]};
   events := [] |}.

Definition start1 : Server1.State :=
{| Server1.cache := ∅; Server1.signed := []; Server1.logged := [] |}.

(** The clients: an API that answers with a flag, and a URL parser that
    finds https everywhere. *)
Definition api_ok (_ : string) (_ : Z) : FlagHtml.ApiAnswer :=
FlagHtml.Data true "https://res.cloudinary.com/demo/IN" "{}".

Definition https_only (_ : string) : option string := Some "https:".

(** The HTML getFlagHtml builds for India from the answer of [api_ok]. *)
Definition img_India : string :=
"<img src=" +:+ FlagHtml.quote +:+ "https://res.cloudinary.com/demo/IN" +:+ FlagHtml.quote
  +:+ " alt=" +:+ FlagHtml.quote +:+ "Flag of India" +:+ FlagHtml.quote
  +:+ " loading=" +:+ FlagHtml.quote +:+ "lazy" +:+ FlagHtml.quote +:+ ">".

Definition html_start : FlagHtml.State := {| FlagHtml.cache := ∅; FlagHtml.requests := [] |}.

Definition cdn_start : FlagCdn.State :=
{| FlagCdn.cache := ∅; FlagCdn.pendingRequests := ∅; FlagCdn.effects := [] |}.

(** A network that fails twice and then answers 503. *)
Definition net_flaky (attempt : Z) : FlagCdn.Fetched :=
if attempt <? 2 then FlagCdn.Rejected "TypeError: Failed to fetch"
else FlagCdn.Response 503 "Service Unavailable" (Throw "SyntaxError").

End Sample.

(** * Properties *)

(** ** Numbers: printing and reading back *)

Lemma digit_val_pretty (m : N) :
  (m < 10)%N → JS.digit_val 10 (pretty_N_char m) = Some (Z.of_N m).
Proof.
  intros Hm.
  assert (m = 0 ∨ m = 1 ∨ m = 2 ∨ m = 3 ∨ m = 4 ∨ m = 5 ∨ m = 6 ∨ m = 7 ∨ m = 8 ∨ m = 9)%N
    as Hcases by lia.
  destruct_or!; subst m; reflexivity.
Qed.

Lemma parse_digits_pretty_go (x : N) (s : string) :
  (0 < x)%N →
  JS.parse_digits 10 (pretty_N_go x s) None = JS.parse_digits 10 s (Some (Z.of_N x)).
Proof.
  revert s. induction (N.lt_wf_0 x) as [x _ IH]; intros s Hx.
  rewrite pretty_N_go_step by done.
  assert (Hmod : (x `mod` 10 < 10)%N) by (apply N.mod_lt; lia).
  pose proof (N.div_mod x 10 ltac:(done)) as Hdm.
  destruct (decide (x `div` 10 = 0)%N) as [Hz|Hnz].
  - rewrite Hz, pretty_N_go_0. simpl.
    rewrite digit_val_pretty by done.
    do 2 f_equal. rewrite Hz in Hdm.
    clear -Hdm. generalize dependent (x `mod` 10)%N. intros; lia.
  - rewrite IH; [|apply N.div_lt; lia|by apply N.neq_0_lt_0].
    simpl. rewrite digit_val_pretty by done. simpl.
    do 2 f_equal. clear -Hdm. generalize dependent (x `mod` 10)%N.
    generalize dependent (x `div` 10)%N. intros; lia.
Qed.

(** The first character of a printed positive number is one of 1-9. *)
Lemma pretty_go_head (x : N) (s : string) :
  (0 < x)%N →
  ∃ c r, pretty_N_go x s = String c r ∧ JS.between 49 57 (JS.code c) = true.
Proof.
  revert s. induction (N.lt_wf_0 x) as [x _ IH]; intros s Hx.
  rewrite pretty_N_go_step by done.
  destruct (decide (x `div` 10 = 0)%N) as [Hz|Hnz].
  - rewrite Hz, pretty_N_go_0. eexists _, _. split; [done|].
    apply N.div_small_iff in Hz; [|lia].
    rewrite N.mod_small by done.
    assert (x = 1 ∨ x = 2 ∨ x = 3 ∨ x = 4 ∨ x = 5 ∨ x = 6 ∨ x = 7 ∨ x = 8 ∨ x = 9)%N
      as Hcases by lia.
    destruct_or!; subst x; reflexivity.
  - apply IH; [apply N.div_lt; lia|by apply N.neq_0_lt_0].
Qed.

Lemma parseInt_head (c : ascii) (r : string) :
  JS.between 49 57 (JS.code c) = true →
  JS.parseInt (String c r) =
  match JS.parse_digits 10 (String c r) None with
  | Some v => JS.Num (1 * v)
  | None => JS.NaN
  end.
Proof.
  intros Hc. unfold JS.between in Hc. apply andb_true_iff in Hc as [H1 H2].
  apply Z.leb_le in H1, H2.
  unfold JS.parseInt. cbn [JS.trimStart].
  assert (JS.is_white c = false) as ->.
  { unfold JS.is_white, JS.between.
    repeat (apply orb_false_iff; split); rewrite ?andb_false_iff, ?Z.leb_gt, ?Z.eqb_neq; lia. }
  assert ((JS.code c =? 45) = false) as -> by (apply Z.eqb_neq; lia).
  assert ((JS.code c =? 43) = false) as -> by (apply Z.eqb_neq; lia).
  assert (JS.strip_0x (String c r) = None) as ->; [|done].
  unfold JS.strip_0x. destruct r; [done|].
  assert ((JS.code c =? 48) = false) as -> by (apply Z.eqb_neq; lia). done.
Qed.

Lemma parseInt_pretty (z : Z) : 0 ≤ z → JS.parseInt (pretty z) = JS.Num z.
Proof.
  intros Hz. destruct z as [|p|p]; [reflexivity| |lia].
  change (pretty (Z.pos p)) with (pretty_N_go (N.pos p) "").
  destruct (pretty_go_head (N.pos p) "") as (c & r & Heq & Hc); [lia|].
  rewrite Heq, parseInt_head by done. rewrite <-Heq.
  rewrite parse_digits_pretty_go by lia. simpl. done.
Qed.

Lemma pretty_truthy (z : Z) : 0 ≤ z → JS.truthy (pretty z) = true.
Proof.
  intros Hz. destruct z as [|p|p]; [reflexivity| |lia].
  change (pretty (Z.pos p)) with (pretty_N_go (N.pos p) "").
  destruct (pretty_go_head (N.pos p) "") as (c & r & -> & _); [lia|]. done.
Qed.

(** ** The KV namespace *)

Lemma kv_get_put_eq (kv : gmap string KV.Entry) (now t : Z) (key v : string) (ttl : Z) :
  KV.get (KV.put kv now key v ttl) t key = if bool_decide (t < now + 1000 * ttl) then Some v else None.
Proof. unfold KV.get, KV.put. by rewrite lookup_insert_eq. Qed.

Lemma kv_get_put_ne (kv : gmap string KV.Entry) (now t : Z) (key key' v : string) (ttl : Z) :
  key ≠ key' → KV.get (KV.put kv now key v ttl) t key' = KV.get kv t key'.
Proof. intros Hne. unfold KV.get, KV.put. by rewrite lookup_insert_ne. Qed.

(** A key that is read as absent stays absent at every later time, as
    long as nothing is written. *)
Lemma kv_get_none_later (kv : gmap string KV.Entry) (now t : Z) (key : string) :
  KV.get kv now key = None → now ≤ t → KV.get kv t key = None.
Proof.
  unfold KV.get. destruct (kv !! key) as [e|]; [|done].
  repeat case_bool_decide; try done; lia.
Qed.

Lemma kv_get_lookup (kv1 kv2 : gmap string KV.Entry) (t : Z) (key : string) :
  kv1 !! key = kv2 !! key → KV.get kv1 t key = KV.get kv2 t key.
Proof. unfold KV.get. by intros ->. Qed.

(** ** The rate limiter *)

Lemma rate_check_fresh (key : string) (now : Z) (w : World) :
  KV.get (FLAG_CACHE w) now key = None →
  rate_check key now w = (false, kv_put key "1" 900 now w).
Proof. intros H. unfold rate_check. by rewrite H. Qed.

Lemma rate_check_live (key : string) (now : Z) (w : World) (n e : Z) :
  FLAG_CACHE w !! key = Some {| KV.value := pretty n; KV.expiration := e |} →
  now < e → 0 ≤ n →
  rate_check key now w =
    if bool_decide (100 ≤ n) then (true, w) else (false, kv_put key (pretty (n + 1)) 900 now w).
Proof.
  intros Hk Hlive Hn. unfold rate_check, KV.get. rewrite Hk. simpl.
  rewrite bool_decide_true by done.
  rewrite pretty_truthy, parseInt_pretty by done. simpl.
  case_bool_decide.
  - by rewrite (proj2 (Z.leb_le 100 n)).
  - by rewrite (proj2 (Z.leb_gt 100 n)) by lia.
Qed.

Lemma serve_ext (f g : Z → World → bool * World) (ts : list Z) (w : World) :
  (∀ t w, f t w = g t w) → serve f ts w = serve g ts w.
Proof.
  intros Hfg. revert w. induction ts as [|t ts IH]; intros w; [done|].
  simpl. rewrite Hfg. destruct (g t w) as [b w1]. by rewrite IH.
Qed.

(** Requests that all fall before the counter runs out, and do not take
    it past 100: every one is let through, the counter climbs by one each
    time, and its lifetime runs from the last of them. *)
Lemma serve_live (key : string) (t0 : Z) (ts : list Z) (w : World) (n e : Z) :
  FLAG_CACHE w !! key = Some {| KV.value := pretty n; KV.expiration := e |} →
  0 ≤ n → t0 + 900000 ≤ e →
  Forall (λ t, t0 ≤ t < t0 + 900000) ts →
  n + Z.of_nat (length ts) ≤ 100 →
  ∃ w', serve (rate_check key) ts w = (replicate (length ts) false, w')
    ∧ FLAG_CACHE w' = <[key := {| KV.value := pretty (n + Z.of_nat (length ts));
                                  KV.expiration := default e ((λ t, t + 900000) <$> last ts) |}]>
                        (FLAG_CACHE w)
    ∧ events w' = events w.
Proof.
  revert w n e. induction ts as [|t ts IH]; intros w n e Hk Hn He Hts Hlen.
  - exists w. simpl. rewrite Z.add_0_r. split_and!; [done| |done].
    by rewrite insert_id.
  - apply Forall_cons in Hts as [Ht Hts]. simpl in Hlen.
    simpl. rewrite (rate_check_live key t w n e) by (done || lia).
    rewrite bool_decide_false by lia.
    destruct (IH (kv_put key (pretty (n + 1)) 900 t w) (n + 1) (t + 1000 * 900))
      as (w' & Hrun & Hkv & Hev); [by apply lookup_insert_eq|lia|lia|done|lia|].
    rewrite Hrun. exists w'. split_and!; [done| |done].
    rewrite Hkv. simpl. unfold KV.put. rewrite insert_insert_eq.
    f_equal. f_equal; [f_equal; lia|].
    destruct ts as [|t' ts]; [simpl; lia|].
    change (last (t :: t' :: ts)) with (last (t' :: ts)).
    destruct (last (t' :: ts)) eqn:Hl; [done|by apply last_None in Hl].
Qed.

(** The first request finds no counter; the others come within 900
    seconds of it. *)
Lemma serve_fresh_window (key : string) (t0 : Z) (ts : list Z) (w : World) :
  KV.get (FLAG_CACHE w) t0 key = None →
  Forall (λ t, t0 ≤ t < t0 + 900000) ts →
  (length ts < 100)%nat →
  ∃ w', serve (rate_check key) (t0 :: ts) w = (replicate (S (length ts)) false, w')
    ∧ FLAG_CACHE w' = <[key := {| KV.value := pretty (Z.of_nat (S (length ts)));
                                  KV.expiration := List.last ts t0 + 900000 |}]> (FLAG_CACHE w)
    ∧ events w' = events w.
Proof.
  intros Hnone Hts Hlen.
  simpl. rewrite rate_check_fresh by done.
  destruct (serve_live key t0 ts (kv_put key "1" 900 t0 w) 1 (t0 + 1000 * 900))
    as (w' & Hrun & Hkv & Hev); [by apply lookup_insert_eq|lia|lia|done|lia|].
  rewrite Hrun. exists w'. split_and!; [done| |done].
  rewrite Hkv. simpl. unfold KV.put. rewrite insert_insert_eq.
  f_equal. f_equal; [f_equal; lia|].
  clear. revert t0. induction ts as [|t ts IH]; intros t0; [simpl; lia|].
  destruct ts as [|t' ts]; [simpl; lia|].
  change (last (t :: t' :: ts)) with (last (t' :: ts)).
  change (List.last (t :: t' :: ts) t0) with (List.last (t' :: ts) t0).
  rewrite <-(IH t0). clear IH.
  destruct (last (t' :: ts)) eqn:Hl; simpl; [done|].
  by apply last_None in Hl.
Qed.

Lemma worker_isRateLimited_check (req : Http.Request) (t : Z) (w : World) :
  Worker.isRateLimited req t w = rate_check (Worker.rateLimitKey req) t w.
Proof. reflexivity. Qed.

Lemma cors_isRateLimited_check (req : Http.Request) (t : Z) (w : World) :
  CorsWorker.isRateLimited req t w = rate_check (CorsWorker.getRateLimitKey req) t w.
Proof. reflexivity. Qed.

Lemma last_in_window (t0 : Z) (ts : list Z) :
  Forall (λ t, t0 ≤ t < t0 + 900000) ts → t0 ≤ List.last ts t0 < t0 + 900000.
Proof.
  induction ts as [|t ts IH]; intros Hts; [simpl; lia|].
  apply Forall_cons in Hts as [Ht Hts].
  destruct ts as [|t' ts]; [simpl; lia|].
  change (List.last (t :: t' :: ts) t0) with (List.last (t' :: ts) t0). by apply IH.
Qed.




(** ** Counters of different clients *)

Lemma rate_check_other (key key' : string) (t : Z) (w : World) :
  key ≠ key' →
  FLAG_CACHE (rate_check key t w).2 !! key' = FLAG_CACHE w !! key'.
Proof.
  intros Hne. unfold rate_check.
  destruct (JS.ge _ _); [done|]. simpl. unfold KV.put. by rewrite lookup_insert_ne.
Qed.

Lemma serve_other (key key' : string) (ts : list Z) (w : World) :
  key ≠ key' →
  FLAG_CACHE (serve (rate_check key) ts w).2 !! key' = FLAG_CACHE w !! key'.
Proof.
  intros Hne. revert w. induction ts as [|t ts IH]; intros w; [done|].
  simpl. destruct (rate_check key t w) as [b w1] eqn:Hstep.
  specialize (IH w1). destruct (serve (rate_check key) ts w1) as [bs w2].
  simpl in *. rewrite IH.
  change w1 with (b, w1).2. rewrite <-Hstep. by apply rate_check_other.
Qed.

(** What rate_check answers depends on the entry of its own key only. *)
Lemma rate_check_verdict (key : string) (t : Z) (w1 w2 : World) :
  FLAG_CACHE w1 !! key = FLAG_CACHE w2 !! key →
  (rate_check key t w1).1 = (rate_check key t w2).1.
Proof.
  intros Heq. unfold rate_check, KV.get. rewrite Heq.
  by destruct (JS.ge _ _).
Qed.

Lemma rate_check_entry (key : string) (t : Z) (w1 w2 : World) :
  FLAG_CACHE w1 !! key = FLAG_CACHE w2 !! key →
  FLAG_CACHE (rate_check key t w1).2 !! key = FLAG_CACHE (rate_check key t w2).2 !! key.
Proof.
  intros Heq. unfold rate_check, KV.get. rewrite Heq.
  destruct (JS.ge _ _); [done|]. simpl. unfold KV.put. by rewrite !lookup_insert_eq.
Qed.

Lemma serve_verdicts (key : string) (ts : list Z) (w1 w2 : World) :
  FLAG_CACHE w1 !! key = FLAG_CACHE w2 !! key →
  (serve (rate_check key) ts w1).1 = (serve (rate_check key) ts w2).1.
Proof.
  revert w1 w2. induction ts as [|t ts IH]; intros w1 w2 Heq; [done|].
  simpl.
  pose proof (rate_check_verdict key t w1 w2 Heq) as Hv.
  pose proof (rate_check_entry key t w1 w2 Heq) as He.
  destruct (rate_check key t w1) as [b1 u1], (rate_check key t w2) as [b2 u2].
  simpl in *. subst b2. specialize (IH u1 u2 He).
  destruct (serve (rate_check key) ts u1), (serve (rate_check key) ts u2).
  simpl in *. by subst.
Qed.

(** A prefix with no underscore in it is read back from the key. *)
Lemma occurs_cons (c c' : ascii) (s : string) :
  JS.occurs c (String c' s) = if Ascii.eqb c c' then true else JS.occurs c s.
Proof. reflexivity. Qed.

Lemma underscore_split (a1 a2 b1 b2 : string) :
  JS.occurs "_" a1 = false → JS.occurs "_" a2 = false →
  a1 +:+ "_" +:+ b1 = a2 +:+ "_" +:+ b2 → a1 = a2 ∧ b1 = b2.
Proof.
  revert a2. induction a1 as [|c a1 IH]; intros [|c' a2] H1 H2 Heq;
    rewrite ?occurs_cons in *; simpl in Heq.
  - by injection Heq as Heq.
  - injection Heq as Hc _. rewrite <-Hc, Ascii.eqb_refl in H2. done.
  - injection Heq as Hc _. rewrite Hc, Ascii.eqb_refl in H1. done.
  - destruct (Ascii.eqb "_" c) eqn:Hc; [done|].
    destruct (Ascii.eqb "_" c') eqn:Hc'; [done|].
    injection Heq as Hcc Heq. destruct (IH a2 H1 H2 Heq) as [Ha Hb].
    by rewrite Hcc, Ha, Hb.
Qed.

(** A limiter whose body is [rate_check] under the key of the request
    counts two clients with different keys apart. *)
Lemma rate_check_counted_apart (limiter : Http.Request → Z → World → bool * World)
    (key : Http.Request → string) (req1 req2 : Http.Request) :
  (∀ req t w, limiter req t w = rate_check (key req) t w) →
  key req1 ≠ key req2 →
  counted_apart limiter key req1 req2.
Proof.
  intros Hcheck Hne. split; [done|]. intros ts2 w w2.
  assert (FLAG_CACHE w2 !! key req1 = FLAG_CACHE w !! key req1) as Hsame.
  { unfold w2. rewrite (serve_ext _ (rate_check (key req2))) by apply Hcheck.
    apply serve_other. congruence. }
  assert (∀ ts1, (serve (limiter req1) ts1 w2).1 = (serve (limiter req1) ts1 w).1) as Hverdicts.
  { intros ts1.
    rewrite (serve_ext (limiter req1) (rate_check (key req1)) ts1 w2) by apply Hcheck.
    rewrite (serve_ext (limiter req1) (rate_check (key req1)) ts1 w) by apply Hcheck.
    by apply serve_verdicts. }
  split_and!; [done|done|].
  intros t0 ts1 Hnone Hts Hlen run.
  assert (KV.get (FLAG_CACHE w2) t0 (key req1) = None) as Hnone2.
  { rewrite <-Hnone. by apply kv_get_lookup. }
  destruct (serve_fresh_window (key req1) t0 ts1 w2 Hnone2 Hts Hlen) as (w' & Hrun & Hkv & _).
  assert (run = (replicate (S (length ts1)) false, w')) as ->.
  { unfold run. rewrite <-Hrun. apply serve_ext, Hcheck. }
  cbn [fst snd].
  assert (FLAG_CACHE w' !! key req1
          = Some {| KV.value := pretty (Z.of_nat (S (length ts1)));
                    KV.expiration := List.last ts1 t0 + 900000 |}) as Hcounter.
  { rewrite Hkv. apply lookup_insert_eq. }
  split_and!; [done|done| |].
  - rewrite Hkv. by apply lookup_insert_ne.
  - intros H99 t Ht. pose proof (last_in_window t0 ts1 Hts) as Hlast.
    rewrite Hcheck, (rate_check_live _ t w' _ _ Hcounter) by lia.
    by rewrite bool_decide_true by lia.
Qed.

(** C10, as the code has it.  The counter key is rl_, the client address,
    an underscore and the User-Agent, with a literal for a header that is
    absent: the word unknown for either header in the first document of
    serverCloudwareWorker.ts, unknown_ip and unknown_ua in part_002.  In
    both, two requests with the same address and different User-Agent
    values (after that substitution) are counted apart: their keys
    differ; whatever the one client sends, the counter of the other is
    not touched and its requests get the same answers; each request that
    is let through is counted under the key of its own client, which has
    its own 100 requests in the window and is refused after them.  In
    the first document, addresses that hold no underscore are read back
    from the key together with the User-Agent. *)
Theorem separate_counters_per_user_agent (req1 req2 : Http.Request) :
  let ip absent r := JS.or_else (Http.headers_get "CF-Connecting-IP" (Http.headers r)) absent in
  let ua absent r := JS.or_else (Http.headers_get "User-Agent" (Http.headers r)) absent in
  (Worker.rateLimitKey req1 = "rl_" +:+ ip "unknown" req1 +:+ "_" +:+ ua "unknown" req1
   ∧ (Http.headers_get "User-Agent" (Http.headers req1) = None → ua "unknown" req1 = "unknown")
   ∧ (Http.headers_get "CF-Connecting-IP" (Http.headers req1) = None →
      ip "unknown" req1 = "unknown")
   ∧ (JS.occurs "_" (ip "unknown" req1) = false → JS.occurs "_" (ip "unknown" req2) = false →
      Worker.rateLimitKey req1 = Worker.rateLimitKey req2 →
      ip "unknown" req1 = ip "unknown" req2 ∧ ua "unknown" req1 = ua "unknown" req2)
   ∧ (ip "unknown" req1 = ip "unknown" req2 → ua "unknown" req1 ≠ ua "unknown" req2 →
      counted_apart Worker.isRateLimited Worker.rateLimitKey req1 req2))
  ∧ (CorsWorker.getRateLimitKey req1
     = "rl_" +:+ ip "unknown_ip" req1 +:+ "_" +:+ ua "unknown_ua" req1
     ∧ (Http.headers_get "User-Agent" (Http.headers req1) = None →
        ua "unknown_ua" req1 = "unknown_ua")
     ∧ (Http.headers_get "CF-Connecting-IP" (Http.headers req1) = None →
        ip "unknown_ip" req1 = "unknown_ip")
     ∧ (ip "unknown_ip" req1 = ip "unknown_ip" req2 →
        ua "unknown_ua" req1 ≠ ua "unknown_ua" req2 →
        counted_apart CorsWorker.isRateLimited CorsWorker.getRateLimitKey req1 req2)).
Proof.
  intros ip ua. split; split_and!.
  - reflexivity.
  - unfold ua. by intros ->.
  - unfold ip. by intros ->.
  - intros H1 H2 Heq. unfold Worker.rateLimitKey in Heq.
    fold (ip "unknown" req1) (ip "unknown" req2) (ua "unknown" req1) (ua "unknown" req2) in Heq.
    apply (inj (String.app _)) in Heq. by apply underscore_split.
  - intros Hip Hua. apply rate_check_counted_apart; [apply worker_isRateLimited_check|].
    unfold Worker.rateLimitKey.
    fold (ip "unknown" req1) (ip "unknown" req2) (ua "unknown" req1) (ua "unknown" req2).
    rewrite Hip. intros Heq. apply Hua.
    by repeat (apply (inj (String.app _)) in Heq).
  - reflexivity.
  - unfold ua. by intros ->.
  - unfold ip. by intros ->.
  - intros Hip Hua. apply rate_check_counted_apart; [apply cors_isRateLimited_check|].
    unfold CorsWorker.getRateLimitKey.
    fold (ip "unknown_ip" req1) (ip "unknown_ip" req2)
         (ua "unknown_ua" req1) (ua "unknown_ua" req2).
    rewrite Hip. intros Heq. apply Hua.
    by repeat (apply (inj (String.app _)) in Heq).
Qed.

Lemma separate_counters_per_user_agent_witness :
  counted_apart CorsWorker.isRateLimited CorsWorker.getRateLimitKey
    Sample.get_DE Sample.get_no_agent.
Proof.
  refine (proj2 (proj2 (proj2 (proj2
            (separate_counters_per_user_agent Sample.get_DE Sample.get_no_agent)))) _ _).
  - reflexivity.
  - vm_compute. discriminate.
Defined.

(** C10, as the specification has it, fails on part_002.  A request with
    an address and no User-Agent gets the key that ends in unknown_ua,
    not the key the word unknown would give.  A client that sends no
    User-Agent and a client at the same address whose User-Agent is the
    word unknown are therefore counted apart in part_002, and share one
    counter in the first document of serverCloudwareWorker.ts. *)
Lemma unknown_literal_counterexample :
  let named :=
    {| Http.method := "GET"; Http.pathname := "/api/getFlag";
       Http.searchParams := [("country", "DE")];
       Http.headers := [("CF-Connecting-IP", "203.0.113.7"); ("User-Agent", "unknown")] |} in
  Http.headers_get "User-Agent" (Http.headers Sample.get_no_agent) = None
  ∧ CorsWorker.getRateLimitKey Sample.get_no_agent = "rl_203.0.113.7_unknown_ua"
  ∧ CorsWorker.getRateLimitKey Sample.get_no_agent
    ≠ "rl_" +:+ "203.0.113.7" +:+ "_" +:+ "unknown"
  ∧ CorsWorker.getRateLimitKey Sample.get_no_agent ≠ CorsWorker.getRateLimitKey named
  ∧ Worker.rateLimitKey Sample.get_no_agent = Worker.rateLimitKey named.
Proof. split_and!; by vm_compute. Qed.

(** ** The signature generator *)

Lemma get_field_elem (o : JS.Record_) (k v : string) :
  NoDup (JS.keys o) → (k, v) ∈ o → JS.get_field o k = v.
Proof.
  unfold JS.keys. induction o as [|[k' v'] o IH]; intros Hnd Hin.
  - by apply elem_of_nil in Hin.
  - rewrite fmap_cons in Hnd. apply NoDup_cons in Hnd as [Hk' Hnd].
    simpl. destruct (String.eqb_spec k' k) as [->|Hne].
    + apply elem_of_cons in Hin as [Heq|Hin]; [congruence|].
      exfalso. apply Hk'. apply list_elem_of_fmap. by exists (k, v).
    + apply elem_of_cons in Hin as [Heq|Hin]; [congruence|]. by apply IH.
Qed.

Lemma get_field_perm (o1 o2 : JS.Record_) (k : string) :
  NoDup (JS.keys o1) → o1 ≡ₚ o2 → k ∈ JS.keys o1 → JS.get_field o1 k = JS.get_field o2 k.
Proof.
  intros Hnd Hperm Hk.
  apply list_elem_of_fmap in Hk as ([k' v] & -> & Hin). simpl.
  rewrite (get_field_elem o1 k' v) by done.
  symmetry. apply get_field_elem.
  - unfold JS.keys. by rewrite <-Hperm.
  - by rewrite <-Hperm.
Qed.

Lemma sort_perm (l1 l2 : list string) : l1 ≡ₚ l2 → JS.sort l1 = JS.sort l2.
Proof.
  intros Hperm. unfold JS.sort.
  apply (Sorted_unique String.le); [apply (Sorted_merge_sort String.le)..|].
  by rewrite !merge_sort_Permutation.
Qed.

Lemma queryString_perm (params1 params2 : JS.Record_) :
  NoDup (JS.keys params1) → params1 ≡ₚ params2 →
  CorsWorker.queryString params1 = CorsWorker.queryString params2.
Proof.
  intros Hnd Hperm. unfold CorsWorker.queryString.
  assert (JS.keys params1 ≡ₚ JS.keys params2) as Hkeys by (unfold JS.keys; by rewrite Hperm).
  rewrite <-(sort_perm _ _ Hkeys). f_equal.
  apply list_fmap_ext. intros i k Hi.
  rewrite (get_field_perm params1 params2 k); [done..|].
  apply list_elem_of_lookup_2 in Hi.
  unfold JS.sort in Hi. by rewrite merge_sort_Permutation in Hi.
Qed.

(** The pairs of a record in the order of its sorted keys. *)
Lemma sorted_pairs (params : JS.Record_) :
  NoDup (JS.keys params) →
  let sorted := (λ k, (k, JS.get_field params k)) <$> JS.sort (JS.keys params) in
  sorted ≡ₚ params ∧ Sorted String.le (JS.keys sorted)
  ∧ CorsWorker.queryString params = JS.join "&" ((λ p, p.1 +:+ "=" +:+ p.2) <$> sorted).
Proof.
  intros Hnd sorted.
  assert (JS.keys sorted = JS.sort (JS.keys params)) as Hkeys.
  { unfold sorted, JS.keys. rewrite <-list_fmap_compose.
    rewrite <-(list_fmap_id (JS.sort _)) at 2. by apply list_fmap_ext. }
  assert (JS.sort (JS.keys params) ≡ₚ JS.keys params) as Hsp
    by apply merge_sort_Permutation.
  split_and!.
  - apply NoDup_Permutation.
    + apply (NoDup_fmap_1 fst). fold (JS.keys sorted). by rewrite Hkeys, Hsp.
    + by apply (NoDup_fmap_1 fst).
    + intros [k v]. split.
      * intros Hin. apply list_elem_of_fmap in Hin as (k' & [= -> ->] & Hk').
        rewrite Hsp in Hk'. apply list_elem_of_fmap in Hk' as ([k0 v0] & -> & Hin).
        simpl. by rewrite (get_field_elem params k0 v0).
      * intros Hin. apply list_elem_of_fmap. exists k. split.
        -- by rewrite (get_field_elem params k v).
        -- rewrite Hsp. apply list_elem_of_fmap. by exists (k, v).
  - rewrite Hkeys. apply (Sorted_merge_sort String.le).
  - unfold CorsWorker.queryString, sorted. by rewrite <-list_fmap_compose.
Qed.

(** C8.  The signature depends on the pairs of the parameter record and
    on the secret, not on the order the pairs were put in: the pairs are
    taken in the ascending order of their keys, written key=value and
    joined by an ampersand, so that every rearrangement of a record signs
    the same string and gets the same signature. *)
Theorem signature_independent_of_insertion_order (params1 params2 : JS.Record_) (env : Env) :
  NoDup (JS.keys params1) → params1 ≡ₚ params2 →
  CorsWorker.generateCloudinarySignature params1 env
    = CorsWorker.generateCloudinarySignature params2 env
  ∧ ∃ sorted, sorted ≡ₚ params1 ∧ Sorted String.le (JS.keys sorted)
      ∧ CorsWorker.queryString params1 = JS.join "&" ((λ p, p.1 +:+ "=" +:+ p.2) <$> sorted)
      ∧ CorsWorker.queryString params2 = JS.join "&" ((λ p, p.1 +:+ "=" +:+ p.2) <$> sorted).
Proof.
  intros Hnd Hperm.
  pose proof (queryString_perm params1 params2 Hnd Hperm) as Hq.
  split.
  - unfold CorsWorker.generateCloudinarySignature. by rewrite Hq.
  - destruct (sorted_pairs params1 Hnd) as (H1 & H2 & H3).
    eexists. split_and!; [exact H1|exact H2|exact H3|by rewrite <-Hq].
Qed.

Lemma signature_independent_of_insertion_order_witness :
  CorsWorker.generateCloudinarySignature
    [("timestamp", "43200"); ("public_id", "flags/DE.svg")] Sample.env
  = CorsWorker.generateCloudinarySignature
      [("public_id", "flags/DE.svg"); ("timestamp", "43200")] Sample.env.
Proof.
  refine (proj1 (signature_independent_of_insertion_order
    [("timestamp", "43200"); ("public_id", "flags/DE.svg")]
    [("public_id", "flags/DE.svg"); ("timestamp", "43200")] Sample.env _ _)).
  - apply (bool_decide_unpack _). by vm_compute.
  - apply perm_swap.
Defined.

Example signature_sample :
  CorsWorker.queryString [("timestamp", "43200"); ("public_id", "flags/DE.svg")]
  = "public_id=flags/DE.svg&timestamp=43200"
  ∧ CorsWorker.generateCloudinarySignature
      [("timestamp", "43200"); ("public_id", "flags/DE.svg")] Sample.env
    = Return "4abf31e9cfef15c34bcdc658577ba286d57b7e1e".
Proof. by vm_compute. Qed.

(** ** Cross-origin headers *)

Ltac member := solve [repeat constructor].

Ltac json_response := eexists _, _; split; [reflexivity|member].

Lemma cors_handleGetFlag_response (net : string → FetchResult)
    (req : Http.Request) (env : Env) (now : Z) (w : World) :
  ∃ data code, (CorsWorker.handleGetFlag net req env now w).1
                 = CorsWorker.createJsonResponse data code
               ∧ code ∈ [200; 400; 429; 500].
Proof.
  unfold CorsWorker.handleGetFlag.
  destruct (CorsWorker.isRateLimited req now w) as [[] w1]; [json_response|].
  destruct (CorsWorker.validateQueryParams req); [json_response|].
  destruct (JS.truthy (default "" (KV.get _ _ _))); [json_response|].
  destruct (CorsWorker.fetchAndCacheFlag _ _ _ _ _) as [u w2].
  destruct (negb (JS.truthy u)); json_response.
Qed.

Lemma name_handleGetFlag_response (net : string → FetchResult)
    (names : string → NameWorker.LookupResult)
    (req : Http.Request) (env : Env) (now : Z) (w : World) :
  ∃ data code, (NameWorker.handleGetFlag net names req env now w).1
                 = NameWorker.createJsonResponse data code
               ∧ code ∈ [200; 400; 429; 500].
Proof.
  unfold NameWorker.handleGetFlag.
  destruct (NameWorker.isRateLimited req now w) as [[] w1]; [json_response|].
  destruct (negb (JS.truthy (default "" (Http.params_get _ _)))); [json_response|].
  destruct (NameWorker.atomMiddleware _ _ _) as [country w2].
  destruct (negb (JS.truthy (default "" country))); [json_response|].
  destruct (JS.truthy (default "" (KV.get _ _ _))); [json_response|].
  destruct (NameWorker.fetchAndCacheFlag _ _ _ _ _) as [u w3].
  destruct (negb (JS.truthy u)); json_response.
Qed.

Lemma status_of_handler (code : Z) :
  code ∈ [200; 400; 429; 500] → code ∈ [204; 200; 400; 429; 500; 404].
Proof.
  intros Hcode. apply list_elem_of_further.
  rewrite !elem_of_cons in Hcode. rewrite !elem_of_cons. tauto.
Qed.

(** X21.  In the revisions that answer the preflight (part_002 and
    part_004) an OPTIONS request gets status 204, and every response of
    the gateway, the preflight answer, 200, 400, 429, 500 and the 404 of
    an unknown route, carries the three cross-origin headers. *)
Theorem cross_origin_headers_on_every_response (net : string → FetchResult)
    (names : string → NameWorker.LookupResult)
    (req : Http.Request) (env : Env) (now : Z) (w : World) :
  let r := (CorsWorker.fetch net req env now w).1 in
  let r' := (NameWorker.handleRequest net names req env now w).1 in
  (Http.method req = "OPTIONS" →
     Http.status r = 204 ∧ Http.res_headers r = CorsWorker.corsHeaders
     ∧ Http.status r' = 204 ∧ Http.res_headers r' = CorsWorker.corsHeaders)
  ∧ CorsWorker.corsHeaders ⊆ Http.res_headers r
  ∧ CorsWorker.corsHeaders ⊆ Http.res_headers r'
  ∧ Http.status r ∈ [204; 200; 400; 429; 500; 404]
  ∧ Http.status r' ∈ [204; 200; 400; 429; 500; 404].
Proof.
  intros r r'. split.
  { intros Hopt. unfold r, r', CorsWorker.fetch, NameWorker.handleRequest.
    by rewrite Hopt. }
  assert (CorsWorker.corsHeaders ⊆ Http.res_headers r
          ∧ Http.status r ∈ [204; 200; 400; 429; 500; 404]) as [??].
  { unfold r, CorsWorker.fetch.
    destruct (String.eqb (Http.method req) "OPTIONS"); [split; [done|member]|].
    destruct (String.eqb (Http.pathname req) "/api/getFlag").
    - destruct (cors_handleGetFlag_response net req env now w) as (data & code & -> & Hcode).
      split; [by apply list_subseteq_cons|by apply status_of_handler].
    - split; [by apply list_subseteq_cons|member]. }
  assert (CorsWorker.corsHeaders ⊆ Http.res_headers r'
          ∧ Http.status r' ∈ [204; 200; 400; 429; 500; 404]) as [??].
  { unfold r', NameWorker.handleRequest.
    destruct (String.eqb (Http.method req) "OPTIONS"); [split; [done|member]|].
    destruct (String.eqb (Http.pathname req) "/api/getFlag").
    - destruct (name_handleGetFlag_response net names req env now w)
        as (data & code & -> & Hcode).
      split; [by apply list_subseteq_cons|by apply status_of_handler].
    - split; [by apply list_subseteq_cons|member]. }
  done.
Qed.

(** X4.  The first document of serverCloudwareWorker.ts has no preflight
    branch: every response of its fetch handler, whatever the method of
    the request, carries the content type and no other header. *)
Example first_document_headers (req : Http.Request) (env : Env) (now : Z) (w : World) :
  Http.res_headers (Worker.fetch req env now w).1 = [("Content-Type", "application/json")].
Proof.
  unfold Worker.fetch, Worker.handleGetFlag.
  destruct (String.eqb _ _); [|done].
  destruct (Worker.isRateLimited req now w) as [[] w1]; [done|].
  destruct (Worker.validateQueryParams req); [done|].
  destruct (JS.truthy (default "" (KV.get _ _ _))); [done|].
  destruct (Worker.fetchAndCacheFlag _ _ _ _) as [u w2].
  by destruct (negb (JS.truthy u)).
Qed.

Lemma cross_origin_headers_on_every_response_witness :
  Http.status (CorsWorker.fetch Sample.reachable
    {| Http.method := "OPTIONS"; Http.pathname := "/api/getFlag";
       Http.searchParams := []; Http.headers := [] |} Sample.env 0 Sample.empty).1 = 204.
Proof.
  refine (proj1 (proj1 (cross_origin_headers_on_every_response Sample.reachable
    (λ _, NameWorker.NoMatch)
    {| Http.method := "OPTIONS"; Http.pathname := "/api/getFlag";
       Http.searchParams := []; Http.headers := [] |} Sample.env 0 Sample.empty) _)).
  reflexivity.
Defined.

(** ** Validation and rate limiting *)

(** C4, as the code has it.  The handler asks the rate limiter first.  A
    request that the limiter refuses is answered 429 whatever its country
    parameter; a request that the limiter lets through, which it has then
    counted, and whose country parameter is missing or malformed is
    answered 400 and goes no further: the counter is the only thing
    written. *)
Theorem rate_limit_before_validation (req : Http.Request) (env : Env) (now : Z) (w : World) :
  ((Worker.isRateLimited req now w).1 = true →
     Worker.handleGetFlag req env now w
       = (Worker.createJsonResponse (failure "Rate limit exceeded.") 429, w))
  ∧ ((Worker.isRateLimited req now w).1 = false →
     ∀ message, Worker.validateQueryParams req = Some message →
       Worker.handleGetFlag req env now w
         = (Worker.createJsonResponse (failure message) 400, (Worker.isRateLimited req now w).2)
       ∧ ∀ key, key ≠ Worker.rateLimitKey req →
           FLAG_CACHE (Worker.handleGetFlag req env now w).2 !! key = FLAG_CACHE w !! key).
Proof.
  split.
  - intros Hlim. unfold Worker.handleGetFlag.
    destruct (Worker.isRateLimited req now w) as [b w1] eqn:Hrl. simpl in Hlim. subst b.
    unfold Worker.isRateLimited in Hrl. destruct (JS.ge _ _); by simplify_eq.
  - intros Hlim message Hval. unfold Worker.handleGetFlag.
    destruct (Worker.isRateLimited req now w) as [b w1] eqn:Hrl. simpl in Hlim. subst b.
    rewrite Hval. split; [done|]. intros key Hne. simpl.
    change w1 with (false, w1).2. rewrite <-Hrl, worker_isRateLimited_check.
    by apply rate_check_other.
Qed.

Lemma rate_limit_before_validation_witness :
  Http.status (Worker.handleGetFlag Sample.get_nothing Sample.env 0 Sample.empty).1 = 400.
Proof.
  refine (eq_ind_r (λ p, Http.status p.1 = 400) _
    (proj1 (proj2 (rate_limit_before_validation Sample.get_nothing Sample.env 0 Sample.empty)
       _ _ _))).
  - reflexivity.
  - reflexivity.
  - reflexivity.
Defined.

(** C4, as the specification has it, fails.  The client has used its 100
    requests; its next request has no country parameter at all, and is
    answered 429, not 400. *)
Lemma validation_first_counterexample :
  let w := (serve (Worker.isRateLimited Sample.get_DE) (replicate 100 0) Sample.empty).2 in
  Http.params_get "country" (Http.searchParams Sample.get_nothing) = None
  ∧ is_Some (Worker.validateQueryParams Sample.get_nothing)
  ∧ Http.status (Worker.handleGetFlag Sample.get_nothing Sample.env 1000 w).1 = 429.
Proof. split_and!; [done|by eexists|by vm_compute]. Qed.

(** ** The origin fetcher and the cache *)

(** A counter key is never the key of a cached flag. *)
Lemma worker_key_not_flag (req : Http.Request) (country : string) :
  Worker.rateLimitKey req ≠ "flag_" +:+ country.
Proof. unfold Worker.rateLimitKey. simpl. discriminate. Qed.

Lemma cors_key_not_flag (req : Http.Request) (country : string) :
  CorsWorker.getRateLimitKey req ≠ "flag_" +:+ country.
Proof. unfold CorsWorker.getRateLimitKey. simpl. discriminate. Qed.

(** The URLs the gateway builds are not empty. *)
Lemma cors_signedUrl_truthy (country : string) (env : Env) (now : Z) :
  JS.truthy (Http.URL_toString (CorsWorker.signedUrl country env now)) = true.
Proof. reflexivity. Qed.

Lemma worker_cloudinaryUrl_truthy (country : string) (env : Env) (now : Z) :
  JS.truthy (Http.URL_toString (Worker.cloudinaryUrl country env now)) = true.
Proof. reflexivity. Qed.

(** The key: every secret but the empty one is taken. *)
Lemma importKey_encode (secret : string) :
  importKey (JS.encode secret)
  = if JS.truthy secret then Return (JS.encode secret)
    else Throw "DataError: Zero-length key is not supported".
Proof.
  destruct secret as [|c secret]; [done|].
  cbn [JS.truthy JS.encode]. unfold JS.encode_char.
  by destruct (JS.code c <? 128).
Qed.

Lemma cors_signature (params : JS.Record_) (env : Env) :
  CorsWorker.generateCloudinarySignature params env
  = if JS.truthy (CLOUDINARY_API_SECRET env)
    then Return (JS.hex (WebCrypto.hmac_sign WebCrypto.SHA_1
                           (JS.encode (CLOUDINARY_API_SECRET env))
                           (JS.encode (CorsWorker.queryString params))))
    else Throw "DataError: Zero-length key is not supported".
Proof.
  unfold CorsWorker.generateCloudinarySignature. rewrite importKey_encode.
  by destruct (JS.truthy _).
Qed.

(** What one resolution of part_002 returns and leaves in the world, by
    the secret and the answer of the origin. *)
Lemma cors_fetchAndCacheFlag_eq (net : string → FetchResult)
    (country : string) (env : Env) (now : Z) (w : World) :
  let u := Http.URL_toString (CorsWorker.signedUrl country env now) in
  CorsWorker.fetchAndCacheFlag net country env now w
  = if JS.truthy (CLOUDINARY_API_SECRET env)
    then match net u with
         | HttpStatus code =>
             if response_ok code
             then (u, {| FLAG_CACHE := KV.put (FLAG_CACHE w) now ("flag_" +:+ country) u
                                         CorsWorker.TTL_SECONDS;
                         events := events w ++ [OriginFetcherCall country; NetworkFetch u] |})
             else ("", {| FLAG_CACHE := FLAG_CACHE w;
                          events := events w ++
                            [OriginFetcherCall country; NetworkFetch u;
                             ConsoleError ("Flag not found on Cloudinary: "
                                             +:+ "flags/" +:+ country +:+ ".svg")] |})
         | NetworkFailure text =>
             ("", {| FLAG_CACHE := FLAG_CACHE w;
                     events := events w ++ [OriginFetcherCall country; NetworkFetch u;
                                            ConsoleError ("Error fetching flag for " +:+ country +:+ ": " +:+ text)] |})
         end
    else ("", {| FLAG_CACHE := FLAG_CACHE w;
                 events := events w ++
                   [OriginFetcherCall country;
                    ConsoleError ("Error fetching flag for " +:+ country +:+ ": "
                                    +:+ "DataError: Zero-length key is not supported")] |}).
Proof.
  intros u.
  unfold CorsWorker.fetchAndCacheFlag, CorsWorker.fetchSignedCloudinaryUrl.
  rewrite cors_signature.
  destruct (JS.truthy (CLOUDINARY_API_SECRET env)).
  - fold (CorsWorker.signedUrl country env now). fold u.
    destruct (net u) as [code|text].
    + destruct (response_ok code); cbn [negb].
      * change (default "" (Some u)) with u.
        assert (JS.truthy u = true) as -> by apply cors_signedUrl_truthy. cbn [negb].
        unfold kv_put, emit. cbn [FLAG_CACHE events]. by rewrite <-!app_assoc.
      * cbn [default from_option JS.truthy negb]. unfold emit. cbn [FLAG_CACHE events].
        by rewrite <-!app_assoc.
    + unfold emit. cbn [FLAG_CACHE events]. by rewrite <-!app_assoc.
  - unfold emit. cbn [FLAG_CACHE events]. by rewrite <-!app_assoc.
Qed.

(** The same for part_004, which writes no line of its own when the
    origin answers with a status that is not ok. *)
Lemma name_fetchAndCacheFlag_eq (net : string → FetchResult)
    (country : string) (env : Env) (now : Z) (w : World) :
  let u := Http.URL_toString (CorsWorker.signedUrl country env now) in
  NameWorker.fetchAndCacheFlag net country env now w
  = if JS.truthy (CLOUDINARY_API_SECRET env)
    then match net u with
         | HttpStatus code =>
             if response_ok code
             then (u, {| FLAG_CACHE := KV.put (FLAG_CACHE w) now ("flag_" +:+ country) u
                                         NameWorker.TTL_SECONDS;
                         events := events w ++ [OriginFetcherCall country; NetworkFetch u] |})
             else ("", {| FLAG_CACHE := FLAG_CACHE w;
                          events := events w ++ [OriginFetcherCall country; NetworkFetch u] |})
         | NetworkFailure text =>
             ("", {| FLAG_CACHE := FLAG_CACHE w;
                     events := events w ++ [OriginFetcherCall country; NetworkFetch u;
                                            ConsoleError ("Error fetching flag for " +:+ country +:+ ": " +:+ text)] |})
         end
    else ("", {| FLAG_CACHE := FLAG_CACHE w;
                 events := events w ++
                   [OriginFetcherCall country;
                    ConsoleError ("Error fetching flag for " +:+ country +:+ ": "
                                    +:+ "DataError: Zero-length key is not supported")] |}).
Proof.
  intros u.
  unfold NameWorker.fetchAndCacheFlag, NameWorker.fetchSignedCloudinaryUrl,
    NameWorker.generateCloudinarySignature.
  rewrite cors_signature.
  destruct (JS.truthy (CLOUDINARY_API_SECRET env)).
  - change NameWorker.TTL_SECONDS with CorsWorker.TTL_SECONDS.
    fold (CorsWorker.signedUrl country env now). fold u.
    destruct (net u) as [code|text].
    + destruct (response_ok code).
      * change (default "" (Some u)) with u.
        assert (JS.truthy u = true) as -> by apply cors_signedUrl_truthy. cbn [negb].
        unfold kv_put, emit. cbn [FLAG_CACHE events]. by rewrite <-!app_assoc.
      * cbn [default from_option JS.truthy negb]. unfold emit. cbn [FLAG_CACHE events].
        by rewrite <-!app_assoc.
    + unfold emit. cbn [FLAG_CACHE events]. by rewrite <-!app_assoc.
  - unfold emit. cbn [FLAG_CACHE events]. by rewrite <-!app_assoc.
Qed.

(** One resolution of part_002: the empty string and an untouched
    namespace, or the confirmed URL, stored. *)
Lemma cors_fetchAndCacheFlag_cases (net : string → FetchResult)
    (country : string) (env : Env) (now : Z) (w : World) :
  let u := Http.URL_toString (CorsWorker.signedUrl country env now) in
  let out := CorsWorker.fetchAndCacheFlag net country env now w in
  (out.1 = "" ∧ FLAG_CACHE out.2 = FLAG_CACHE w)
  ∨ (out.1 = u ∧ resolution_failed (net u) = false
     ∧ FLAG_CACHE out.2 = KV.put (FLAG_CACHE w) now ("flag_" +:+ country) u CorsWorker.TTL_SECONDS).
Proof.
  intros u out. subst out. rewrite cors_fetchAndCacheFlag_eq. fold u.
  destruct (JS.truthy (CLOUDINARY_API_SECRET env)); [|by left].
  unfold resolution_failed.
  destruct (net u) as [code|text]; [|by left].
  destruct (response_ok code); [by right|by left].
Qed.

(** C7.  A resolution that fails, that is, fetchAndCacheFlag coming back
    with the empty string, leaves the KV namespace as it was: nothing is
    stored for the key, and a key that was read as absent is read as
    absent by every later request.  A request that the handler answers
    with 500 has written nothing but the counter of its client. *)
Theorem failed_resolution_leaves_cache_unchanged (net : string → FetchResult)
    (country : string) (env : Env) (now : Z) (w : World) :
  (CorsWorker.fetchAndCacheFlag net country env now w).1 = "" →
  let w' := (CorsWorker.fetchAndCacheFlag net country env now w).2 in
  FLAG_CACHE w' = FLAG_CACHE w
  ∧ (KV.get (FLAG_CACHE w) now ("flag_" +:+ country) = None →
     ∀ t, now ≤ t → KV.get (FLAG_CACHE w') t ("flag_" +:+ country) = None)
  ∧ (∀ req, Http.status (CorsWorker.handleGetFlag net req env now w).1 = 500 →
       ∀ key, key ≠ CorsWorker.getRateLimitKey req →
         FLAG_CACHE (CorsWorker.handleGetFlag net req env now w).2 !! key = FLAG_CACHE w !! key).
Proof.
  intros Hempty w'.
  assert (FLAG_CACHE w' = FLAG_CACHE w) as Hsame.
  { unfold w'.
    destruct (cors_fetchAndCacheFlag_cases net country env now w) as [[_ Hkv]|(Hu & _)];
      [done|].
    rewrite Hempty in Hu.
    pose proof (cors_signedUrl_truthy country env now) as Htruthy.
    by rewrite <-Hu in Htruthy. }
  split_and!; [done| |].
  - intros Hnone t Ht. rewrite Hsame. by eapply kv_get_none_later.
  - clear. intros req H500 key Hne. revert H500. unfold CorsWorker.handleGetFlag.
    destruct (CorsWorker.isRateLimited req now w) as [b w1] eqn:Hrl.
    assert (FLAG_CACHE w1 !! key = FLAG_CACHE w !! key) as Hw1.
    { change w1 with (b, w1).2. rewrite <-Hrl, cors_isRateLimited_check.
      by apply rate_check_other. }
    destruct b; [done|].
    destruct (CorsWorker.validateQueryParams req); [done|].
    destruct (JS.truthy (default "" (KV.get _ _ _))); [done|].
    destruct (cors_fetchAndCacheFlag_cases net (default "" (Worker.country_param req))
                env now w1) as [[Hu Hkv]|(Hu & _)];
      destruct (CorsWorker.fetchAndCacheFlag _ _ _ _ _) as [u w2];
      cbn [fst snd] in *; subst u.
    + intros _. cbn [JS.truthy negb snd]. by rewrite Hkv.
    + by rewrite (cors_signedUrl_truthy _ env now).
Qed.

Lemma failed_resolution_leaves_cache_unchanged_witness :
  FLAG_CACHE (CorsWorker.fetchAndCacheFlag Sample.not_found "DE" Sample.env 0 Sample.empty).2
  = FLAG_CACHE Sample.empty.
Proof.
  refine (proj1 (failed_resolution_leaves_cache_unchanged Sample.not_found "DE"
                   Sample.env 0 Sample.empty _)).
  by vm_compute.
Defined.

Lemma network_fetches_app (w : World) (es : list Event) (kv : gmap string KV.Entry) :
  network_fetches {| FLAG_CACHE := kv; events := events w ++ es |}
  = (network_fetches w + length (List.filter is_network_fetch es))%nat.
Proof. unfold network_fetches. simpl. by rewrite List.filter_app, length_app. Qed.

Lemma network_fetches_kv_put (key v : string) (ttl now : Z) (w : World) :
  network_fetches (kv_put key v ttl now w) = network_fetches w.
Proof. done. Qed.

Lemma network_fetches_fetcher_call (country : string) (w : World) :
  network_fetches (emit (OriginFetcherCall country) w) = network_fetches w.
Proof. unfold emit. rewrite network_fetches_app. simpl. lia. Qed.

Lemma fetcher_calls_app (w : World) (es : list Event) (kv : gmap string KV.Entry) :
  fetcher_calls {| FLAG_CACHE := kv; events := events w ++ es |}
  = (fetcher_calls w + length (List.filter is_fetcher_call es))%nat.
Proof. unfold fetcher_calls. simpl. by rewrite List.filter_app, length_app. Qed.

(** ** The cache hit *)

Lemma rate_check_events (key : string) (t : Z) (w : World) :
  events (rate_check key t w).2 = events w.
Proof. unfold rate_check. by destruct (JS.ge _ _). Qed.

Lemma worker0_isRateLimited_check (req : Http.Request) (t : Z) (w : World) :
  Worker0.isRateLimited req t w = rate_check (Worker0.rateLimitKey req) t w.
Proof. reflexivity. Qed.

Lemma worker0_key_not_flag (req : Http.Request) (country : string) :
  Worker0.rateLimitKey req ≠ "flag_" +:+ country.
Proof. unfold Worker0.rateLimitKey. simpl. discriminate. Qed.

Lemma worker0_cloudinaryUrl_truthy (country : string) (env : Env) (now : Z) :
  Http.URL_toString (Worker0.cloudinaryUrl country env now) ≠ "".
Proof. discriminate. Qed.

(** What the rate limiter leaves of a world when it lets a request
    through: the events, and every flag entry. *)
Lemma admitted_world (key : string) (t : Z) (w : World) :
  (∀ country, key ≠ "flag_" +:+ country) →
  events (rate_check key t w).2 = events w
  ∧ ∀ country, KV.get (FLAG_CACHE (rate_check key t w).2) t ("flag_" +:+ country)
               = KV.get (FLAG_CACHE w) t ("flag_" +:+ country).
Proof.
  intros Hkey. split; [apply rate_check_events|].
  intros country. apply kv_get_lookup, rate_check_other, Hkey.
Qed.

(** The handler of the first document on a miss, and on a hit. *)
Lemma worker_handle_miss (req : Http.Request) (env : Env) (t : Z) (w : World) :
  (Worker.isRateLimited req t w).1 = false →
  Worker.validateQueryParams req = None →
  let country := default "" (Worker.country_param req) in
  KV.get (FLAG_CACHE w) t ("flag_" +:+ country) = None →
  let u := Http.URL_toString (Worker.cloudinaryUrl country env t) in
  Worker.handleGetFlag req env t w
  = (Worker.createJsonResponse (success u) 200,
     kv_put ("flag_" +:+ country) u Worker.TTL_SECONDS t
       (emit (OriginFetcherCall country) (Worker.isRateLimited req t w).2)).
Proof.
  intros Hadm Hvalid country Hmiss u. unfold Worker.handleGetFlag.
  destruct (admitted_world (Worker.rateLimitKey req) t w (worker_key_not_flag req))
    as [_ Hkv].
  rewrite <-worker_isRateLimited_check in Hkv.
  destruct (Worker.isRateLimited req t w) as [b w1]. simpl in Hadm. subst b.
  rewrite Hvalid. fold country. cbn [snd] in Hkv. rewrite Hkv, Hmiss.
  change (JS.truthy (default "" None)) with false. cbv iota.
  unfold Worker.fetchAndCacheFlag, Worker.fetchFromCloudinary. subst u.
  by rewrite (worker_cloudinaryUrl_truthy country env t).
Qed.

Lemma worker_handle_hit (req : Http.Request) (env : Env) (t : Z) (w : World) (u : string) :
  (Worker.isRateLimited req t w).1 = false →
  Worker.validateQueryParams req = None →
  let country := default "" (Worker.country_param req) in
  KV.get (FLAG_CACHE w) t ("flag_" +:+ country) = Some u →
  JS.truthy u = true →
  let refreshed := Http.URL_toString (Worker.cloudinaryUrl country env t) in
  Worker.handleGetFlag req env t w
  = (Worker.createJsonResponse (success u) 200,
     kv_put ("flag_" +:+ country) refreshed Worker.TTL_SECONDS t
       (kv_put ("flag_" +:+ country) refreshed Worker.TTL_SECONDS t
          (emit (OriginFetcherCall country) (Worker.isRateLimited req t w).2))).
Proof.
  intros Hadm Hvalid country Hhit Hu refreshed. unfold Worker.handleGetFlag.
  destruct (admitted_world (Worker.rateLimitKey req) t w (worker_key_not_flag req))
    as [_ Hkv].
  rewrite <-worker_isRateLimited_check in Hkv.
  destruct (Worker.isRateLimited req t w) as [b w1]. simpl in Hadm. subst b.
  rewrite Hvalid. fold country. cbn [snd] in Hkv. rewrite Hkv, Hhit.
  change (default "" (Some u)) with u. rewrite Hu.
  unfold Worker.backgroundRefresh, Worker.fetchAndCacheFlag, Worker.fetchFromCloudinary.
  subst refreshed. by rewrite (worker_cloudinaryUrl_truthy country env t).
Qed.

Lemma worker_handle_limited (req : Http.Request) (env : Env) (t : Z) (w : World) :
  (Worker.isRateLimited req t w).1 = true →
  Http.status (Worker.handleGetFlag req env t w).1 = 429.
Proof.
  intros Hlim. unfold Worker.handleGetFlag.
  destruct (Worker.isRateLimited req t w) as [b w1]. simpl in Hlim. by subst b.
Qed.

(** The handler of part_003 on a miss, and on a hit. *)
Lemma worker0_handle_miss (req : Http.Request) (env : Env) (t : Z) (w : World) :
  (Worker0.isRateLimited req t w).1 = false →
  Worker0.validateQueryParams req = None →
  let country := default "" (Worker.country_param req) in
  KV.get (FLAG_CACHE w) t ("flag_" +:+ country) = None →
  let u := Http.URL_toString (Worker0.cloudinaryUrl country env t) in
  Worker0.handleGetFlag req env t w
  = (Worker0.createJsonResponse (success u) 200,
     kv_put ("flag_" +:+ country) u Worker0.TTL_SECONDS t
       (emit (OriginFetcherCall country) (Worker0.isRateLimited req t w).2)).
Proof.
  intros Hadm Hvalid country Hmiss u. unfold Worker0.handleGetFlag.
  destruct (admitted_world (Worker0.rateLimitKey req) t w (worker0_key_not_flag req))
    as [_ Hkv].
  rewrite <-worker0_isRateLimited_check in Hkv.
  destruct (Worker0.isRateLimited req t w) as [b w1]. simpl in Hadm. subst b.
  rewrite Hvalid. fold country. cbn [snd] in Hkv. rewrite Hkv, Hmiss.
  change (JS.truthy (default "" None)) with false. cbv iota.
  unfold Worker0.fetchAndCacheFlag, Worker0.fetchFromCloudinary. fold u.
  destruct (String.eqb_spec u "") as [Hu|_]; [|done].
  by apply worker0_cloudinaryUrl_truthy in Hu.
Qed.

Lemma worker0_handle_hit (req : Http.Request) (env : Env) (t : Z) (w : World) (u : string) :
  (Worker0.isRateLimited req t w).1 = false →
  Worker0.validateQueryParams req = None →
  let country := default "" (Worker.country_param req) in
  KV.get (FLAG_CACHE w) t ("flag_" +:+ country) = Some u →
  JS.truthy u = true →
  let refreshed := Http.URL_toString (Worker0.cloudinaryUrl country env t) in
  Worker0.handleGetFlag req env t w
  = (Worker0.createJsonResponse (success u) 200,
     kv_put ("flag_" +:+ country) refreshed Worker0.TTL_SECONDS t
       (emit (OriginFetcherCall country) (Worker0.isRateLimited req t w).2)).
Proof.
  intros Hadm Hvalid country Hhit Hu refreshed. unfold Worker0.handleGetFlag.
  destruct (admitted_world (Worker0.rateLimitKey req) t w (worker0_key_not_flag req))
    as [_ Hkv].
  rewrite <-worker0_isRateLimited_check in Hkv.
  destruct (Worker0.isRateLimited req t w) as [b w1]. simpl in Hadm. subst b.
  rewrite Hvalid. fold country. cbn [snd] in Hkv. rewrite Hkv, Hhit.
  change (default "" (Some u)) with u. by rewrite Hu.
Qed.

Lemma worker0_handle_limited (req : Http.Request) (env : Env) (t : Z) (w : World) :
  (Worker0.isRateLimited req t w).1 = true →
  Http.status (Worker0.handleGetFlag req env t w).1 = 429.
Proof.
  intros Hlim. unfold Worker0.handleGetFlag.
  destruct (Worker0.isRateLimited req t w) as [b w1]. simpl in Hlim. by subst b.
Qed.

(** The handler of part_002 on a hit: the world is the one the rate
    limiter left. *)
Lemma cors_handle_hit (net : string → FetchResult)
    (req : Http.Request) (env : Env) (t : Z) (w : World) (u : string) :
  (CorsWorker.isRateLimited req t w).1 = false →
  CorsWorker.validateQueryParams req = None →
  let country := default "" (Worker.country_param req) in
  KV.get (FLAG_CACHE w) t ("flag_" +:+ country) = Some u →
  JS.truthy u = true →
  CorsWorker.handleGetFlag net req env t w
  = (CorsWorker.createJsonResponse (success u) 200, (CorsWorker.isRateLimited req t w).2).
Proof.
  intros Hadm Hvalid country Hhit Hu. unfold CorsWorker.handleGetFlag.
  destruct (admitted_world (CorsWorker.getRateLimitKey req) t w (cors_key_not_flag req))
    as [_ Hkv].
  rewrite <-cors_isRateLimited_check in Hkv.
  destruct (CorsWorker.isRateLimited req t w) as [b w1]. simpl in Hadm. subst b.
  rewrite Hvalid. fold country. cbn [snd] in Hkv. rewrite Hkv, Hhit.
  change (default "" (Some u)) with u. by rewrite Hu.
Qed.

Lemma cors_handle_limited (net : string → FetchResult)
    (req : Http.Request) (env : Env) (t : Z) (w : World) :
  (CorsWorker.isRateLimited req t w).1 = true →
  Http.status (CorsWorker.handleGetFlag net req env t w).1 = 429.
Proof.
  intros Hlim. unfold CorsWorker.handleGetFlag.
  destruct (CorsWorker.isRateLimited req t w) as [b w1]. simpl in Hlim. by subst b.
Qed.

(** The handler of part_002 on a miss that the origin confirms. *)
Lemma cors_handle_miss_200 (net : string → FetchResult)
    (req : Http.Request) (env : Env) (t : Z) (w : World) :
  CorsWorker.validateQueryParams req = None →
  let country := default "" (Worker.country_param req) in
  KV.get (FLAG_CACHE w) t ("flag_" +:+ country) = None →
  Http.status (CorsWorker.handleGetFlag net req env t w).1 = 200 →
  let u := Http.URL_toString (CorsWorker.signedUrl country env t) in
  (CorsWorker.handleGetFlag net req env t w).1 = CorsWorker.createJsonResponse (success u) 200
  ∧ FLAG_CACHE (CorsWorker.handleGetFlag net req env t w).2
    = KV.put (FLAG_CACHE (CorsWorker.isRateLimited req t w).2) t
        ("flag_" +:+ country) u CorsWorker.TTL_SECONDS.
Proof.
  intros Hvalid country Hmiss. unfold CorsWorker.handleGetFlag.
  destruct (admitted_world (CorsWorker.getRateLimitKey req) t w (cors_key_not_flag req))
    as [_ Hkv].
  rewrite <-cors_isRateLimited_check in Hkv.
  destruct (CorsWorker.isRateLimited req t w) as [b w1].
  destruct b; [done|].
  rewrite Hvalid. fold country. cbn [snd] in Hkv. rewrite Hkv, Hmiss.
  change (JS.truthy (default "" None)) with false. cbv iota.
  destruct (cors_fetchAndCacheFlag_cases net country env t w1) as [[Hu Hsame]|(Hu & _ & Hput)];
    destruct (CorsWorker.fetchAndCacheFlag net country env t w1) as [secureUrl w2];
    cbn [fst snd] in *; subst secureUrl.
  - done.
  - rewrite (cors_signedUrl_truthy country env t). cbn [negb fst snd]. by rewrite Hput.
Qed.

(** C5, as the code has it.  A request for a valid key that finds no
    entry and is answered 200, followed before the entry runs out by a
    second request for the same key that the rate limiter lets through:
    the second answer is the first answer, with the same URL string, and
    nothing is sent to the origin over the network for it.  In
    serverCloudwareWorker.ts and in part_003 the second request calls the
    origin fetcher once more, in the background, and the entry is written
    again: it now holds the URL signed at the time of the second request
    and lives 12 hours from then.  In part_002 the second request calls
    nothing, and the entry, written by the first request, stays as it
    is. *)
Theorem cache_hit_returns_cached_url (net : string → FetchResult)
    (req : Http.Request) (env : Env) (t t' : Z) (w : World) :
  Worker.validateQueryParams req = None →
  let country := default "" (Worker.country_param req) in
  let cacheKey := "flag_" +:+ country in
  KV.get (FLAG_CACHE w) t cacheKey = None →
  t ≤ t' < t + 1000 * Worker.TTL_SECONDS →
  (let first := Worker.handleGetFlag req env t w in
   let second := Worker.handleGetFlag req env t' first.2 in
   Http.status first.1 = 200 → Http.status second.1 ≠ 429 →
     is_Some (secureUrl_of first.1) ∧ second.1 = first.1
     ∧ network_fetches second.2 = network_fetches first.2
     ∧ events second.2 = events first.2 ++ [OriginFetcherCall country]
     ∧ FLAG_CACHE second.2 !! cacheKey
       = Some {| KV.value := Http.URL_toString (Worker.cloudinaryUrl country env t');
                 KV.expiration := t' + 1000 * Worker.TTL_SECONDS |})
  ∧ (let first := Worker0.handleGetFlag req env t w in
     let second := Worker0.handleGetFlag req env t' first.2 in
     Http.status first.1 = 200 → Http.status second.1 ≠ 429 →
       is_Some (secureUrl_of first.1) ∧ second.1 = first.1
       ∧ network_fetches second.2 = network_fetches first.2
       ∧ events second.2 = events first.2 ++ [OriginFetcherCall country]
       ∧ FLAG_CACHE second.2 !! cacheKey
         = Some {| KV.value := Http.URL_toString (Worker0.cloudinaryUrl country env t');
                   KV.expiration := t' + 1000 * Worker0.TTL_SECONDS |})
  ∧ (let first := CorsWorker.handleGetFlag net req env t w in
     let second := CorsWorker.handleGetFlag net req env t' first.2 in
     Http.status first.1 = 200 → Http.status second.1 ≠ 429 →
       is_Some (secureUrl_of first.1) ∧ second.1 = first.1
       ∧ events second.2 = events first.2
       ∧ FLAG_CACHE second.2 !! cacheKey = FLAG_CACHE first.2 !! cacheKey
       ∧ FLAG_CACHE first.2 !! cacheKey
         = Some {| KV.value := Http.URL_toString (CorsWorker.signedUrl country env t);
                   KV.expiration := t + 1000 * CorsWorker.TTL_SECONDS |}).
Proof.
  intros Hvalid country cacheKey Hmiss Ht. split_and!.
  - intros first second H200 Hnot429.
    assert ((Worker.isRateLimited req t w).1 = false) as Hadm1.
    { destruct (Worker.isRateLimited req t w).1 eqn:Hb; [|done].
      apply (worker_handle_limited req env) in Hb. fold first in Hb. congruence. }
    pose proof (worker_handle_miss req env t w Hadm1 Hvalid Hmiss) as Hfirst.
    fold first country in Hfirst. cbv zeta in Hfirst.
    set (u := Http.URL_toString (Worker.cloudinaryUrl country env t)) in *.
    assert ((Worker.isRateLimited req t' first.2).1 = false) as Hadm2.
    { destruct (Worker.isRateLimited req t' first.2).1 eqn:Hb; [|done].
      apply (worker_handle_limited req env) in Hb. by fold second in Hb. }
    pose proof (worker_handle_hit req env t' first.2 u Hadm2 Hvalid) as Hsecond.
    fold second country in Hsecond. cbv zeta in Hsecond.
    rewrite Hsecond.
    2:{ rewrite Hfirst. simpl. rewrite kv_get_put_eq.
        rewrite bool_decide_true; [done|]. unfold Worker.TTL_SECONDS in *. lia. }
    2:{ apply worker_cloudinaryUrl_truthy. }
    cbn [fst snd].
    split_and!.
    + rewrite Hfirst. by eexists.
    + by rewrite Hfirst.
    + rewrite !network_fetches_kv_put, network_fetches_fetcher_call.
      rewrite worker_isRateLimited_check. unfold network_fetches.
      by rewrite rate_check_events.
    + unfold kv_put, emit. cbn [events].
      by rewrite worker_isRateLimited_check, rate_check_events.
    + unfold kv_put, KV.put. cbn [FLAG_CACHE]. by rewrite lookup_insert_eq.
  - intros first second H200 Hnot429.
    assert ((Worker0.isRateLimited req t w).1 = false) as Hadm1.
    { destruct (Worker0.isRateLimited req t w).1 eqn:Hb; [|done].
      apply (worker0_handle_limited req env) in Hb. fold first in Hb. congruence. }
    pose proof (worker0_handle_miss req env t w Hadm1 Hvalid Hmiss) as Hfirst.
    fold first country in Hfirst. cbv zeta in Hfirst.
    set (u := Http.URL_toString (Worker0.cloudinaryUrl country env t)) in *.
    assert ((Worker0.isRateLimited req t' first.2).1 = false) as Hadm2.
    { destruct (Worker0.isRateLimited req t' first.2).1 eqn:Hb; [|done].
      apply (worker0_handle_limited req env) in Hb. by fold second in Hb. }
    pose proof (worker0_handle_hit req env t' first.2 u Hadm2 Hvalid) as Hsecond.
    fold second country in Hsecond. cbv zeta in Hsecond.
    rewrite Hsecond.
    2:{ rewrite Hfirst. simpl. rewrite kv_get_put_eq.
        rewrite bool_decide_true; [done|].
        unfold Worker.TTL_SECONDS, Worker0.TTL_SECONDS in *. lia. }
    2:{ subst u. by destruct (Http.URL_toString _) eqn:Hu. }
    cbn [fst snd].
    split_and!.
    + rewrite Hfirst. by eexists.
    + by rewrite Hfirst.
    + rewrite !network_fetches_kv_put, network_fetches_fetcher_call.
      rewrite worker0_isRateLimited_check. unfold network_fetches.
      by rewrite rate_check_events.
    + unfold kv_put, emit. cbn [events].
      by rewrite worker0_isRateLimited_check, rate_check_events.
    + unfold kv_put, KV.put. cbn [FLAG_CACHE]. by rewrite lookup_insert_eq.
  - intros first second H200 Hnot429.
    destruct (cors_handle_miss_200 net req env t w Hvalid Hmiss H200) as [Hresp Hkv].
    fold first country in Hresp, Hkv.
    set (u := Http.URL_toString (CorsWorker.signedUrl country env t)) in *.
    assert ((CorsWorker.isRateLimited req t' first.2).1 = false) as Hadm2.
    { destruct (CorsWorker.isRateLimited req t' first.2).1 eqn:Hb; [|done].
      apply (cors_handle_limited net req env) in Hb. by fold second in Hb. }
    pose proof (cors_handle_hit net req env t' first.2 u Hadm2 Hvalid) as Hsecond.
    fold second country in Hsecond.
    rewrite Hsecond.
    2:{ rewrite Hkv, kv_get_put_eq.
        rewrite bool_decide_true; [done|].
        unfold Worker.TTL_SECONDS, CorsWorker.TTL_SECONDS in *. lia. }
    2:{ apply cors_signedUrl_truthy. }
    cbn [fst snd]. rewrite cors_isRateLimited_check.
    split_and!.
    + rewrite Hresp. by eexists.
    + by rewrite Hresp.
    + apply rate_check_events.
    + apply rate_check_other, cors_key_not_flag.
    + rewrite Hkv. unfold KV.put. by rewrite lookup_insert_eq.
Qed.

Lemma cache_hit_returns_cached_url_witness :
  (Worker.handleGetFlag Sample.get_DE Sample.env 1000
     (Worker.handleGetFlag Sample.get_DE Sample.env 0 Sample.empty).2).1
  = (Worker.handleGetFlag Sample.get_DE Sample.env 0 Sample.empty).1.
Proof.
  refine (proj1 (proj2 (proj1 (cache_hit_returns_cached_url Sample.reachable Sample.get_DE
    Sample.env 0 1000 Sample.empty _ _ _) _ _))).
  - reflexivity.
  - reflexivity.
  - unfold Worker.TTL_SECONDS. lia.
  - by vm_compute.
  - by vm_compute.
Defined.

(** C5, as the specification has it, fails.  The first request resolves
    DE and is answered 200.  The second request, sent at once, is
    answered with the same URL, but the hit is not short-circuited: the
    origin fetcher (fetchFromCloudinary, which signs the URL and contacts
    nothing) has run a second time, one call before the request and two
    after it.  Sent one second later instead, the request has also
    replaced the entry: it held the URL signed at 0 until 43200000 and
    holds the URL signed at 1000 until 43201000. *)
Lemma cache_hit_short_circuit_counterexample :
  let first := Worker.handleGetFlag Sample.get_DE Sample.env 0 Sample.empty in
  let second := Worker.handleGetFlag Sample.get_DE Sample.env 0 first.2 in
  let later := Worker.handleGetFlag Sample.get_DE Sample.env 1000 first.2 in
  Http.status first.1 = 200
  ∧ second.1 = first.1
  ∧ fetcher_calls first.2 = 1%nat
  ∧ fetcher_calls second.2 = 2%nat
  ∧ later.1 = first.1
  ∧ FLAG_CACHE first.2 !! "flag_DE"
    = Some {| KV.value := Http.URL_toString (Worker.cloudinaryUrl "DE" Sample.env 0);
              KV.expiration := 43200000 |}
  ∧ FLAG_CACHE later.2 !! "flag_DE"
    = Some {| KV.value := Http.URL_toString (Worker.cloudinaryUrl "DE" Sample.env 1000);
              KV.expiration := 43201000 |}
  ∧ Http.URL_toString (Worker.cloudinaryUrl "DE" Sample.env 1000)
    ≠ Http.URL_toString (Worker.cloudinaryUrl "DE" Sample.env 0).
Proof. split_and!; by vm_compute. Qed.

(** ** The signature of the first document *)

(** C1.  The code does not do what the specification says.  In
    serverCloudwareWorker.ts (first document) the signature parameter of
    the URL is, for every country, environment and time, the SHA-256
    digest of the parameter string followed by the secret, in hexadecimal;
    no HMAC is computed.  With the secret abcd at time 0 it is e8bf...9e3b,
    which is neither the HMAC-SHA-256 nor the HMAC-SHA-1 of the parameter
    string under the secret.  In part_003 the same digest is put through
    btoa: the signature is base64, not hexadecimal. *)
Theorem signature_is_a_bare_digest :
  (∀ country env now,
     Http.params_get "signature" (Http.query (Worker.cloudinaryUrl country env now))
     = Some (JS.hex (WebCrypto.digest WebCrypto.SHA_256
               (JS.encode ("timestamp=" +:+ pretty (now / 1000 + 43200)
                             +:+ CLOUDINARY_API_SECRET env)))))
  ∧ Worker.stringToSign Sample.env 0 = "timestamp=43200abcd"
  ∧ Worker.signatureHex Sample.env 0
    = "e8bf041abbc41b9a9ac70d93cba3ad8024c0d0ffa18363393a2c28a0ab4f9e3b"
  ∧ JS.hex (WebCrypto.hmac_sign WebCrypto.SHA_256 (JS.encode "abcd")
              (JS.encode "timestamp=43200"))
    ≠ Worker.signatureHex Sample.env 0
  ∧ JS.hex (WebCrypto.hmac_sign WebCrypto.SHA_1 (JS.encode "abcd")
              (JS.encode "timestamp=43200"))
    ≠ Worker.signatureHex Sample.env 0
  ∧ Worker0.signature Sample.env 0 = "6L8EGrvEG5qaxw2Ty6OtgCTA0P+hg2M5OiwooKtPnjs=".
Proof.
  split_and!.
  - reflexivity.
  - by vm_compute.
  - by vm_compute.
  - by vm_compute.
  - by vm_compute.
  - by vm_compute.
Qed.

(** The generator of part_002 and part_004 does use the HMAC, keyed by
    the secret, over the sorted parameter string. *)
Example hmac_signature_sample :
  CorsWorker.generateCloudinarySignature
    [("timestamp", "43200"); ("public_id", "flags/DE.svg")] Sample.env
  = Return (JS.hex (WebCrypto.hmac_sign WebCrypto.SHA_1 (JS.encode "abcd")
                      (JS.encode "public_id=flags/DE.svg&timestamp=43200"))).
Proof. reflexivity. Qed.

(** The primitives against the published test vectors. *)
Example sha256_abc :
  JS.hex (WebCrypto.digest WebCrypto.SHA_256 (JS.encode "abc"))
  = "ba7816bf8f01cfea414140de5dae2223b00361a396177a9cb410ff61f20015ad".
Proof. by vm_compute. Qed.

Example sha1_abc :
  JS.hex (WebCrypto.digest WebCrypto.SHA_1 (JS.encode "abc"))
  = "a9993e364706816aba3e25717850c26c9cd0d89d".
Proof. by vm_compute. Qed.

Example sha256_two_blocks :
  JS.hex (WebCrypto.digest WebCrypto.SHA_256
            (JS.encode "abcdbcdecdefdefgefghfghighijhijkijkljklmklmnlmnomnopnopq"))
  = "248d6a61d20638b8e5c026930c3e6039a33ce45964ff2167f6ecedd419db06c1".
Proof. by vm_compute. Qed.

Example hmac_sha1_fox :
  JS.hex (WebCrypto.hmac_sign WebCrypto.SHA_1 (JS.encode "key")
            (JS.encode "The quick brown fox jumps over the lazy dog"))
  = "de7c9b85b8b78aa6bc8a7a36f70a90701c9db4d9".
Proof. by vm_compute. Qed.

Example hmac_sha256_fox :
  JS.hex (WebCrypto.hmac_sign WebCrypto.SHA_256 (JS.encode "key")
            (JS.encode "The quick brown fox jumps over the lazy dog"))
  = "f7bc83f430538424b13298e6aa6fb143ef4d59a14946175997479dbc2d1a3cd8".
Proof. by vm_compute. Qed.

(** ** The table of ongoing fetches *)

Lemma server_fetch_registers (sign : string → Z → Completion string)
    (country cacheKey : string) (res : bool) (now : Z) (st : Server.State) :
  is_Some (Server.ongoingFetches (Server.fetchAndCacheFlag sign country cacheKey res now st).2
             !! cacheKey).
Proof.
  unfold Server.fetchAndCacheFlag.
  destruct (Server.ongoingFetches st !! cacheKey) as [p|] eqn:Hreg.
  - destruct p; simpl; by rewrite Hreg.
  - unfold Server.fetchPromise_body.
    destruct (sign _ _) as [u|text]; simpl.
    + rewrite lookup_insert_eq. by eexists.
    + destruct res; simpl; rewrite lookup_insert_eq; by eexists.
Qed.

Lemma server_fetch_registered (sign : string → Z → Completion string)
    (country cacheKey : string) (res : bool) (now : Z) (st : Server.State) :
  is_Some (Server.ongoingFetches st !! cacheKey) →
  (Server.fetchAndCacheFlag sign country cacheKey res now st).2 = st.
Proof.
  intros [p Hp]. unfold Server.fetchAndCacheFlag. rewrite Hp. by destruct p.
Qed.

(** C2.  The code does not do what the specification says.  The async arrow
    function behind fetchPromise holds no await, so that its finally
    block, ongoingFetches.delete, has run before ongoingFetches.set puts
    the promise in the table: after any call of fetchAndCacheFlag the key
    is registered, with a settled promise, and stays so.  No later call
    for the key, for any country, response object or time, calls
    cloudinary.v2.url again.  DE resolved at time 0 and asked for again
    twelve hours later, when the cache entry has run out: the handler
    finds no entry, and answers with the URL signed twelve hours before,
    without a fresh fetch.  A fetch that failed is replayed in the same
    way: the request that comes a minute later, when the signing would
    succeed, is answered with the same 500. *)
Theorem ongoing_fetch_is_never_removed :
  (∀ sign country cacheKey res now st,
     let st1 := (Server.fetchAndCacheFlag sign country cacheKey res now st).2 in
     is_Some (Server.ongoingFetches st1 !! cacheKey)
     ∧ ∀ country' res' now',
         (Server.fetchAndCacheFlag sign country' cacheKey res' now' st1).2 = st1)
  ∧ (let first := Server.getFlagHandler Sample.sign_ok "DE" 0 Sample.start in
     let later := Server.getFlagHandler Sample.sign_ok "DE" (12 * 60 * 60 * 1000) first.2 in
     Server.ongoingFetches Sample.start !! "flag_DE" = None
     ∧ Server.ongoingFetches first.2 !! "flag_DE"
       = Some (Server.Fulfilled "https://res.cloudinary.com/demo/image/upload/flags/DE.svg?e=43200")
     ∧ (Server.cache_get "flag_DE" (12 * 60 * 60 * 1000) first.2).1 = None
     ∧ Sample.sign_ok "flags/DE.svg" ((12 * 60 * 60 * 1000) / 1000 + 12 * 60 * 60)
       = Return "https://res.cloudinary.com/demo/image/upload/flags/DE.svg?e=86400"
     ∧ later.1 = first.1
     ∧ Server.signed later.2 = ["flags/DE.svg"])
  ∧ (let failed := Server.getFlagHandler Sample.sign_fails "DE" 0 Sample.start in
     let again := Server.getFlagHandler Sample.sign_ok "DE" 60000 failed.2 in
     Http.status <$> failed.1 = Some 500
     ∧ again.1 = failed.1
     ∧ Server.signed again.2 = ["flags/DE.svg"]).
Proof.
  split; [|split].
  - intros sign country cacheKey res now st st1. split.
    + apply server_fetch_registers.
    + intros country' res' now'. apply server_fetch_registered, server_fetch_registers.
  - split_and!; by vm_compute.
  - split_and!; by vm_compute.
Qed.

(** ** Further properties of the signature, the counter and the keys *)

Lemma be32_bytes (x : Z) : Forall (λ b, 0 ≤ b < 256) (WebCrypto.be32 x).
Proof. unfold WebCrypto.be32. repeat constructor; apply Z.mod_pos_bound; lia. Qed.

Lemma flat_be32_bytes (ws : list Z) : Forall (λ b, 0 ≤ b < 256) (flat_map WebCrypto.be32 ws).
Proof.
  induction ws as [|x ws IH]; [constructor|].
  cbn [flat_map]. apply Forall_app. split; [apply be32_bytes|done].
Qed.

Lemma digest_bytes (h : WebCrypto.HashName) (data : list Z) :
  Forall (λ b, 0 ≤ b < 256) (WebCrypto.digest h data).
Proof. destruct h; apply flat_be32_bytes. Qed.

Lemma hex_digit_lower (n : Z) : 0 ≤ n < 16 → JS.is_lower_hex (JS.hex_digit n) = true.
Proof.
  intros Hn.
  assert (Hcases : n = 0 ∨ n = 1 ∨ n = 2 ∨ n = 3 ∨ n = 4 ∨ n = 5 ∨ n = 6 ∨ n = 7
     ∨ n = 8 ∨ n = 9 ∨ n = 10 ∨ n = 11 ∨ n = 12 ∨ n = 13 ∨ n = 14 ∨ n = 15) by lia.
  destruct_or!; subst n; reflexivity.
Qed.

Lemma hex_cons (b : Z) (bs : list Z) :
  JS.hex (b :: bs)
  = String (JS.hex_digit (b / 16)) (String (JS.hex_digit (b mod 16)) (JS.hex bs)).
Proof. reflexivity. Qed.

Lemma hex_lower (bs : list Z) :
  Forall (λ b, 0 ≤ b < 256) bs → JS.every JS.is_lower_hex (JS.hex bs) = true.
Proof.
  induction 1 as [|b bs Hb _ IH]; [done|].
  rewrite hex_cons. cbn [JS.every].
  rewrite !hex_digit_lower, IH; [done| |].
  - apply Z.mod_pos_bound. lia.
  - split; [apply Z.div_pos; lia|apply Z.div_lt_upper_bound; lia].
Qed.

Lemma hex_length (bs : list Z) : String.length (JS.hex bs) = (2 * length bs)%nat.
Proof.
  induction bs as [|b bs IH]; [done|].
  rewrite hex_cons. cbn [String.length length]. lia.
Qed.

Lemma add_state_length (s t : list Z) :
  length (WebCrypto.add_state s t) = (length s `min` length t)%nat.
Proof.
  revert t. induction s as [|x s IH]; intros [|y t]; simpl; try done.
  by rewrite IH.
Qed.

Lemma round1_length (st : list Z) (tw : nat * Z) :
  length st = 5%nat → length (WebCrypto.round1 st tw) = 5%nat.
Proof. do 6 (destruct st as [|? st]; try done). Qed.

Lemma fold_round1_length (l : list (nat * Z)) (st : list Z) :
  length st = 5%nat → length (fold_left WebCrypto.round1 l st) = 5%nat.
Proof.
  revert st. induction l as [|tw l IH]; intros st Hst; [done|].
  simpl. by apply IH, round1_length.
Qed.

Lemma sha1_length (data : list Z) : length (WebCrypto.sha1 data) = 20%nat.
Proof.
  unfold WebCrypto.sha1.
  assert (∀ bl st, length st = 5%nat →
            length (fold_left WebCrypto.compress1 bl st) = 5%nat) as Hfold.
  { induction bl as [|b bl IH]; intros st Hst; [done|].
    simpl. apply IH. unfold WebCrypto.compress1.
    rewrite add_state_length, fold_round1_length by done. lia. }
  assert (∀ ws, length (flat_map WebCrypto.be32 ws) = (4 * length ws)%nat) as Hflat.
  { induction ws as [|x ws IH]; [done|]. cbn [flat_map]. rewrite length_app, IH. simpl. lia. }
  cbv zeta. by rewrite Hflat, Hfold.
Qed.

(** X1.  The generator of part_002 and part_004 signs with every secret
    but the empty one.  With a secret that is not empty it returns the
    HMAC-SHA-1 of the sorted parameter string under the secret, written
    in hexadecimal: 40 characters, each one of 0-9 and a-f.  With the
    empty secret importKey refuses the key and the generator throws; no
    signature is returned. *)
Theorem hmac_signature_is_lowercase_hex (params : JS.Record_) (env : Env) :
  Forall (λ generate : JS.Record_ → Env → Completion string,
            match generate params env with
            | Return signature =>
                CLOUDINARY_API_SECRET env ≠ ""
                ∧ signature = JS.hex (WebCrypto.hmac_sign WebCrypto.SHA_1
                                        (JS.encode (CLOUDINARY_API_SECRET env))
                                        (JS.encode (CorsWorker.queryString params)))
                ∧ JS.every JS.is_lower_hex signature = true
                ∧ String.length signature = 40%nat
            | Throw _ => CLOUDINARY_API_SECRET env = ""
            end)
    [CorsWorker.generateCloudinarySignature; NameWorker.generateCloudinarySignature].
Proof.
  assert (match CorsWorker.generateCloudinarySignature params env with
          | Return signature =>
              CLOUDINARY_API_SECRET env ≠ ""
              ∧ signature = JS.hex (WebCrypto.hmac_sign WebCrypto.SHA_1
                                      (JS.encode (CLOUDINARY_API_SECRET env))
                                      (JS.encode (CorsWorker.queryString params)))
              ∧ JS.every JS.is_lower_hex signature = true
              ∧ String.length signature = 40%nat
          | Throw _ => CLOUDINARY_API_SECRET env = ""
          end) as Hgen.
  { rewrite cors_signature.
    destruct (CLOUDINARY_API_SECRET env) as [|c secret] eqn:Hs; [done|].
    cbn [JS.truthy]. split_and!; [done|done| |].
    - apply hex_lower, digest_bytes.
    - rewrite hex_length. unfold WebCrypto.hmac_sign. cbn [WebCrypto.digest].
      by rewrite sha1_length. }
  repeat constructor; exact Hgen.
Qed.

(** X2.  A counter that holds a number from 0 to 100 holds one again after
    any request: a live counter below 100 goes up by one, a counter that
    has run out starts again at 1, and a live counter at 100 refuses the
    request and is left as it is. *)
Theorem counter_stays_within_maximum (req : Http.Request) (now : Z) (w : World) (n e : Z) :
  FLAG_CACHE w !! Worker.rateLimitKey req = Some {| KV.value := pretty n; KV.expiration := e |} →
  0 ≤ n ≤ Worker.RATE_LIMIT_MAX →
  let out := Worker.isRateLimited req now w in
  (∃ n', FLAG_CACHE out.2 !! Worker.rateLimitKey req
           = Some {| KV.value := pretty n';
                     KV.expiration := if out.1 then e else now + 1000 * Worker.RATE_LIMIT_WINDOW_SEC |}
         ∧ 1 ≤ n' ≤ Worker.RATE_LIMIT_MAX
         ∧ n' = if out.1 then n else if bool_decide (now < e) then n + 1 else 1)
  ∧ (out.1 = true ↔ now < e ∧ n = Worker.RATE_LIMIT_MAX)
  ∧ (out.1 = true → out.2 = w).
Proof.
  intros Hk Hn out. unfold out, Worker.RATE_LIMIT_MAX in *.
  rewrite worker_isRateLimited_check.
  destruct (decide (now < e)) as [Hlive|Hdead].
  - rewrite (rate_check_live _ now w n e Hk) by lia.
    rewrite (bool_decide_true (now < e)) by done.
    case_bool_decide; cbn [fst snd].
    + split; [|split; [split; [lia|done]|done]].
      exists n. split; [done|split; [lia|done]].
    + split; [|split; [split; [done|lia]|done]].
      exists (n + 1). split; [apply lookup_insert_eq|split; [lia|done]].
  - rewrite rate_check_fresh.
    2:{ unfold KV.get. rewrite Hk. simpl. by rewrite bool_decide_false. }
    rewrite (bool_decide_false (now < e)) by done. cbn [fst snd].
    split; [|split; [split; [done|lia]|done]].
    exists 1. split; [apply lookup_insert_eq|split; [lia|done]].
Qed.

Lemma counter_stays_within_maximum_witness :
  (Worker.isRateLimited Sample.get_DE 5000
     (Worker.isRateLimited Sample.get_DE 0 Sample.empty).2).1 = true
  ↔ 5000 < 900000 ∧ 1 = Worker.RATE_LIMIT_MAX.
Proof.
  refine (proj1 (proj2 (counter_stays_within_maximum Sample.get_DE 5000
    (Worker.isRateLimited Sample.get_DE 0 Sample.empty).2 1 900000 _ _))).
  - by vm_compute.
  - unfold Worker.RATE_LIMIT_MAX. lia.
Defined.

Lemma name_isRateLimited_check (req : Http.Request) (t : Z) (w : World) :
  NameWorker.isRateLimited req t w = rate_check (NameWorker.getRateLimitKey req) t w.
Proof. reflexivity. Qed.

(** X3.  In part_004 the counter key is made of the client address alone:
    requests from one address share one counter whatever their
    User-Agent.  When one of them has had its 100 requests within 900
    seconds, the next request of the other within those 900 seconds is
    refused. *)
Theorem one_counter_per_address (req1 req2 : Http.Request) (w : World) (t0 : Z) (ts : list Z) :
  Http.headers_get "CF-Connecting-IP" (Http.headers req1)
    = Http.headers_get "CF-Connecting-IP" (Http.headers req2) →
  NameWorker.getRateLimitKey req1 = NameWorker.getRateLimitKey req2
  ∧ (KV.get (FLAG_CACHE w) t0 (NameWorker.getRateLimitKey req1) = None →
     Forall (λ t, t0 ≤ t < t0 + 1000 * NameWorker.RATE_LIMIT_WINDOW_SEC) ts →
     length ts = 99%nat →
     let run := serve (NameWorker.isRateLimited req1) (t0 :: ts) w in
     run.1 = replicate 100 false
     ∧ ∀ t, t0 ≤ t < t0 + 1000 * NameWorker.RATE_LIMIT_WINDOW_SEC →
         NameWorker.isRateLimited req2 t run.2 = (true, run.2)).
Proof.
  intros Hip.
  assert (NameWorker.getRateLimitKey req1 = NameWorker.getRateLimitKey req2) as Hkey.
  { unfold NameWorker.getRateLimitKey. by rewrite Hip. }
  split; [done|]. intros Hnone Hts Hlen run.
  change (1000 * NameWorker.RATE_LIMIT_WINDOW_SEC) with 900000 in *.
  destruct (serve_fresh_window (NameWorker.getRateLimitKey req1) t0 ts w Hnone Hts)
    as (w' & Hrun & Hkv & _); [lia|].
  assert (run = (replicate 100 false, w')) as ->.
  { unfold run. rewrite (serve_ext _ (rate_check (NameWorker.getRateLimitKey req1)))
      by apply name_isRateLimited_check.
    by rewrite Hrun, Hlen. }
  split; [done|]. intros t Ht. cbn [snd].
  rewrite name_isRateLimited_check, <-Hkey.
  pose proof (last_in_window t0 ts Hts) as Hlatest.
  rewrite (rate_check_live _ t w' (Z.of_nat (S (length ts))) (List.last ts t0 + 900000)).
  - rewrite bool_decide_true by lia. done.
  - rewrite Hkv. apply lookup_insert_eq.
  - lia.
  - lia.
Qed.

Lemma one_counter_per_address_witness :
  NameWorker.getRateLimitKey Sample.get_DE
  = NameWorker.getRateLimitKey
      {| Http.method := "GET"; Http.pathname := "/api/getFlag"; Http.searchParams := [];
         Http.headers := [("cf-connecting-ip", "203.0.113.7"); ("User-Agent", "Mozilla/5.0")] |}.
Proof.
  refine (proj1 (one_counter_per_address Sample.get_DE
    {| Http.method := "GET"; Http.pathname := "/api/getFlag"; Http.searchParams := [];
       Http.headers := [("cf-connecting-ip", "203.0.113.7"); ("User-Agent", "Mozilla/5.0")] |}
    Sample.empty 0 [] _)).
  reflexivity.
Defined.

(** ** The answers of the first document and of part_002 *)

Lemma flag_key_inj (a b : string) : "flag_" +:+ a = "flag_" +:+ b → a = b.
Proof. intros H. by simplify_eq. Qed.

Lemma kv_get_some (kv : gmap string KV.Entry) (t : Z) (key u : string) :
  KV.get kv t key = Some u →
  ∃ e, kv !! key = Some e ∧ KV.value e = u ∧ t < KV.expiration e.
Proof.
  unfold KV.get. destruct (kv !! key) as [e|]; [|done].
  case_bool_decide; [|done]. intros [= <-]. by exists e.
Qed.

Lemma default_truthy (o : option string) :
  JS.truthy (default "" o) = true → ∃ u, o = Some u ∧ JS.truthy u = true.
Proof. destruct o as [u|]; [|done]. intros Hu. by exists u. Qed.

Lemma worker_admitted_cache (req : Http.Request) (t : Z) (w w1 : World) (b : bool) :
  Worker.isRateLimited req t w = (b, w1) →
  events w1 = events w
  ∧ ∀ country, FLAG_CACHE w1 !! ("flag_" +:+ country) = FLAG_CACHE w !! ("flag_" +:+ country).
Proof.
  intros Hrl. change w1 with (b, w1).2. rewrite <-Hrl, worker_isRateLimited_check. split.
  - apply rate_check_events.
  - intros country. apply rate_check_other, worker_key_not_flag.
Qed.

Lemma signed_entries_put (env : Env) (country : string) (t : Z) (w : World) :
  signed_entries env w →
  signed_entries env
    (kv_put ("flag_" +:+ country) (Http.URL_toString (Worker.cloudinaryUrl country env t))
       Worker.TTL_SECONDS t w).
Proof.
  intros Hinv c e. unfold kv_put, KV.put. cbn [FLAG_CACHE].
  destruct (decide (c = country)) as [->|Hne].
  - rewrite lookup_insert_eq. intros [= <-]. by exists t.
  - rewrite lookup_insert_ne by (intros Heq; apply Hne; symmetry; by apply flag_key_inj).
    apply Hinv.
Qed.

Lemma signed_entries_ext (env : Env) (w w' : World) :
  (∀ country, FLAG_CACHE w' !! ("flag_" +:+ country) = FLAG_CACHE w !! ("flag_" +:+ country)) →
  signed_entries env w → signed_entries env w'.
Proof. intros Heq Hinv c e. rewrite Heq. apply Hinv. Qed.

Lemma seconds_not_past (t0 now : Z) :
  now < t0 + 1000 * (12 * 60 * 60) → now / 1000 ≤ t0 / 1000 + 12 * 60 * 60.
Proof.
  intros H.
  assert (now / 1000 ≤ (t0 + 1000 * 43200) / 1000) by (apply Z.div_le_mono; lia).
  replace ((t0 + 1000 * 43200) / 1000) with (t0 / 1000 + 43200) in *; [lia|].
  rewrite (Z.mul_comm 1000), Z.div_add by lia. done.
Qed.

Lemma worker_fetchAndCacheFlag_eq (country : string) (env : Env) (now : Z) (w : World) :
  let u := Http.URL_toString (Worker.cloudinaryUrl country env now) in
  Worker.fetchAndCacheFlag country env now w
  = (u, kv_put ("flag_" +:+ country) u Worker.TTL_SECONDS now (emit (OriginFetcherCall country) w)).
Proof.
  intros u. subst u. unfold Worker.fetchAndCacheFlag, Worker.fetchFromCloudinary.
  by rewrite (worker_cloudinaryUrl_truthy country env now).
Qed.

(** X5.  The handler of the first document answers every request without
    the origin: 429 when the rate limiter refuses, 400 when the country
    parameter is not valid, and 200 otherwise, and exactly the 200 answers
    carry a URL, which is not empty.  Nothing is sent over the network,
    and 500 is never the answer: the URL is signed and returned whether
    or not the origin holds a flag for the code. *)
Theorem worker_answers_without_the_origin (req : Http.Request) (env : Env) (now : Z) (w : World) :
  let out := Worker.handleGetFlag req env now w in
  Http.status out.1
  = (if (Worker.isRateLimited req now w).1 then 429
     else if Worker.validateQueryParams req is Some _ then 400 else 200)
  ∧ network_fetches out.2 = network_fetches w
  ∧ (Http.status out.1 = 200 ↔ ∃ u, secureUrl_of out.1 = Some u ∧ JS.truthy u = true).
Proof.
  intros out. subst out. unfold Worker.handleGetFlag.
  destruct (Worker.isRateLimited req now w) as [b w1] eqn:Hrl.
  destruct (worker_admitted_cache _ _ _ _ _ Hrl) as [Hev _].
  assert (network_fetches w1 = network_fetches w) as Hnet
    by (unfold network_fetches; by rewrite Hev).
  cbn [fst]. destruct b.
  { split_and!; [done|done|]. split; [done|]. by intros (u & [=] & _). }
  destruct (Worker.validateQueryParams req) as [msg|].
  { split_and!; [done|done|]. split; [done|]. by intros (u & [=] & _). }
  set (country := default "" (Worker.country_param req)).
  destruct (JS.truthy (default "" (KV.get _ _ _))) eqn:Hc.
  - cbn [fst snd]. split_and!; [done| |].
    + unfold Worker.backgroundRefresh. rewrite worker_fetchAndCacheFlag_eq.
      rewrite (worker_cloudinaryUrl_truthy country env now).
      by rewrite !network_fetches_kv_put, network_fetches_fetcher_call.
    + split; [|done]. intros _. eexists. by split.
  - rewrite worker_fetchAndCacheFlag_eq.
    rewrite (worker_cloudinaryUrl_truthy country env now). cbn [negb fst snd].
    split_and!; [done| |].
    + by rewrite !network_fetches_kv_put, network_fetches_fetcher_call.
    + split; [|done]. intros _. eexists. split; [done|].
      apply worker_cloudinaryUrl_truthy.
Qed.

(** X6.  In a namespace whose flag entries the first document wrote
    (each holds the URL signed for the country of its key at some time t0
    and runs out 12 hours after t0), every URL the handler returns was
    signed for the requested country with a timestamp that has not
    passed: the second of the request is not after the timestamp in the
    URL.  The handler leaves the namespace in that state. *)
Theorem worker_serves_unexpired_urls (req : Http.Request) (env : Env) (now : Z) (w : World) :
  signed_entries env w →
  let out := Worker.handleGetFlag req env now w in
  let country := default "" (Worker.country_param req) in
  signed_entries env out.2
  ∧ ∀ u, secureUrl_of out.1 = Some u →
      ∃ t0, u = Http.URL_toString (Worker.cloudinaryUrl country env t0)
            ∧ now / 1000 ≤ Worker.expiresAt t0.
Proof.
  intros Hinv out country. subst out. unfold Worker.handleGetFlag.
  destruct (Worker.isRateLimited req now w) as [b w1] eqn:Hrl.
  destruct (worker_admitted_cache _ _ _ _ _ Hrl) as [_ Hkv].
  pose proof (signed_entries_ext env w w1 Hkv Hinv) as Hinv1.
  destruct b; [by split|].
  destruct (Worker.validateQueryParams req) as [msg|]; [by split|].
  fold country.
  destruct (JS.truthy (default "" (KV.get _ _ _))) eqn:Hc.
  - apply default_truthy in Hc as (u & Hget & Hu). rewrite Hget.
    change (default "" (Some u)) with u. cbn [fst snd]. split.
    + unfold Worker.backgroundRefresh. rewrite worker_fetchAndCacheFlag_eq.
      rewrite (worker_cloudinaryUrl_truthy country env now).
      apply signed_entries_put, signed_entries_put.
      intros c e. apply Hinv1.
    + intros u' [= <-].
      apply kv_get_some in Hget as (e & He & Hval & Hlive).
      destruct (Hinv1 country e He) as (t0 & Hurl & Hexp).
      exists t0. split; [congruence|].
      unfold Worker.expiresAt, Worker.TTL_SECONDS in *. apply seconds_not_past. lia.
  - rewrite worker_fetchAndCacheFlag_eq.
    rewrite (worker_cloudinaryUrl_truthy country env now). cbn [negb fst snd]. split.
    + apply signed_entries_put. intros c e. apply Hinv1.
    + intros u' [= <-]. exists now. split; [done|].
      unfold Worker.expiresAt, Worker.TTL_SECONDS. lia.
Qed.

Lemma worker_serves_unexpired_urls_witness :
  let w1 := (Worker.handleGetFlag Sample.get_DE Sample.env 0 Sample.empty).2 in
  let answer := (Worker.handleGetFlag Sample.get_DE Sample.env 1000 w1).1 in
  ∃ t0, default "" (secureUrl_of answer)
        = Http.URL_toString (Worker.cloudinaryUrl "DE" Sample.env t0)
        ∧ 1000 / 1000 ≤ Worker.expiresAt t0.
Proof.
  intros w1 answer.
  refine (proj2 (worker_serves_unexpired_urls Sample.get_DE Sample.env 1000 w1 _)
            (default "" (secureUrl_of answer)) _).
  - refine (proj1 (worker_serves_unexpired_urls Sample.get_DE Sample.env 0 Sample.empty _)).
    intros country e He. unfold Sample.empty in He. cbn [FLAG_CACHE] in He.
    by rewrite lookup_empty in He.
  - by vm_compute.
Defined.




(** ** The country parameters that pass validation *)

Lemma upper_char_cases (c : ascii) :
  (JS.upper_char c = "SS" ∧ (JS.code c =? 223) = true ∧ is_ascii_letter c = false)
  ∨ (∃ d, JS.upper_char c = String d EmptyString ∧ JS.is_AZ d = is_ascii_letter c
          ∧ (JS.code c =? 223) = false).
Proof.
  assert ((if JS.code c =? 223
           then String.eqb (JS.upper_char c) "SS" && negb (is_ascii_letter c)
           else match JS.upper_char c with
                | String d EmptyString => Bool.eqb (JS.is_AZ d) (is_ascii_letter c)
                | _ => false
                end) = true) as Hcheck.
  { destruct c as [[] [] [] [] [] [] [] []]; vm_compute; reflexivity. }
  destruct (JS.code c =? 223).
  - left. apply andb_true_iff in Hcheck as [Hup Hl].
    apply String.eqb_eq in Hup. apply negb_true_iff in Hl. done.
  - right. destruct (JS.upper_char c) as [|d [|? ?]]; [done| |done].
    exists d. apply Bool.eqb_prop in Hcheck. done.
Qed.

Lemma toUpperCase_cons (c : ascii) (s : string) :
  JS.toUpperCase (String c s) = JS.upper_char c +:+ JS.toUpperCase s.
Proof. done. Qed.

Lemma toUpperCase_empty (s : string) : JS.toUpperCase s = "" → s = "".
Proof.
  destruct s as [|c s]; [done|]. rewrite toUpperCase_cons.
  by destruct (upper_char_cases c) as [(-> & _)|(d & -> & _)].
Qed.

Lemma two_upper_accepted (c : string) :
  JS.truthy (JS.toUpperCase c) && JS.test_two_upper (JS.toUpperCase c) = accepted_country c.
Proof.
  destruct c as [|a r]; [done|]. rewrite toUpperCase_cons.
  destruct (upper_char_cases a) as [(-> & Ha & Hl)|(d & -> & Hd & Ha)].
  - change ("SS" +:+ ?s) with (String "S" (String "S" s)).
    destruct r as [|b r].
    + simpl. by rewrite Ha.
    + rewrite toUpperCase_cons. cbn [accepted_country]. rewrite Hl.
      destruct (upper_char_cases b) as [(-> & _)|(d & -> & _)]; by destruct r.
  - change (String d "" +:+ ?s) with (String d s).
    destruct r as [|b r]; [simpl; by rewrite Ha|].
    rewrite toUpperCase_cons. cbn [JS.truthy andb accepted_country].
    destruct (upper_char_cases b) as [(-> & Hb & Hlb)|(d' & -> & Hd' & Hb)].
    + change ("SS" +:+ ?s) with (String "S" (String "S" s)). cbn [JS.test_two_upper].
      rewrite Hlb, andb_false_r. by destruct r.
    + change (String d' "" +:+ ?s) with (String d' s). cbn [JS.test_two_upper].
      destruct r as [|c r]; [by rewrite Hd, Hd'|].
      destruct (JS.toUpperCase (String c r)) eqn:Hu; [|done].
      by apply toUpperCase_empty in Hu.
Qed.

(** X8.  validateQueryParams accepts exactly the country parameters of
    two letters A-Z or a-z, in either case, and the parameter that is the
    sharp s alone (code unit 223), which toUpperCase turns into SS.
    Every other parameter, and a missing one, is refused. *)
Theorem accepted_country_parameters (req : Http.Request) :
  Worker.validateQueryParams req = None
  ↔ ∃ c, Http.params_get "country" (Http.searchParams req) = Some c
         ∧ accepted_country c = true.
Proof.
  unfold Worker.validateQueryParams, Worker.country_param.
  destruct (Http.params_get "country" (Http.searchParams req)) as [c|]; simpl.
  - rewrite two_upper_accepted. destruct (accepted_country c) eqn:Hc.
    + split; [|done]. intros _. by exists c.
    + split; [done|]. intros (c' & [= <-] & ?). congruence.
  - split; [done|]. by intros (c' & [=] & _).
Qed.

Lemma accepted_country_parameters_witness :
  Worker.validateQueryParams (Sample.get [("country", String (JS.chr 223) EmptyString)]) = None.
Proof.
  apply (proj2 (accepted_country_parameters
                  (Sample.get [("country", String (JS.chr 223) EmptyString)]))).
  eexists. split; reflexivity.
Defined.

(** ** Country names in part_004 *)

Lemma test_two_upper_accepted (c : string) :
  JS.test_two_upper (JS.toUpperCase c) = accepted_country c.
Proof.
  rewrite <-two_upper_accepted.
  by destruct (JS.toUpperCase c).
Qed.


Lemma network_fetches_emit_error (text : string) (w : World) :
  network_fetches (emit (ConsoleError text) w) = network_fetches w.
Proof. unfold emit. rewrite network_fetches_app. simpl. lia. Qed.


(** On a string whose upper-case form stays below 256 the code units of
    the JavaScript value are those of [JS.toUpperCase], and the address
    of the lookup is the one encodeURIComponent gives for that string. *)
Lemma units_app (a b : string) : JS.units (a +:+ b) = JS.units a ++ JS.units b.
Proof. induction a as [|c a IH]; [done|]. simpl. by rewrite IH. Qed.

Lemma toUpperCaseUnits_fits (s : string) :
  JS.upper_fits s = true → JS.toUpperCaseUnits s = JS.units (JS.toUpperCase s).
Proof.
  induction s as [|c s IH]; [done|]. cbn [JS.upper_fits].
  intros [Hc Hs]%andb_true_iff. apply negb_true_iff, orb_false_iff in Hc as [H181 H255].
  cbn [JS.toUpperCaseUnits JS.toUpperCase]. rewrite units_app, IH by done.
  unfold JS.upper_units. by rewrite H181, H255.
Qed.

Lemma encode_units_string (s : string) : JS.encode_units (JS.units s) = JS.encode s.
Proof.
  induction s as [|c s IH]; [done|].
  change (JS.encode_units (JS.units (String c s)))
    with (JS.encode_unit (JS.code c) ++ JS.encode_units (JS.units s)).
  by rewrite IH.
Qed.

Lemma lookup_href_fits (countryParam : string) :
  JS.upper_fits (JS.trim countryParam) = true →
  lookup_href countryParam
  = "https://restcountries.com/v3.1/name/"
      +:+ NameWorker.encodeURIComponent (JS.toUpperCase (JS.trim countryParam)).
Proof.
  intros Hfits. unfold lookup_href, NameWorker.encodeURIComponentUnits.
  by rewrite toUpperCaseUnits_fits, encode_units_string.
Qed.

(** The micro sign and y with diaeresis go to the service as U+039C and
    U+0178. *)
Example lookup_href_above_255 :
  lookup_href (String (JS.chr 181) EmptyString) = "https://restcountries.com/v3.1/name/%CE%9C"
  ∧ lookup_href (String (JS.chr 255) EmptyString) = "https://restcountries.com/v3.1/name/%C5%B8"
  ∧ lookup_href " Germany " = "https://restcountries.com/v3.1/name/GERMANY".
Proof. split_and!; by vm_compute. Qed.


Lemma name_admitted_cache (req : Http.Request) (t : Z) (w w1 : World) (b : bool) :
  NameWorker.isRateLimited req t w = (b, w1) →
  events w1 = events w
  ∧ ∀ country, FLAG_CACHE w1 !! ("flag_" +:+ country) = FLAG_CACHE w !! ("flag_" +:+ country).
Proof.
  intros Hrl. change w1 with (b, w1).2. rewrite <-Hrl, name_isRateLimited_check. split.
  - apply rate_check_events.
  - intros country. apply rate_check_other. unfold NameWorker.getRateLimitKey. simpl. discriminate.
Qed.

(** X10.  In part_004 the cache is keyed by the code a name resolves to.
    A request by name that the rate limiter lets through, whose name the
    service resolves to a code (of characters whose upper-case forms stay
    below 256) whose upper-case form has a live entry, is answered 200
    with the URL cached for that code; exactly one request is sent for
    it, the lookup, and none goes to the origin. *)
Theorem name_request_is_served_from_the_entry_of_its_code
    (net : string → FetchResult) (names : string → NameWorker.LookupResult)
    (req : Http.Request) (env : Env) (now : Z) (w : World) (countryParam code u : string) :
  (NameWorker.isRateLimited req now w).1 = false →
  Http.params_get "country" (Http.searchParams req) = Some countryParam →
  JS.truthy countryParam = true →
  accepted_country (JS.trim countryParam) = false →
  names (lookup_href countryParam) = NameWorker.Cca2 code →
  JS.truthy code = true →
  JS.upper_fits code = true →
  KV.get (FLAG_CACHE w) now ("flag_" +:+ JS.toUpperCase code) = Some u →
  JS.truthy u = true →
  let out := NameWorker.handleGetFlag net names req env now w in
  out.1 = NameWorker.createJsonResponse (NameWorker.succeeded u) 200
  ∧ events out.2 = events w ++ [NetworkFetch (lookup_href countryParam)].
Proof.
  intros Hadm Hp Htruthy Hname Hlookup Hcode Hfits Hhit Hu out. subst out.
  unfold NameWorker.handleGetFlag.
  destruct (NameWorker.isRateLimited req now w) as [b w1] eqn:Hrl. simpl in Hadm. subst b.
  destruct (name_admitted_cache _ _ _ _ _ Hrl) as [Hev Hkv].
  rewrite Hp. change (default "" (Some countryParam)) with countryParam.
  rewrite Htruthy. cbn [negb].
  unfold NameWorker.atomMiddleware. rewrite test_two_upper_accepted, Hname.
  fold (lookup_href countryParam). rewrite Hlookup, Hcode.
  change (default "" (Some ?x)) with x.
  assert (JS.truthy (JS.toUpperCase code) = true) as ->.
  { destruct (JS.toUpperCase code) eqn:Hup; [|done].
    apply toUpperCase_empty in Hup. by subst code. }
  cbn [negb].
  assert (KV.get (FLAG_CACHE (emit (NetworkFetch (lookup_href countryParam)) w1)) now
            ("flag_" +:+ JS.toUpperCase code) = Some u) as ->.
  { rewrite <-Hhit. apply kv_get_lookup. apply Hkv. }
  change (default "" (Some u)) with u. rewrite Hu. cbn [fst snd].
  split; [done|]. unfold emit. cbn [events]. by rewrite Hev.
Qed.

Lemma name_request_is_served_from_the_entry_of_its_code_witness :
  (NameWorker.handleGetFlag Sample.reachable Sample.names_de Sample.get_Germany Sample.env 1000 Sample.cached_DE).1
  = NameWorker.createJsonResponse
      (NameWorker.succeeded "https://res.cloudinary.com/demo/DE") 200.
Proof.
  refine (proj1 (name_request_is_served_from_the_entry_of_its_code Sample.reachable Sample.names_de
                   Sample.get_Germany Sample.env 1000 Sample.cached_DE "Germany" "de"
                   "https://res.cloudinary.com/demo/DE" _ _ _ _ _ _ _ _ _)).
  - by vm_compute.
  - reflexivity.
  - reflexivity.
  - by vm_compute.
  - reflexivity.
  - reflexivity.
  - reflexivity.
  - by vm_compute.
  - reflexivity.
Defined.

(** X11.  When the request to the country-name service fails, part_004
    answers a request by name with 400, User error, Invalid country name
    or code, whether or not a flag for the country is cached.  The origin
    fetcher is not called, and no flag entry changes. *)
Theorem lookup_failure_is_answered_400
    (net : string → FetchResult) (names : string → NameWorker.LookupResult)
    (req : Http.Request) (env : Env) (now : Z) (w : World) (countryParam text : string) :
  (NameWorker.isRateLimited req now w).1 = false →
  Http.params_get "country" (Http.searchParams req) = Some countryParam →
  JS.truthy countryParam = true →
  accepted_country (JS.trim countryParam) = false →
  names (lookup_href countryParam) = NameWorker.LookupFailure text →
  let out := NameWorker.handleGetFlag net names req env now w in
  out.1 = NameWorker.createJsonResponse
            (NameWorker.failed "User error" "Invalid country name or code.") 400
  ∧ fetcher_calls out.2 = fetcher_calls w
  ∧ ∀ country, FLAG_CACHE out.2 !! ("flag_" +:+ country) = FLAG_CACHE w !! ("flag_" +:+ country).
Proof.
  intros Hadm Hp Htruthy Hname Hlookup out. subst out.
  unfold NameWorker.handleGetFlag.
  destruct (NameWorker.isRateLimited req now w) as [b w1] eqn:Hrl. simpl in Hadm. subst b.
  destruct (name_admitted_cache _ _ _ _ _ Hrl) as [Hev Hkv].
  rewrite Hp. change (default "" (Some countryParam)) with countryParam.
  rewrite Htruthy. cbn [negb].
  unfold NameWorker.atomMiddleware. rewrite test_two_upper_accepted, Hname.
  fold (lookup_href countryParam). rewrite Hlookup.
  cbn [default from_option JS.truthy negb fst snd]. split_and!; [done| |].
  - unfold fetcher_calls, emit. cbn [events]. rewrite Hev, !List.filter_app, !length_app.
    simpl. lia.
  - intros country. apply Hkv.
Qed.

Lemma lookup_failure_is_answered_400_witness :
  Http.status
    (NameWorker.handleGetFlag Sample.reachable Sample.names_down Sample.get_Germany Sample.env 1000 Sample.cached_DE).1
  = 400.
Proof.
  refine (f_equal Http.status
            (proj1 (lookup_failure_is_answered_400 Sample.reachable Sample.names_down Sample.get_Germany
                      Sample.env 1000 Sample.cached_DE "Germany" "TypeError: fetch failed" _ _ _ _ _))).
  - by vm_compute.
  - reflexivity.
  - reflexivity.
  - by vm_compute.
  - reflexivity.
Defined.

(** ** Failures of the origin *)

(** atomMiddleware writes nothing to the namespace, and a code it returns
    is not empty. *)
Lemma atomMiddleware_cache (names : string → NameWorker.LookupResult)
    (countryParam : string) (w : World) :
  FLAG_CACHE (NameWorker.atomMiddleware names countryParam w).2 = FLAG_CACHE w.
Proof.
  unfold NameWorker.atomMiddleware.
  destruct (JS.test_two_upper _); [done|].
  destruct (names _) as [code| |text]; [|done|done].
  by destruct (JS.truthy code).
Qed.

Lemma atomMiddleware_truthy (names : string → NameWorker.LookupResult)
    (countryParam country : string) (w : World) :
  (NameWorker.atomMiddleware names countryParam w).1 = Some country →
  JS.truthy country = true.
Proof.
  unfold NameWorker.atomMiddleware.
  destruct (JS.test_two_upper _) eqn:Htest.
  - intros [= <-]. by destruct (JS.toUpperCase _) as [|a [|b [|]]].
  - destruct (names _) as [code| |text]; [|done|done].
    destruct (JS.truthy code) eqn:Hcode; [|done]. intros [= <-].
    destruct (JS.toUpperCase code) eqn:Hup; [|done].
    apply toUpperCase_empty in Hup. by subst code.
Qed.

Lemma worker_handler_status (req : Http.Request) (env : Env) (now : Z) (w : World) :
  Http.status (Worker.handleGetFlag req env now w).1 ∈ [200; 400; 429].
Proof.
  unfold Worker.handleGetFlag.
  destruct (Worker.isRateLimited req now w) as [[] w1]; [member|].
  destruct (Worker.validateQueryParams req); [member|].
  destruct (JS.truthy (default "" (KV.get _ _ _))); [member|].
  rewrite worker_fetchAndCacheFlag_eq.
  rewrite (worker_cloudinaryUrl_truthy _ env now). member.
Qed.

(** C6, as the code has it.  Origin resolution for a two-letter code
    fails in part_004 when the secret is empty, so that no signature can
    be made, when the origin answers the verification request with a
    status that is not ok, and when that request itself fails.  In each
    case fetchAndCacheFlag comes back with the empty string and nothing
    else: the classes of failure are not told apart.  The origin fetcher ran once; the origin was
    asked once when there was a signature and not at all when there was
    none, with no retry; nothing was stored.  The handler answers every
    such failure with the same 500 response.  In the first document of
    serverCloudwareWorker.ts the origin fetcher contacts nothing and does
    not fail: fetchAndCacheFlag never comes back with the empty string,
    and the handler never answers 500. *)
Theorem origin_failure_is_an_empty_string (net : string → FetchResult)
    (country : string) (env : Env) (now : Z) (w : World) :
  JS.test_two_upper country = true →
  CLOUDINARY_API_SECRET env = ""
  ∨ resolution_failed (net (Http.URL_toString (CorsWorker.signedUrl country env now))) = true →
  let out := NameWorker.fetchAndCacheFlag net country env now w in
  out.1 = ""
  ∧ FLAG_CACHE out.2 = FLAG_CACHE w
  ∧ fetcher_calls out.2 = S (fetcher_calls w)
  ∧ network_fetches out.2
    = (network_fetches w + if JS.truthy (CLOUDINARY_API_SECRET env) then 1 else 0)%nat
  ∧ (∀ names req w0 countryParam,
       (NameWorker.isRateLimited req now w0).1 = false →
       Http.params_get "country" (Http.searchParams req) = Some countryParam →
       JS.truthy countryParam = true →
       (NameWorker.atomMiddleware names countryParam (NameWorker.isRateLimited req now w0).2).1
       = Some country →
       KV.get (FLAG_CACHE w0) now ("flag_" +:+ country) = None →
       (NameWorker.handleGetFlag net names req env now w0).1
       = NameWorker.createJsonResponse
           (NameWorker.failed "Service error" "Cloudinary fetch error") 500)
  ∧ (Worker.fetchAndCacheFlag country env now w).1 ≠ ""
  ∧ (∀ req, Http.status (Worker.handleGetFlag req env now w).1 ≠ 500).
Proof.
  intros Hcode Hfail out.
  assert (∀ w1, ∃ es,
            NameWorker.fetchAndCacheFlag net country env now w1
            = ("", {| FLAG_CACHE := FLAG_CACHE w1; events := events w1 ++ es |})
            ∧ length (List.filter is_fetcher_call es) = 1%nat
            ∧ length (List.filter is_network_fetch es)
              = if JS.truthy (CLOUDINARY_API_SECRET env) then 1%nat else 0%nat) as Hout.
  { intros w1. rewrite name_fetchAndCacheFlag_eq.
    destruct (JS.truthy (CLOUDINARY_API_SECRET env)) eqn:Hsecret; [|by eexists].
    destruct Hfail as [Hempty|Hfail]; [by rewrite Hempty in Hsecret|].
    destruct (net _) as [code|text]; [|by eexists].
    cbn [resolution_failed] in Hfail. apply negb_true_iff in Hfail. rewrite Hfail.
    by eexists. }
  split_and!.
  - subst out. by destruct (Hout w) as (es & -> & _).
  - subst out. by destruct (Hout w) as (es & -> & _).
  - subst out. destruct (Hout w) as (es & -> & Hcalls & _). cbn [snd].
    rewrite fetcher_calls_app. lia.
  - subst out. destruct (Hout w) as (es & -> & _ & Hsent). cbn [snd].
    rewrite network_fetches_app. lia.
  - intros names req w0 countryParam Hadm Hp Htruthy Hatom Hmiss.
    unfold NameWorker.handleGetFlag.
    destruct (NameWorker.isRateLimited req now w0) as [b w1] eqn:Hrl.
    simpl in Hadm. subst b. cbn [snd] in Hatom.
    destruct (name_admitted_cache _ _ _ _ _ Hrl) as [_ Hkv].
    rewrite Hp. change (default "" (Some countryParam)) with countryParam.
    rewrite Htruthy. cbn [negb].
    pose proof (atomMiddleware_cache names countryParam w1) as Hcache.
    pose proof (atomMiddleware_truthy names countryParam country w1 Hatom) as Hcountry.
    destruct (NameWorker.atomMiddleware names countryParam w1) as [c w2].
    cbn [fst snd] in Hatom, Hcache. subst c.
    change (default "" (Some country)) with country. rewrite Hcountry. cbn [negb].
    assert (KV.get (FLAG_CACHE w2) now ("flag_" +:+ country) = None) as ->.
    { rewrite <-Hmiss, Hcache. apply kv_get_lookup, Hkv. }
    change (JS.truthy (default "" None)) with false. cbv iota.
    by destruct (Hout w2) as (es & -> & _).
  - rewrite worker_fetchAndCacheFlag_eq. cbn [fst]. intros Hu.
    pose proof (worker_cloudinaryUrl_truthy country env now) as Htruthy.
    by rewrite Hu in Htruthy.
  - intros req H500. pose proof (worker_handler_status req env now w) as Hstatus.
    rewrite H500 in Hstatus. rewrite !elem_of_cons, elem_of_nil in Hstatus. lia.
Qed.

Lemma origin_failure_is_an_empty_string_witness :
  (NameWorker.fetchAndCacheFlag Sample.unreachable "DE" Sample.env 0 Sample.empty).1 = "".
Proof.
  refine (proj1 (origin_failure_is_an_empty_string Sample.unreachable "DE"
                   Sample.env 0 Sample.empty _ _)).
  - reflexivity.
  - right. reflexivity.
Defined.

(** C6, as the specification has it, fails.  In part_004 an origin that
    answers 404, an origin that cannot be reached and a secret that is
    empty all make fetchAndCacheFlag come back with the bare empty
    string, and the handler gives the same answer to all three, a 500:
    the flag that does not exist is not turned into a client error.  The
    unreachable origin was asked once. *)
Lemma typed_failure_counterexample :
  let names := λ _ : string, NameWorker.NoMatch in
  let handled net env :=
    NameWorker.handleGetFlag net names Sample.get_DE env 0 Sample.empty in
  (NameWorker.fetchAndCacheFlag Sample.not_found "DE" Sample.env 0 Sample.empty).1 = ""
  ∧ (NameWorker.fetchAndCacheFlag Sample.unreachable "DE" Sample.env 0 Sample.empty).1 = ""
  ∧ (NameWorker.fetchAndCacheFlag Sample.reachable "DE" Sample.no_secret 0 Sample.empty).1 = ""
  ∧ (handled Sample.not_found Sample.env).1 = (handled Sample.unreachable Sample.env).1
  ∧ (handled Sample.not_found Sample.env).1 = (handled Sample.reachable Sample.no_secret).1
  ∧ Http.status (handled Sample.not_found Sample.env).1 = 500
  ∧ network_fetches (handled Sample.unreachable Sample.env).2 = 1%nat.
Proof. split_and!; by vm_compute. Qed.

(** ** The preflight in the first document *)

Lemma worker_handler_headers (req : Http.Request) (env : Env) (now : Z) (w : World) :
  Http.res_headers (Worker.handleGetFlag req env now w).1 = [("Content-Type", "application/json")].
Proof.
  unfold Worker.handleGetFlag.
  destruct (Worker.isRateLimited req now w) as [[] w1]; [done|].
  destruct (Worker.validateQueryParams req); [done|].
  destruct (JS.truthy (default "" (KV.get _ _ _))); [done|].
  destruct (Worker.fetchAndCacheFlag _ _ _ _) as [u w2].
  by destruct (negb (JS.truthy u)).
Qed.

(** C9.  The code does not do what the specification says.  The first
    document of serverCloudwareWorker.ts has no branch for OPTIONS and
    its createJsonResponse sets the content type alone.  The preflight
    request a browser sends before a cross-origin GET for the flag of DE
    is handled as that GET would be: it is counted by the rate limiter
    and answered 200 with a signed URL, not 204, and the answer carries
    no cross-origin header.  No request gets 204 from this revision, and
    no response of it carries Access-Control-Allow-Origin.  part_002 and
    part_004 answer the same preflight request 204 with the three
    cross-origin headers and write nothing. *)
Theorem first_document_answers_no_preflight :
  let out := Worker.fetch Sample.preflight_DE Sample.env 0 Sample.empty in
  Http.method Sample.preflight_DE = "OPTIONS"
  ∧ Http.status out.1 = 200
  ∧ Http.res_headers out.1 = [("Content-Type", "application/json")]
  ∧ is_Some (secureUrl_of out.1)
  ∧ KV.get (FLAG_CACHE out.2) 0 (Worker.rateLimitKey Sample.preflight_DE) = Some "1"
  ∧ (∀ req env now w,
       Http.status (Worker.fetch req env now w).1 ∈ [200; 400; 429; 404]
       ∧ Http.headers_get "Access-Control-Allow-Origin"
           (Http.res_headers (Worker.fetch req env now w).1) = None)
  ∧ CorsWorker.fetch Sample.reachable Sample.preflight_DE Sample.env 0 Sample.empty
    = (CorsWorker.preflight, Sample.empty)
  ∧ NameWorker.handleRequest Sample.reachable Sample.names_de Sample.preflight_DE Sample.env 0
      Sample.empty
    = (CorsWorker.preflight, Sample.empty)
  ∧ Http.status CorsWorker.preflight = 204
  ∧ Http.headers_get "Access-Control-Allow-Origin" (Http.res_headers CorsWorker.preflight)
    = Some "*".
Proof.
  intros out.
  assert (∀ req env now w,
            Http.status (Worker.fetch req env now w).1 ∈ [200; 400; 429; 404]
            ∧ Http.headers_get "Access-Control-Allow-Origin"
                (Http.res_headers (Worker.fetch req env now w).1) = None) as Hall.
  { intros req env now w. unfold Worker.fetch.
    destruct (String.eqb _ _); [|split; [member|done]].
    rewrite worker_handler_headers. split; [|done].
    pose proof (worker_handler_status req env now w) as Hstatus.
    rewrite !elem_of_cons in Hstatus. rewrite !elem_of_cons. tauto. }
  split_and!; [by vm_compute|by vm_compute|by vm_compute|vm_compute; by eexists
              |by vm_compute|exact Hall|by vm_compute|by vm_compute|done|done].
Qed.

(** ** The express servers *)

Lemma server_cache_get_cases (key : string) (now : Z) (st : Server.State) :
  (∃ slot, Server.cache st !! key = Some slot ∧ now - Server.start slot ≤ Server.CACHE_TTL
           ∧ Server.cache_get key now st = (Some (Server.item slot), st))
  ∨ (∃ st', Server.cache_get key now st = (None, st')
            ∧ (∀ k slot, Server.cache st' !! k = Some slot → Server.cache st !! k = Some slot)).
Proof.
  unfold Server.cache_get. destruct (Server.cache st !! key) as [slot|] eqn:Hk.
  - case_bool_decide.
    + left. by exists slot.
    + right. eexists. split; [done|]. cbn [Server.cache]. intros k slot'.
      rewrite lookup_delete_Some. by intros [_ ?].
  - right. by exists st.
Qed.

Lemma server_fetch_cache (sign : string → Z → Completion string)
    (country cacheKey : string) (res : bool) (now : Z) (st : Server.State) :
  slots_expire_after_12h st →
  slots_expire_after_12h (Server.fetchAndCacheFlag sign country cacheKey res now st).2.
Proof.
  intros Hinv. unfold Server.fetchAndCacheFlag.
  destruct (Server.ongoingFetches st !! cacheKey) as [[v|text]|]; [done|done|].
  unfold Server.fetchPromise_body.
  destruct (sign _ _) as [signedUrl|text].
  - destruct res;
      unfold Server.fetches_set, Server.fetches_delete, Server.cache_set, Server.note_signed;
      intros k slot; cbn [snd Server.cache];
      (destruct (decide (k = cacheKey)) as [->|Hne];
       [rewrite lookup_insert_eq; by intros [= <-]|rewrite lookup_insert_ne by done; apply Hinv]).
  - destruct res;
      unfold Server.fetches_set, Server.fetches_delete, Server.catchErrorResponse,
        Server.logger_error, Server.note_signed;
      intros k slot; cbn [snd Server.cache]; apply Hinv.
Qed.

(** X12.  In the express server of the third document the refresh on a
    cache hit never runs.  Every entry is set with an expiresAt 12 hours
    after the set, and the LRU cache drops an entry 12 hours less 5
    minutes after the set: an entry that cache.get returns has not
    reached its expiresAt, so the handler answers with the cached URL and
    leaves the state as it was.  The handler keeps the entries in that
    form, and it sends a response on every path. *)
Theorem background_refresh_never_runs (sign : string → Z → Completion string)
    (country : string) (now : Z) (st : Server.State) :
  slots_expire_after_12h st →
  let out := Server.getFlagHandler sign country now st in
  slots_expire_after_12h out.2
  ∧ is_Some out.1
  ∧ ∀ cachedData st', Server.cache_get ("flag_" +:+ country) now st = (Some cachedData, st') →
      out = (Some (Server.successResponse (Server.url cachedData)), st).
Proof.
  intros Hinv out. subst out. unfold Server.getFlagHandler.
  destruct (server_cache_get_cases ("flag_" +:+ country) now st)
    as [(slot & Hk & Hlive & ->)|(st' & -> & Hsub)].
  - assert (bool_decide (Server.expiresAt (Server.item slot) ≤ now) = false) as ->.
    { apply bool_decide_eq_false. rewrite (Hinv _ _ Hk). unfold Server.CACHE_TTL in Hlive. lia. }
    split_and!; [done|done|]. by intros cachedData st' [= <- <-].
  - assert (slots_expire_after_12h st') as Hinv'.
    { intros k slot Hk. by apply (Hinv k), Hsub. }
    pose proof (server_fetch_cache sign country ("flag_" +:+ country) true now st' Hinv') as Hf.
    split_and!; [| |done].
    + destruct (Server.fetchAndCacheFlag sign country _ true now st') as [[r|text] st2]; done.
    + unfold Server.fetchAndCacheFlag.
      destruct (Server.ongoingFetches st' !! _) as [[v|text]|]; [done|done|].
      destruct (Server.fetchPromise_body sign country _ now st') as [[v|text] st2]; done.
Qed.

Lemma background_refresh_never_runs_witness :
  let st1 := (Server.getFlagHandler Sample.sign_ok "DE" 0 Sample.start).2 in
  is_Some (Server.getFlagHandler Sample.sign_ok "DE" 1000 st1).1.
Proof.
  intros st1.
  refine (proj1 (proj2 (background_refresh_never_runs Sample.sign_ok "DE" 1000 st1 _))).
  refine (proj1 (background_refresh_never_runs Sample.sign_ok "DE" 0 Sample.start _)).
  intros key slot Hk. unfold Sample.start in Hk. cbn [Server.cache] in Hk.
  by rewrite lookup_empty in Hk.
Defined.

Lemma server1_cache_get_cases (key : string) (now : Z) (st : Server1.State) :
  (∃ slot, Server1.cache st !! key = Some slot
           ∧ Server1.cache_get key now st = (Some (Server.item slot), st))
  ∨ (∃ st', Server1.cache_get key now st = (None, st')
            ∧ Server1.signed st' = Server1.signed st
            ∧ (∀ k slot, Server1.cache st' !! k = Some slot → Server1.cache st !! k = Some slot)).
Proof.
  unfold Server1.cache_get. destruct (Server1.cache st !! key) as [slot|] eqn:Hk.
  - case_bool_decide.
    + left. by exists slot.
    + right. eexists. split_and!; [done|done|]. cbn [Server1.cache]. intros k slot'.
      rewrite lookup_delete_Some. by intros [_ ?].
  - right. by exists st.
Qed.

(** X13.  getFlagHandler of the second document, which runs for the
    requests that the rate limiter and the validation have let through
    (the 429 of the limiter and the 400 of the validation are given
    before it), answers 200, or 400 through the global error handler,
    and never 500.  The country is one whose upper-case form stays below
    256.  With a cache whose entries the handler wrote itself, a 200
    answer carries a URL that was signed for the upper-cased country with
    an expires_at that is not before the second of the request; and when
    cloudinary.v2.url throws, the global error handler answers 400 with
    the message Unhandled error, and nothing is stored.  The handler
    leaves the cache in that state. *)
Theorem first_server_answers_200_or_400 (sign_url : string → Z → Completion string)
    (country : string) (now : Z) (st : Server1.State) :
  signed_slots sign_url st →
  JS.upper_fits country = true →
  let out := Server1.getFlagHandler sign_url country now st in
  let filePath := "flags/" +:+ JS.toUpperCase country +:+ ".svg" in
  signed_slots sign_url out.2
  ∧ ((∃ u t0, out.1 = Server1.successResponse u
              ∧ sign_url filePath (t0 / 1000 + 12 * 60 * 60) = Return u
              ∧ now / 1000 ≤ t0 / 1000 + 12 * 60 * 60)
     ∨ (∃ text, sign_url filePath (now / 1000 + 12 * 60 * 60) = Throw text
                ∧ Http.status out.1 = 400
                ∧ Http.body out.1 = Some [("success", Http.JBool false);
                                          ("message", Http.JString "Unhandled error")]
                ∧ ∀ k slot, Server1.cache out.2 !! k = Some slot →
                            Server1.cache st !! k = Some slot)).
Proof.
  intros Hinv Hfits out filePath. subst out. unfold Server1.getFlagHandler.
  set (cacheKey := "flag_" +:+ JS.toUpperCase country).
  assert (∀ st', (∀ k slot, Server1.cache st' !! k = Some slot → Server1.cache st !! k = Some slot) →
     let out :=
       match sign_url filePath (now / 1000 + 12 * 60 * 60) with
       | Return signedUrl =>
           (Server1.successResponse signedUrl,
            Server1.cache_set cacheKey
              {| Server.url := signedUrl; Server.expiresAt := now + 12 * 60 * 60 * 1000 |}
              now (Server1.note_signed filePath st'))
       | Throw text =>
           Server1.catchErrorResponse text "Unhandled error" 400
             (Server1.console_error ("Unhandled error: " +:+ text)
                (Server1.note_signed filePath st'))
       end in
     signed_slots sign_url out.2
     ∧ ((∃ u t0, out.1 = Server1.successResponse u
                 ∧ sign_url filePath (t0 / 1000 + 12 * 60 * 60) = Return u
                 ∧ now / 1000 ≤ t0 / 1000 + 12 * 60 * 60)
        ∨ (∃ text, sign_url filePath (now / 1000 + 12 * 60 * 60) = Throw text
                   ∧ Http.status out.1 = 400
                   ∧ Http.body out.1 = Some [("success", Http.JBool false);
                                             ("message", Http.JString "Unhandled error")]
                   ∧ ∀ k slot, Server1.cache out.2 !! k = Some slot →
                               Server1.cache st !! k = Some slot))) as Hsign.
  { intros st' Hsub out.
    destruct (sign_url filePath (now / 1000 + 12 * 60 * 60)) as [signedUrl|text] eqn:Hs;
      subst out; cbn [fst snd].
    - split.
      + intros c slot. unfold Server1.cache_set, Server1.note_signed. cbn [Server1.cache].
        destruct (decide (c = JS.toUpperCase country)) as [->|Hne].
        * fold cacheKey. rewrite lookup_insert_eq. intros [= <-]. by cbn.
        * rewrite lookup_insert_ne
            by (intros Heq; apply Hne; symmetry; by apply flag_key_inj).
          intros Hk. by apply Hinv, Hsub.
      + left. exists signedUrl, now. split_and!; [done|done|lia].
    - split.
      + intros c slot Hk. by apply Hinv, Hsub.
      + right. exists text. split_and!; [done|done|done|]. apply Hsub. }
  destruct (server1_cache_get_cases cacheKey now st)
    as [(slot & Hk & ->)|(st' & -> & Hsg & Hsub)].
  - case_bool_decide as Hfresh.
    + cbn [fst snd]. split; [done|]. left.
      destruct (Hinv _ _ Hk) as [Hurl Hexp].
      exists (Server.url (Server.item slot)), (Server.start slot). split_and!; [done|done|].
      apply seconds_not_past. lia.
    + by apply Hsign.
  - by apply Hsign.
Qed.

Lemma first_server_answers_200_or_400_witness :
  let out := Server1.getFlagHandler Sample.sign_fails "de" 0 Sample.start1 in
  (∃ u t0, out.1 = Server1.successResponse u
           ∧ Sample.sign_fails "flags/DE.svg" (t0 / 1000 + 12 * 60 * 60) = Return u
           ∧ 0 / 1000 ≤ t0 / 1000 + 12 * 60 * 60)
  ∨ (∃ text, Sample.sign_fails "flags/DE.svg" (0 / 1000 + 12 * 60 * 60) = Throw text
             ∧ Http.status out.1 = 400
             ∧ Http.body out.1 = Some [("success", Http.JBool false);
                                       ("message", Http.JString "Unhandled error")]
             ∧ ∀ k slot, Server1.cache out.2 !! k = Some slot →
                         Server1.cache Sample.start1 !! k = Some slot).
Proof.
  refine (proj2 (first_server_answers_200_or_400 Sample.sign_fails "de" 0 Sample.start1 _ _)).
  - intros country slot Hk. unfold Sample.start1 in Hk. cbn [Server1.cache] in Hk.
    by rewrite lookup_empty in Hk.
  - reflexivity.
Defined.

Lemma string_app_assoc (a b c : string) : (a +:+ b) +:+ c = a +:+ b +:+ c.
Proof.
  induction a as [|x a IH]; [done|].
  change (String x ((a +:+ b) +:+ c) = String x (a +:+ b +:+ c)). by rewrite IH.
Qed.

Lemma digest_sortedParams (p t : string) :
  DigestWorker.sortedParams [("timestamp", t); ("public_id", p)]
  = "public_id=" +:+ p +:+ "&timestamp=" +:+ t.
Proof.
  unfold DigestWorker.sortedParams.
  assert (JS.sort (JS.keys [("timestamp", t); ("public_id", p)]) = ["public_id"; "timestamp"])
    as -> by by vm_compute.
  cbn [fmap list_fmap JS.join JS.get_field String.eqb Ascii.eqb Bool.eqb].
  by rewrite string_app_assoc.
Qed.

(** X14.  In the second document of part_002 the signature in the URL is
    the SHA-1 digest, written as 40 lowercase hexadecimal characters, of
    public_id=flags/CC.svg&timestamp=T followed by the API secret: the
    parameters in sorted order, so that the file path is covered as well
    as the timestamp. *)
Theorem digest_signature_covers_the_file_path (country : string) (env : Env) (now : Z) :
  let filePath := "flags/" +:+ country +:+ ".svg" in
  let timestamp := pretty (now / 1000 + DigestWorker.TTL_SECONDS) in
  let signature :=
    JS.hex (WebCrypto.sha1 (JS.encode ("public_id=" +:+ filePath +:+ "&timestamp=" +:+ timestamp
                                         +:+ CLOUDINARY_API_SECRET env))) in
  Http.query (DigestWorker.signedUrl country env now)
  = [("api_key", CLOUDINARY_API_KEY env); ("timestamp", timestamp); ("signature", signature)]
  ∧ String.length signature = 40%nat
  ∧ JS.every JS.is_lower_hex signature = true.
Proof.
  intros filePath timestamp signature. split_and!.
  - unfold DigestWorker.signedUrl, DigestWorker.generateCloudinarySignature.
    fold filePath timestamp. rewrite digest_sortedParams.
    rewrite !string_app_assoc. reflexivity.
  - unfold signature. by rewrite hex_length, sha1_length.
  - apply hex_lower, (digest_bytes WebCrypto.SHA_1).
Qed.

(** ** The client of part_006 *)

Lemma replace_all_cons (c x : ascii) (by_ s : string) :
  FlagHtml.replace_all c by_ (String x s)
  = (if Ascii.eqb x c then by_ else String x EmptyString) +:+ FlagHtml.replace_all c by_ s.
Proof. reflexivity. Qed.

Lemma replace_all_app (c : ascii) (by_ a b : string) :
  FlagHtml.replace_all c by_ (a +:+ b)
  = FlagHtml.replace_all c by_ a +:+ FlagHtml.replace_all c by_ b.
Proof.
  induction a as [|x a IH]; [done|].
  change (String x a +:+ b) with (String x (a +:+ b)).
  by rewrite !replace_all_cons, IH, string_app_assoc.
Qed.

Lemma escapeHtml_app (a b : string) :
  FlagHtml.escapeHtml (a +:+ b) = FlagHtml.escapeHtml a +:+ FlagHtml.escapeHtml b.
Proof. unfold FlagHtml.escapeHtml. by rewrite !replace_all_app. Qed.

Lemma escapeHtml_char (c : ascii) : FlagHtml.escapeHtml (String c EmptyString) = entity c.
Proof. destruct c as [[] [] [] [] [] [] [] []]; by vm_compute. Qed.

(** escapeHtml in one pass: the ampersand is replaced first, so that the
    ampersands of the entities written later are not replaced again. *)
Lemma escapeHtml_cons (c : ascii) (s : string) :
  FlagHtml.escapeHtml (String c s) = entity c +:+ FlagHtml.escapeHtml s.
Proof.
  change (String c s) with (String c EmptyString +:+ s).
  by rewrite escapeHtml_app, escapeHtml_char.
Qed.

Lemma every_app (p : ascii → bool) (a b : string) :
  JS.every p (a +:+ b) = JS.every p a && JS.every p b.
Proof.
  induction a as [|x a IH]; [done|].
  change (String x a +:+ b) with (String x (a +:+ b)). cbn [JS.every].
  by rewrite IH, andb_assoc.
Qed.

Lemma entity_no_markup (c : ascii) : JS.every (λ x, negb (is_markup x)) (entity c) = true.
Proof. destruct c as [[] [] [] [] [] [] [] []]; by vm_compute. Qed.

Lemma entity_cases (c : ascii) :
  c = "&"%char ∨ c = "<"%char ∨ c = ">"%char ∨ c = JS.chr 34 ∨ c = "'"%char
  ∨ (entity c = String c EmptyString ∧ c ≠ "&"%char).
Proof.
  destruct c as [[] [] [] [] [] [] [] []];
    first [ by left | by (right; left) | by (right; right; left)
          | by (right; right; right; left) | by (right; right; right; right; left)
          | (right; right; right; right; right; split; [by vm_compute|discriminate]) ].
Qed.

Lemma entity_inj (x y : ascii) (r1 r2 : string) :
  entity x +:+ r1 = entity y +:+ r2 → x = y ∧ r1 = r2.
Proof.
  intros Heq.
  destruct (entity_cases x) as [->|[->|[->|[->|[->|[Hx Hxa]]]]]];
    destruct (entity_cases y) as [->|[->|[->|[->|[->|[Hy Hya]]]]]];
    try rewrite Hx in Heq; try rewrite Hy in Heq;
    vm_compute in Heq; try discriminate; try (by simplify_eq).
Qed.

(** X15.  escapeHtml of part_006 leaves none of the characters less than,
    greater than, double quote and single quote in its result.  The five
    replacements amount to one pass that writes the entity of each
    character (the ampersand is replaced first, so no ampersand of an
    entity is replaced again).  Nothing is lost: texts that differ have
    escaped forms that differ. *)
Theorem escaped_text_has_no_markup (c : ascii) (unsafe : string) :
  JS.every (λ x, negb (is_markup x)) (FlagHtml.escapeHtml unsafe) = true
  ∧ FlagHtml.escapeHtml (String c unsafe) = entity c +:+ FlagHtml.escapeHtml unsafe
  ∧ ∀ other, FlagHtml.escapeHtml unsafe = FlagHtml.escapeHtml other → unsafe = other.
Proof.
  split_and!.
  - induction unsafe as [|x s IH]; [done|].
    by rewrite escapeHtml_cons, every_app, entity_no_markup, IH.
  - apply escapeHtml_cons.
  - induction unsafe as [|x s IH]; intros [|d other].
    + done.
    + rewrite escapeHtml_cons. change (FlagHtml.escapeHtml "") with "".
      destruct (entity_cases d) as [->|[->|[->|[->|[->|[-> _]]]]]]; discriminate.
    + rewrite escapeHtml_cons. change (FlagHtml.escapeHtml "") with "".
      destruct (entity_cases x) as [->|[->|[->|[->|[->|[-> _]]]]]]; discriminate.
    + rewrite !escapeHtml_cons. intros [-> Hr]%entity_inj. f_equal. by apply IH.
Qed.

Lemma flaghtml_attempts (api : string → Z → FlagHtml.ApiAnswer) (protocol : string → option string)
    (left : nat) (attempt : Z) (trimmedCountry cacheKey : string) (now : Z)
    (lastError : option string) (st : FlagHtml.State) :
  let out := FlagHtml.attempts api protocol left attempt trimmedCountry cacheKey now lastError st in
  let href := FlagHtml.API_URL +:+ "?country=" +:+ NameWorker.encodeURIComponent trimmedCountry in
  ∃ n, (n ≤ left)%nat
    ∧ FlagHtml.requests out.2 = FlagHtml.requests st ++ replicate n href
    ∧ ((∃ h, out.1 = Return h ∧ (1 ≤ n)%nat
             ∧ FlagHtml.cache out.2
               = <[cacheKey := {| FlagHtml.html := h; FlagHtml.timestamp := now |}]>
                   (FlagHtml.cache st))
       ∨ (n = left ∧ FlagHtml.cache out.2 = FlagHtml.cache st
          ∧ ∃ text, out.1 = Throw text
              ∧ ((0 < left)%nat →
                 ∃ rest, text = "Attempt " +:+ pretty (attempt + Z.of_nat left - 1) +:+ rest))).
Proof.
  revert attempt lastError st.
  induction left as [|left IH]; intros attempt lastError st out href.
  - exists 0%nat. split_and!; [done|by rewrite app_nil_r|]. right.
    split_and!; [done|done|]. eexists. split; [done|]. lia.
  - subst out. cbn [FlagHtml.attempts]. fold href.
    set (st1 := FlagHtml.request href st).
    assert (∀ e, let out := FlagHtml.attempts api protocol left (attempt + 1) trimmedCountry
                              cacheKey now (Some ("Attempt " +:+ pretty attempt +:+ e)) st1 in
      ∃ n, (n ≤ S left)%nat
        ∧ FlagHtml.requests out.2 = FlagHtml.requests st ++ replicate n href
        ∧ ((∃ h, out.1 = Return h ∧ (1 ≤ n)%nat
                 ∧ FlagHtml.cache out.2
                   = <[cacheKey := {| FlagHtml.html := h; FlagHtml.timestamp := now |}]>
                       (FlagHtml.cache st))
           ∨ (n = S left ∧ FlagHtml.cache out.2 = FlagHtml.cache st
              ∧ ∃ text, out.1 = Throw text
                  ∧ ((0 < S left)%nat →
                     ∃ rest, text = "Attempt " +:+ pretty (attempt + Z.of_nat (S left) - 1)
                                      +:+ rest)))) as Hnext.
    { intros e out.
      destruct (IH (attempt + 1) (Some ("Attempt " +:+ pretty attempt +:+ e)) st1)
        as (n & Hn & Hreq & Hcases). fold out in Hreq, Hcases.
      exists (S n). split_and!; [lia| |].
      - rewrite Hreq. unfold st1, FlagHtml.request. cbn [FlagHtml.requests].
        rewrite <-app_assoc. done.
      - destruct Hcases as [(h & Hh & Hn1 & Hc)|(-> & Hc & text & Ht & Hrest)].
        + left. exists h. split_and!; [done|lia|done].
        + right. split_and!; [done|done|]. exists text. split; [done|]. intros _.
          destruct left as [|left'].
          * cbn [FlagHtml.attempts] in out. subst out. cbn [fst default from_option] in Ht.
            injection Ht as <-. exists e.
            by replace (attempt + Z.of_nat 1 - 1) with attempt by lia.
          * destruct Hrest as [rest ->]; [lia|]. exists rest.
            by replace (attempt + Z.of_nat (S (S left')) - 1)
              with (attempt + 1 + Z.of_nat (S left') - 1) by lia. }
    destruct (api href attempt) as [success secureUrl json|message status].
    + destruct (success && JS.truthy secureUrl && FlagHtml.isSecureUrl protocol secureUrl).
      * exists 1%nat. split_and!; [lia|done|]. left. eexists. split_and!; [done|lia|done].
      * apply Hnext.
    + apply Hnext.
Qed.

Lemma toLowerCase_truthy (s : string) :
  JS.truthy (FlagHtml.toLowerCase s) = JS.truthy s.
Proof. by destruct s. Qed.

(** X16.  getFlagHtml of part_006 sends at most three requests, all to the
    same address.  A country that is empty after trimming throws Invalid
    country parameter with nothing sent.  When the call throws for a
    country that is not empty, exactly three requests were sent, the
    cache is as it was, and the error is that of the third attempt. *)
Theorem at_most_three_attempts (api : string → Z → FlagHtml.ApiAnswer)
    (protocol : string → option string) (country : string) (now : Z) (st : FlagHtml.State) :
  let out := FlagHtml.getFlagHtml api protocol country now st in
  let href := FlagHtml.API_URL +:+ "?country=" +:+ NameWorker.encodeURIComponent (JS.trim country) in
  ∃ n, (n ≤ 3)%nat
    ∧ FlagHtml.requests out.2 = FlagHtml.requests st ++ replicate n href
    ∧ (JS.truthy (JS.trim country) = false → out = (Throw "Invalid country parameter", st))
    ∧ ∀ text, out.1 = Throw text → JS.truthy (JS.trim country) = true →
        n = 3%nat ∧ FlagHtml.cache out.2 = FlagHtml.cache st
        ∧ ∃ rest, text = "Attempt 3" +:+ rest.
Proof.
  intros out href. subst out. unfold FlagHtml.getFlagHtml.
  destruct (JS.truthy (JS.trim country)) eqn:Htrim; cbn [negb].
  - destruct (FlagHtml.cache st !! _) as [e|] eqn:Hk.
    + case_bool_decide.
      * exists 0%nat. split_and!; [lia|by rewrite app_nil_r|done|done].
      * destruct (flaghtml_attempts api protocol FlagHtml.maxAttempts 1 (JS.trim country)
                    (FlagHtml.toLowerCase (JS.trim country)) now None st)
          as (n & Hn & Hreq & Hcases).
        exists n. split_and!; [done|done|done|].
        intros text Ht _.
        destruct Hcases as [(h & Hh & _)|(-> & Hc & text' & Ht' & Hrest)]; [congruence|].
        split_and!; [done|done|].
        destruct Hrest as [rest ->]; [unfold FlagHtml.maxAttempts; lia|].
        exists rest. rewrite Ht' in Ht. by injection Ht as <-.
    + destruct (flaghtml_attempts api protocol FlagHtml.maxAttempts 1 (JS.trim country)
                  (FlagHtml.toLowerCase (JS.trim country)) now None st)
        as (n & Hn & Hreq & Hcases).
      exists n. split_and!; [done|done|done|].
      intros text Ht _.
      destruct Hcases as [(h & Hh & _)|(-> & Hc & text' & Ht' & Hrest)]; [congruence|].
      split_and!; [done|done|].
      destruct Hrest as [rest ->]; [unfold FlagHtml.maxAttempts; lia|].
      exists rest. rewrite Ht' in Ht. by injection Ht as <-.
  - exists 0%nat. split_and!; [lia|by rewrite app_nil_r|done|done].
Qed.

Lemma flaghtml_hit (api : string → Z → FlagHtml.ApiAnswer) (protocol : string → option string)
    (country : string) (now : Z) (st : FlagHtml.State) (e : FlagHtml.CacheEntry) :
  JS.truthy (JS.trim country) = true →
  FlagHtml.cache st !! FlagHtml.toLowerCase (JS.trim country) = Some e →
  now - FlagHtml.timestamp e < FlagHtml.CACHE_TTL →
  FlagHtml.getFlagHtml api protocol country now st = (Return (FlagHtml.html e), st).
Proof.
  intros Htrim Hk Hfresh. unfold FlagHtml.getFlagHtml. rewrite Htrim, Hk. cbn [negb].
  by rewrite bool_decide_true.
Qed.

(** X17.  What getFlagHtml returns is kept for a minute.  After a call
    that returned an HTML string there is a time [since] (the time of the
    call, when the call sent a request) such that every call earlier than
    60 seconds after [since], for a country that is the same after
    trimming and lower-casing, returns the same string and sends nothing,
    whatever the API would answer. *)
Theorem html_is_cached_for_a_minute (api : string → Z → FlagHtml.ApiAnswer)
    (protocol : string → option string) (country : string) (now : Z) (st : FlagHtml.State)
    (html : string) :
  let out := FlagHtml.getFlagHtml api protocol country now st in
  out.1 = Return html →
  ∃ since, now - since < FlagHtml.CACHE_TTL
    ∧ (FlagHtml.requests out.2 ≠ FlagHtml.requests st → since = now)
    ∧ ∀ api' protocol' other later,
        FlagHtml.toLowerCase (JS.trim other) = FlagHtml.toLowerCase (JS.trim country) →
        later - since < FlagHtml.CACHE_TTL →
        FlagHtml.getFlagHtml api' protocol' other later out.2 = (Return html, out.2).
Proof.
  intros out Hret.
  assert (JS.truthy (JS.trim country) = true) as Htrim.
  { subst out. unfold FlagHtml.getFlagHtml in Hret.
    by destruct (JS.truthy (JS.trim country)). }
  assert (∀ other, FlagHtml.toLowerCase (JS.trim other) = FlagHtml.toLowerCase (JS.trim country) →
            JS.truthy (JS.trim other) = true) as Hother.
  { intros other Heq. by rewrite <-toLowerCase_truthy, Heq, toLowerCase_truthy. }
  assert (∀ since, now - since < FlagHtml.CACHE_TTL →
            (FlagHtml.requests out.2 ≠ FlagHtml.requests st → since = now) →
            FlagHtml.cache out.2 !! FlagHtml.toLowerCase (JS.trim country)
              = Some {| FlagHtml.html := html; FlagHtml.timestamp := since |} →
            ∃ since, now - since < FlagHtml.CACHE_TTL
              ∧ (FlagHtml.requests out.2 ≠ FlagHtml.requests st → since = now)
              ∧ ∀ api' protocol' other later,
                  FlagHtml.toLowerCase (JS.trim other) = FlagHtml.toLowerCase (JS.trim country) →
                  later - since < FlagHtml.CACHE_TTL →
                  FlagHtml.getFlagHtml api' protocol' other later out.2 = (Return html, out.2))
    as Hfinish.
  { intros since Hs Hreq Hk. exists since. split_and!; [done|done|].
    intros api' protocol' other later Heq Hlater.
    rewrite <-Heq in Hk.
    by rewrite (flaghtml_hit api' protocol' other later out.2 _ (Hother other Heq) Hk). }
  revert Hret Hfinish. subst out. unfold FlagHtml.getFlagHtml. rewrite Htrim. cbn [negb].
  pose proof (flaghtml_attempts api protocol FlagHtml.maxAttempts 1 (JS.trim country)
                (FlagHtml.toLowerCase (JS.trim country)) now None st)
    as (n & Hn & Hreq & Hcases).
  assert (∀ out, out = FlagHtml.attempts api protocol FlagHtml.maxAttempts 1 (JS.trim country)
                         (FlagHtml.toLowerCase (JS.trim country)) now None st →
     out.1 = Return html →
     FlagHtml.cache out.2 !! FlagHtml.toLowerCase (JS.trim country)
     = Some {| FlagHtml.html := html; FlagHtml.timestamp := now |}) as Hmiss.
  { intros out -> Hret.
    destruct Hcases as [(h & Hh & _ & Hc)|(_ & _ & text & Ht & _)]; [|congruence].
    rewrite Hc, lookup_insert_eq. congruence. }
  destruct (FlagHtml.cache st !! _) as [e|] eqn:Hk.
  - case_bool_decide as Hfresh.
    + cbn [fst snd]. intros [= <-] Hfinish. apply (Hfinish (FlagHtml.timestamp e)); [done|done|].
      rewrite Hk. by destruct e.
    + intros Hret Hfinish. apply (Hfinish now); [unfold FlagHtml.CACHE_TTL; lia|done|].
      by apply Hmiss.
  - intros Hret Hfinish. apply (Hfinish now); [unfold FlagHtml.CACHE_TTL; lia|done|].
    by apply Hmiss.
Qed.

Lemma html_is_cached_for_a_minute_witness :
  let out := FlagHtml.getFlagHtml Sample.api_ok Sample.https_only "India" 0 Sample.html_start in
  ∃ since, 0 - since < FlagHtml.CACHE_TTL
    ∧ (FlagHtml.requests out.2 ≠ FlagHtml.requests Sample.html_start → since = 0)
    ∧ ∀ api' protocol' other later,
        FlagHtml.toLowerCase (JS.trim other) = FlagHtml.toLowerCase (JS.trim "India") →
        later - since < FlagHtml.CACHE_TTL →
        FlagHtml.getFlagHtml api' protocol' other later out.2 = (Return Sample.img_India, out.2).
Proof.
  refine (html_is_cached_for_a_minute Sample.api_ok Sample.https_only "India" 0 Sample.html_start Sample.img_India _).
  reflexivity.
Defined.

(** ** The client of flag-cdn.js *)

Lemma requests_sent_app (a b : list FlagCdn.Effect) :
  requests_sent (a ++ b) = (requests_sent a + requests_sent b)%nat.
Proof. unfold requests_sent. by rewrite List.filter_app, length_app. Qed.

Lemma time_slept_app (a b : list FlagCdn.Effect) :
  time_slept (a ++ b) = time_slept a + time_slept b.
Proof.
  induction a as [|e a IH]; [done|].
  unfold time_slept in *. cbn [app fold_right]. destruct e; lia.
Qed.

Lemma retry_from_spec (net : Z → FlagCdn.Fetched) (left : nat) (attempt : Z) (href : string)
    (retryDelay : Z) (st : FlagCdn.State) :
  0 ≤ attempt →
  let out := FlagCdn.retry_from net left attempt href retryDelay st in
  ∃ (k : nat) (new : list FlagCdn.Effect),
    (k ≤ left)%nat
    ∧ FlagCdn.effects out.2 = FlagCdn.effects st ++ new
    ∧ FlagCdn.cache out.2 = FlagCdn.cache st
    ∧ FlagCdn.pendingRequests out.2 = FlagCdn.pendingRequests st
    ∧ requests_sent new = S k
    ∧ time_slept new = retryDelay * 2 ^ attempt * (2 ^ Z.of_nat k - 1)
    ∧ (∀ j, (j < k)%nat → ∃ text, net (attempt + Z.of_nat j) = FlagCdn.Rejected text)
    ∧ match net (attempt + Z.of_nat k) with
      | FlagCdn.Response status statusText json => out.1 = Return (status, statusText, json)
      | FlagCdn.Rejected text => k = left ∧ out.1 = Throw text
      end.
Proof.
  revert attempt st. induction left as [|left IH]; intros attempt st Hpos out; subst out.
  - exists 0%nat, [FlagCdn.Request href]. cbn [FlagCdn.retry_from].
    replace (attempt + Z.of_nat 0) with attempt by lia.
    destruct (net attempt) as [status statusText json|text] eqn:Hnet;
      (split_and!; try done; try (simpl; lia); intros j; lia).
  - cbn [FlagCdn.retry_from].
    destruct (net attempt) as [status statusText json|text] eqn:Hnet.
    + exists 0%nat, [FlagCdn.Request href].
      replace (attempt + Z.of_nat 0) with attempt by lia. rewrite Hnet.
      split_and!; try done; try (simpl; lia); intros j; lia.
    + destruct (IH (attempt + 1)
                  (FlagCdn.effect (FlagCdn.Sleep (retryDelay * 2 ^ attempt))
                     (FlagCdn.effect (FlagCdn.Request href) st)) ltac:(lia))
        as (k & new & Hk & Heff & Hc & Hp & Hreq & Hsleep & Hrej & Hend).
      exists (S k), (FlagCdn.Request href :: FlagCdn.Sleep (retryDelay * 2 ^ attempt) :: new).
      split_and!.
      * lia.
      * rewrite Heff. unfold FlagCdn.effect. cbn [FlagCdn.effects].
        by rewrite <-!app_assoc.
      * by rewrite Hc.
      * by rewrite Hp.
      * change (FlagCdn.Request href :: FlagCdn.Sleep (retryDelay * 2 ^ attempt) :: new)
          with ([FlagCdn.Request href; FlagCdn.Sleep (retryDelay * 2 ^ attempt)] ++ new).
        rewrite requests_sent_app, Hreq. done.
      * change (FlagCdn.Request href :: FlagCdn.Sleep (retryDelay * 2 ^ attempt) :: new)
          with ([FlagCdn.Request href; FlagCdn.Sleep (retryDelay * 2 ^ attempt)] ++ new).
        rewrite time_slept_app, Hsleep. cbn [time_slept fold_right].
        rewrite Nat2Z.inj_succ, !Z.pow_succ_r, Z.pow_add_r by lia. lia.
      * intros j Hj. destruct j as [|j].
        -- exists text. by replace (attempt + Z.of_nat 0) with attempt by lia.
        -- destruct (Hrej j ltac:(lia)) as [text' Ht']. exists text'.
           by replace (attempt + Z.of_nat (S j)) with (attempt + 1 + Z.of_nat j) by lia.
      * replace (attempt + Z.of_nat (S k)) with (attempt + 1 + Z.of_nat k) by lia.
        destruct (net (attempt + 1 + Z.of_nat k)); [done|].
        destruct Hend as [-> ?]. done.
Qed.

(** X18.  retryableFetch of flag-cdn.js.  The first attempt that fetch
    does not reject ends the loop with its response, whatever the status
    of the response; a rejected attempt is followed by a pause of
    retryDelay * 2^attempt.  With k the number of rejected attempts
    before the last attempt, k is at most [retries], k + 1 requests were
    sent and the pauses add up to retryDelay * (2^k - 1); the call throws
    only when all retries + 1 attempts were rejected. *)
Theorem retries_are_bounded_and_back_off (net : Z → FlagCdn.Fetched) (href : string)
    (retries : nat) (retryDelay : Z) (st : FlagCdn.State) :
  let out := FlagCdn.retryableFetch net href retries retryDelay st in
  ∃ (k : nat) (new : list FlagCdn.Effect),
    (k ≤ retries)%nat
    ∧ FlagCdn.effects out.2 = FlagCdn.effects st ++ new
    ∧ requests_sent new = S k
    ∧ time_slept new = retryDelay * (2 ^ Z.of_nat k - 1)
    ∧ (∀ j, (j < k)%nat → ∃ text, net (Z.of_nat j) = FlagCdn.Rejected text)
    ∧ match net (Z.of_nat k) with
      | FlagCdn.Response status statusText json => out.1 = Return (status, statusText, json)
      | FlagCdn.Rejected text => k = retries ∧ out.1 = Throw text
      end.
Proof.
  intros out.
  destruct (retry_from_spec net retries 0 href retryDelay st ltac:(lia))
    as (k & new & Hk & Heff & _ & _ & Hreq & Hsleep & Hrej & Hend).
  exists k, new. split_and!; [done|done|done| |done|done].
  rewrite Hsleep. lia.
Qed.

Lemma cdn_fetchFlag_cases (country : string) (t : Z) (st : FlagCdn.State) :
  JS.truthy country = true →
  cdn_cached country t st = false →
  FlagCdn.fetchFlag country t st
  = (FlagCdn.Pending country,
     if bool_decide (country ∈ FlagCdn.pendingRequests st) then st
     else FlagCdn.pending_set country st).
Proof.
  intros Htruthy Hmiss. unfold FlagCdn.fetchFlag, cdn_cached in *. rewrite Htruthy. cbn [negb].
  destruct (FlagCdn.cache st !! country) as [c|]; [rewrite Hmiss|];
    by destruct (bool_decide (country ∈ FlagCdn.pendingRequests st)).
Qed.

Lemma cdn_cached_later (country : string) (now t : Z) (st st' : FlagCdn.State) :
  FlagCdn.cache st' = FlagCdn.cache st →
  cdn_cached country now st = false → now ≤ t → cdn_cached country t st' = false.
Proof.
  intros Hc Hmiss Ht. unfold cdn_cached in *. rewrite Hc.
  destruct (FlagCdn.cache st !! country) as [c|]; [|done].
  apply bool_decide_eq_false. apply bool_decide_eq_false in Hmiss. lia.
Qed.

(** What the function behind fetchPromise leaves behind. *)
Lemma cdn_fetchPromise_spec (net : Z → FlagCdn.Fetched) (country : string) (t : Z)
    (st : FlagCdn.State) :
  let out := FlagCdn.fetchPromise net country t st in
  FlagCdn.pendingRequests out.2 = FlagCdn.pendingRequests st ∖ {[country]}
  ∧ (∃ new, FlagCdn.effects out.2 = FlagCdn.effects st ++ new
            ∧ (1 ≤ requests_sent new ≤ 4)%nat)
  ∧ match out.1 with
    | Some u => FlagCdn.cache out.2
                = <[country := {| FlagCdn.url := u; FlagCdn.expiry := t + FlagCdn.CACHE_TTL |}]>
                    (FlagCdn.cache st)
    | None => FlagCdn.cache out.2 = FlagCdn.cache st
    end.
Proof.
  intros out. subst out. unfold FlagCdn.fetchPromise, FlagCdn.retryableFetch.
  destruct (retry_from_spec net FlagCdn.RETRY_COUNT 0 (FlagCdn.flag_href country)
              FlagCdn.RETRY_DELAY st ltac:(lia))
    as (k & new & Hk & Heff & Hc & Hp & Hreq & _ & _ & _).
  unfold FlagCdn.RETRY_COUNT in Hk.
  destruct (FlagCdn.retry_from net FlagCdn.RETRY_COUNT 0 (FlagCdn.flag_href country)
              FlagCdn.RETRY_DELAY st) as [[[[status statusText] json]|text] st1];
    cbn [fst snd] in *.
  - destruct (negb (response_ok status)).
    + cbn [fst snd FlagCdn.pending_delete FlagCdn.effect FlagCdn.pendingRequests
           FlagCdn.effects FlagCdn.cache].
      split_and!; [by rewrite Hp| |done].
      eexists. rewrite Heff, <-app_assoc. split; [done|].
      rewrite requests_sent_app, Hreq. cbn. lia.
    + destruct json as [data|text].
      * destruct (FlagCdn.success data && JS.truthy (FlagCdn.secureUrl data)).
        -- cbn [fst snd FlagCdn.pending_delete FlagCdn.cache_set FlagCdn.pendingRequests
                FlagCdn.effects FlagCdn.cache].
           split_and!; [by rewrite Hp| |by rewrite Hc].
           exists new. split; [done|lia].
        -- cbn [fst snd FlagCdn.pending_delete FlagCdn.effect FlagCdn.pendingRequests
                FlagCdn.effects FlagCdn.cache].
           split_and!; [by rewrite Hp| |done].
           eexists. rewrite Heff, <-app_assoc. split; [done|].
           rewrite requests_sent_app, Hreq. cbn. lia.
      * cbn [fst snd FlagCdn.pending_delete FlagCdn.effect FlagCdn.pendingRequests
             FlagCdn.effects FlagCdn.cache].
        split_and!; [by rewrite Hp| |done].
        eexists. rewrite Heff, <-app_assoc. split; [done|].
        rewrite requests_sent_app, Hreq. cbn. lia.
  - cbn [fst snd FlagCdn.pending_delete FlagCdn.effect FlagCdn.pendingRequests
         FlagCdn.effects FlagCdn.cache].
    split_and!; [by rewrite Hp| |done].
    eexists. rewrite Heff, <-app_assoc. split; [done|].
    rewrite requests_sent_app, Hreq. cbn. lia.
Qed.

(** X19.  fetchFlag of flag-cdn.js shares a pending request.  A call for
    a country with no valid cache entry and no pending request registers
    one.  Until it settles, every further call for the country is handed
    the same pending promise and changes nothing.  When it settles the
    registration is removed, and at least one and at most four requests
    were sent for all the callers together.  After that a fulfilled URL
    is served from the cache for an hour, and after a failure the next
    call registers a fresh request. *)
Theorem pending_request_is_shared (net : Z → FlagCdn.Fetched) (country : string) (now : Z)
    (st : FlagCdn.State) :
  JS.truthy country = true →
  cdn_cached country now st = false →
  country ∉ FlagCdn.pendingRequests st →
  let started := FlagCdn.fetchFlag country now st in
  started = (FlagCdn.Pending country, FlagCdn.pending_set country st)
  ∧ (∀ t, now ≤ t → FlagCdn.fetchFlag country t started.2 = (FlagCdn.Pending country, started.2))
  ∧ ∀ t, let settled := FlagCdn.fetchPromise net country t started.2 in
      (country ∉ FlagCdn.pendingRequests settled.2)
      ∧ (∃ new, FlagCdn.effects settled.2 = FlagCdn.effects st ++ new
                ∧ (1 ≤ requests_sent new ≤ 4)%nat)
      ∧ match settled.1 with
        | Some u =>
            ∀ t', t' < t + FlagCdn.CACHE_TTL →
              FlagCdn.fetchFlag country t' settled.2 = (FlagCdn.Settled (Some u), settled.2)
        | None =>
            ∀ t', now ≤ t' →
              FlagCdn.fetchFlag country t' settled.2
              = (FlagCdn.Pending country, FlagCdn.pending_set country settled.2)
        end.
Proof.
  intros Htruthy Hmiss Hfree started.
  assert (started = (FlagCdn.Pending country, FlagCdn.pending_set country st)) as Hstart.
  { unfold started. rewrite cdn_fetchFlag_cases by done. by rewrite bool_decide_false. }
  rewrite Hstart. cbn [fst snd]. split_and!; [done| |].
  - intros t Ht. rewrite cdn_fetchFlag_cases; [|done|by apply (cdn_cached_later _ now _ st)].
    rewrite bool_decide_true; [done|].
    cbn [FlagCdn.pending_set FlagCdn.pendingRequests].
    by apply elem_of_union_l, elem_of_singleton.
  - intros t.
    destruct (cdn_fetchPromise_spec net country t (FlagCdn.pending_set country st))
      as (Hp & Hnew & Hcache).
    set (settled := FlagCdn.fetchPromise net country t (FlagCdn.pending_set country st)) in *.
    assert (country ∉ FlagCdn.pendingRequests settled.2) as Hgone.
    { rewrite Hp, elem_of_difference, elem_of_singleton. by intros [_ []]. }
    split_and!; [done|done|].
    destruct (settled.1) as [u|].
    + intros t' Ht'. unfold FlagCdn.fetchFlag. rewrite Htruthy, Hcache, lookup_insert_eq.
      cbn [negb FlagCdn.expiry FlagCdn.url]. by rewrite bool_decide_true.
    + intros t' Ht'. rewrite cdn_fetchFlag_cases; [|done|by apply (cdn_cached_later _ now _ st)].
      by rewrite bool_decide_false.
Qed.

Lemma pending_request_is_shared_witness :
  FlagCdn.fetchFlag "DE" 0 Sample.cdn_start = (FlagCdn.Pending "DE", FlagCdn.pending_set "DE" Sample.cdn_start).
Proof.
  refine (proj1 (pending_request_is_shared Sample.net_flaky "DE" 0 Sample.cdn_start _ _ _)).
  - reflexivity.
  - reflexivity.
  - apply not_elem_of_empty.
Defined.

(** ** Country names in title case *)

(** What toLowerCase and toUpperCase do to one character, as far as the
    title case needs it. *)
Lemma lower_char_facts (c : ascii) :
  FlagHtml.lower_char (FlagHtml.lower_char c) = FlagHtml.lower_char c
  ∧ CountryName.is_word (FlagHtml.lower_char c) = CountryName.is_word c
  ∧ JS.between 65 90 (JS.code (FlagHtml.lower_char c)) = false.
Proof.
  assert (Ascii.eqb (FlagHtml.lower_char (FlagHtml.lower_char c)) (FlagHtml.lower_char c)
          && Bool.eqb (CountryName.is_word (FlagHtml.lower_char c)) (CountryName.is_word c)
          && negb (JS.between 65 90 (JS.code (FlagHtml.lower_char c))) = true) as Hcheck.
  { destruct c as [[] [] [] [] [] [] [] []]; vm_compute; reflexivity. }
  apply andb_true_iff in Hcheck as [[H1 H2]%andb_true_iff H3].
  apply Ascii.eqb_eq in H1. apply Bool.eqb_prop in H2. apply negb_true_iff in H3. done.
Qed.

Lemma upper_word_char (c : ascii) :
  CountryName.is_word c = true →
  ∃ d, JS.upper_char c = String d EmptyString
       ∧ FlagHtml.lower_char d = FlagHtml.lower_char c
       ∧ CountryName.is_word d = true
       ∧ JS.between 97 122 (JS.code d) = false.
Proof.
  assert ((if CountryName.is_word c
           then match JS.upper_char c with
                | String d EmptyString =>
                    Ascii.eqb (FlagHtml.lower_char d) (FlagHtml.lower_char c)
                    && CountryName.is_word d && negb (JS.between 97 122 (JS.code d))
                | _ => false
                end
           else true) = true) as Hcheck.
  { destruct c as [[] [] [] [] [] [] [] []]; vm_compute; reflexivity. }
  intros Hw. rewrite Hw in Hcheck.
  destruct (JS.upper_char c) as [|d [|? ?]]; [done| |done].
  apply andb_true_iff in Hcheck as [[H1 H2]%andb_true_iff H3].
  apply Ascii.eqb_eq in H1. apply negb_true_iff in H3. by exists d.
Qed.

(** One step of the replacement writes one character. *)
Lemma capitalize_from_cons (inside : bool) (c : ascii) (s : string) :
  ∃ d, CountryName.capitalize_from inside (String c s)
       = String d (CountryName.capitalize_from (CountryName.is_word c) s)
       ∧ FlagHtml.lower_char d = FlagHtml.lower_char c
       ∧ CountryName.is_word d = CountryName.is_word c
       ∧ (if CountryName.is_word c && negb inside
          then JS.between 97 122 (JS.code d) = false else d = c).
Proof.
  cbn [CountryName.capitalize_from].
  destruct (CountryName.is_word c) eqn:Hw; [destruct inside|]; cbn [andb negb].
  - by exists c.
  - destruct (upper_word_char c Hw) as (d & -> & Hl & Hwd & Hd). by exists d.
  - by exists c.
Qed.

Lemma capitalize_from_length (inside : bool) (s : string) :
  String.length (CountryName.capitalize_from inside s) = String.length s.
Proof.
  revert inside. induction s as [|c s IH]; intros inside; [done|].
  destruct (capitalize_from_cons inside c s) as (d & -> & _). cbn [String.length]. by rewrite IH.
Qed.

Lemma toLowerCase_capitalize_from (inside : bool) (s : string) :
  FlagHtml.toLowerCase (CountryName.capitalize_from inside s) = FlagHtml.toLowerCase s.
Proof.
  revert inside. induction s as [|c s IH]; intros inside; [done|].
  destruct (capitalize_from_cons inside c s) as (d & -> & Hl & _).
  cbn [FlagHtml.toLowerCase]. by rewrite IH, Hl.
Qed.

Lemma toLowerCase_idemp (s : string) :
  FlagHtml.toLowerCase (FlagHtml.toLowerCase s) = FlagHtml.toLowerCase s.
Proof.
  induction s as [|c s IH]; [done|]. cbn [FlagHtml.toLowerCase].
  by rewrite IH, (proj1 (lower_char_facts c)).
Qed.

Lemma toLowerCase_length (s : string) : String.length (FlagHtml.toLowerCase s) = String.length s.
Proof. induction s as [|c s IH]; [done|]. cbn [FlagHtml.toLowerCase String.length]. by rewrite IH. Qed.

Lemma title_cased_capitalize (inside : bool) (s : string) :
  title_cased_from inside (CountryName.capitalize_from inside (FlagHtml.toLowerCase s)) = true.
Proof.
  revert inside. induction s as [|c s IH]; intros inside; [done|].
  cbn [FlagHtml.toLowerCase].
  destruct (capitalize_from_cons inside (FlagHtml.lower_char c) (FlagHtml.toLowerCase s))
    as (d & -> & _ & Hw & Hd).
  cbn [title_cased_from]. rewrite Hw, IH, andb_true_r.
  destruct (CountryName.is_word (FlagHtml.lower_char c) && negb inside).
  - by rewrite Hd.
  - subst d. by rewrite (proj2 (proj2 (lower_char_facts c))).
Qed.

(** X20.  formatCountryName of CountryFlag.jsx, and the same formatting in
    getCountryIso2ByName of countryLookup.ts, put a name in title case.
    The result has the length of the name; in it no letter a-z starts a
    word and a letter A-Z stands only at the start of a word, a word
    being a run of the characters A-Z, a-z, 0-9 and underscore: every
    word after a space is capitalised, and so is the letter after an
    apostrophe, a hyphen or an accented letter.  Formatting the result
    again changes nothing.  getCountryIso2ByName looks up the trimmed
    name in title case, so names that are equal up to case and white
    space around them get the same answer. *)
Theorem names_are_looked_up_in_title_case (byCountry : string → option string)
    (name other : string) :
  let formatted := CountryName.formatCountryName name in
  String.length formatted = String.length name
  ∧ title_cased_from false formatted = true
  ∧ CountryName.formatCountryName formatted = formatted
  ∧ (JS.truthy name = true →
     CountryName.getCountryIso2ByName byCountry name
     = byCountry (CountryName.formatCountryName (JS.trim name)))
  ∧ (JS.truthy name = true → JS.truthy other = true →
     FlagHtml.toLowerCase (JS.trim name) = FlagHtml.toLowerCase (JS.trim other) →
     CountryName.getCountryIso2ByName byCountry name
     = CountryName.getCountryIso2ByName byCountry other).
Proof.
  intros formatted. subst formatted. unfold CountryName.formatCountryName. split_and!.
  - by rewrite capitalize_from_length, toLowerCase_length.
  - apply title_cased_capitalize.
  - by rewrite toLowerCase_capitalize_from, toLowerCase_idemp.
  - intros Hn. unfold CountryName.getCountryIso2ByName. by rewrite Hn.
  - intros Hn Ho Heq. unfold CountryName.getCountryIso2ByName. by rewrite Hn, Ho, Heq.
Qed.
